(** * A browser code editor with live preview: patch engine, console relay
      and file management

    Shallow embedding of the TypeScript sources
    - [components/monaco-editor/monaco-editor.component.ts] (animated patch
      applier and its diff),
    - the root component (file collection, tabs, console relay, preview
      builder, AI edit orchestration),
    - [services/gemini.service.ts] (error classification of the AI calls),
    - [components/console/console.component.ts] (shape of a log entry).

    JavaScript strings are sequences of code units; they are embedded as
    [string], one [ascii] standing for one code unit.  Only indexing, length,
    equality, concatenation and [substring] are used by the embedded code, and
    none of them looks inside a code unit.  The messages and default texts of
    the source that are not Latin are written as they stand in the source
    file and are only ever compared or searched for as a whole.  Array
    methods are embedded by
    their list counterparts: [some] is [existsb], [find] is [List.find],
    [filter] is [List.filter], [map] is [List.map]. *)

From Stdlib Require Import String Ascii List Arith ZArith Bool Lia DecimalString.
Import ListNotations.

Open Scope string_scope.
Open Scope list_scope.
Open Scope nat_scope.

Set Implicit Arguments.

(** ** JavaScript string primitives *)

Module JsString.

(** [s[i]]: the one-unit string at index [i], or [undefined] out of range. *)
Definition charAt (s : string) (i : nat) : option ascii := String.get i s.

(** Strict equality of two results of indexing. *)
Definition charAt_eqb (a b : option ascii) : bool :=
  match a, b with
  | Some x, Some y => Ascii.eqb x y
  | None, None => true
  | _, _ => false
  end.

(** [s.substring(a, b)]: both bounds are clamped to the length and swapped
    when they come in the wrong order. *)
Definition substring (s : string) (a b : nat) : string :=
  let a' := Nat.min a (String.length s) in
  let b' := Nat.min b (String.length s) in
  String.substring (Nat.min a' b') (Nat.max a' b' - Nat.min a' b') s.

(** [s.includes(needle)]. *)
Fixpoint includes (s needle : string) : bool :=
  if String.prefix needle s then true
  else match s with
       | EmptyString => false
       | String _ rest => includes rest needle
       end.

(** White space removed by [trim], as far as it lies in the one-byte
    range: TAB, LF, VT, FF, CR, SPACE and NBSP. *)
Definition isWhiteSpace (c : ascii) : bool :=
  let n := nat_of_ascii c in
  ((9 <=? n) && (n <=? 13)) || (n =? 32) || (n =? 160).

Fixpoint trimStart (s : string) : string :=
  match s with
  | EmptyString => EmptyString
  | String c rest => if isWhiteSpace c then trimStart rest else s
  end.

(** Removes trailing white space: a unit is kept when it is not white space
    or when something is kept after it. *)
Fixpoint trimEnd (s : string) : string :=
  match s with
  | EmptyString => EmptyString
  | String c rest =>
      match trimEnd rest with
      | EmptyString => if isWhiteSpace c then EmptyString else String c EmptyString
      | kept => String c kept
      end
  end.

Definition trim (s : string) : string := trimEnd (trimStart s).

(** Truthiness of a string: only the empty string is falsy. *)
Definition truthy (s : string) : bool :=
  match s with EmptyString => false | _ => true end.

(** [s.endsWith(suffix)], used for the anchored extension pattern. *)
Definition endsWith (s suffix : string) : bool :=
  let n := String.length s in
  let m := String.length suffix in
  (m <=? n) && String.eqb (String.substring (n - m) m s) suffix.

(** [s.split('.').pop()]: what follows the last dot, the whole string when
    there is none. *)
Fixpoint afterLastDot (s : string) : string :=
  match s with
  | EmptyString => EmptyString
  | String c rest =>
      if existsb (Ascii.eqb ".") (list_ascii_of_string rest)
      then afterLastDot rest
      else if Ascii.eqb c "." then rest else s
  end.

End JsString.

(** ** The text diff of the patch engine
    (monaco-editor.component.ts, [applyChangesWithAnimation], the two [while]
    loops and [textToInsert]) *)

Module Diff.

Record DiffResult : Type := mkDiff {
  prefixLength : nat;
  suffixLength : nat;
  replacementText : string
}.

(** Guard of the first loop. *)
Definition prefixGuard (oldContent newContent : string) (prefixLen : nat) : bool :=
  (prefixLen <? String.length oldContent)
  && (prefixLen <? String.length newContent)
  && JsString.charAt_eqb (JsString.charAt oldContent prefixLen)
                         (JsString.charAt newContent prefixLen).

(** [while (guard) prefixLen++], unrolled [fuel] times. *)
Fixpoint prefixLoop (fuel : nat) (oldContent newContent : string) (prefixLen : nat) : nat :=
  match fuel with
  | O => prefixLen
  | S fuel' =>
      if prefixGuard oldContent newContent prefixLen
      then prefixLoop fuel' oldContent newContent (S prefixLen)
      else prefixLen
  end.

(** Guard of the second loop.  The subtractions never go below zero where
    they are evaluated: [prefixLen] is at most both lengths, and the index
    expressions are only reached, by short circuit, when
    [suffixLen < length - prefixLen]. *)
Definition suffixGuard (oldContent newContent : string) (prefixLen suffixLen : nat) : bool :=
  (suffixLen <? String.length oldContent - prefixLen)
  && (suffixLen <? String.length newContent - prefixLen)
  && JsString.charAt_eqb
       (JsString.charAt oldContent (String.length oldContent - 1 - suffixLen))
       (JsString.charAt newContent (String.length newContent - 1 - suffixLen)).

Fixpoint suffixLoop (fuel : nat) (oldContent newContent : string)
         (prefixLen suffixLen : nat) : nat :=
  match fuel with
  | O => suffixLen
  | S fuel' =>
      if suffixGuard oldContent newContent prefixLen suffixLen
      then suffixLoop fuel' oldContent newContent prefixLen (S suffixLen)
      else suffixLen
  end.

(** Each loop stops at the latest when its counter reaches the length of
    [oldContent], so that many unrollings are enough (see
    [prefixLoop_exits] and [suffixLoop_exits]). *)
Definition commonPrefix (oldContent newContent : string) : nat :=
  prefixLoop (String.length oldContent) oldContent newContent 0.

Definition commonSuffix (oldContent newContent : string) (prefixLen : nat) : nat :=
  suffixLoop (String.length oldContent) oldContent newContent prefixLen 0.

Definition diff (oldContent newContent : string) : DiffResult :=
  let prefixLen := commonPrefix oldContent newContent in
  let suffixLen := commonSuffix oldContent newContent prefixLen in
  {| prefixLength := prefixLen;
     suffixLength := suffixLen;
     replacementText :=
       JsString.substring newContent prefixLen (String.length newContent - suffixLen) |}.

(** Replacing the code units of [s] from offset [from] up to offset [to]
    by [text]: the effect of one ranged edit on the full text. *)
Definition replaceRange (s : string) (from to : nat) (text : string) : string :=
  (JsString.substring s 0 from ++ text ++ JsString.substring s to (String.length s))%string.

(** The old text with its middle segment replaced as the diff says. *)
Definition applyDiff (oldContent : string) (d : DiffResult) : string :=
  replaceRange oldContent (prefixLength d)
               (String.length oldContent - suffixLength d) (replacementText d).

End Diff.

(** ** Control flow of event handlers and asynchronous functions *)

(** What a [throw] carries: an instance of [Error] with its message, or any
    other value. *)
Inductive Thrown : Type :=
| ErrorObject (message : string)
| NotAnError.

(** How a piece of an asynchronous function ends: normally with a value, by
    an exception, or never (it awaits a promise that nobody resolves). *)
Inductive Step (A : Type) : Type :=
| Done (a : A)
| Throws (err : Thrown)
| Hangs.
Arguments Throws {A} err.
Arguments Hangs {A}.

(** How the promise returned by an asynchronous function settles. *)
Inductive Settlement : Type :=
| Resolved
| Rejected (err : Thrown)
| NeverSettles.

Definition settlementOf (r : Step unit) : Settlement :=
  match r with
  | Done _ => Resolved
  | Throws err => Rejected err
  | Hangs => NeverSettles
  end.

Definition settles (o : Settlement) : bool :=
  match o with NeverSettles => false | _ => true end.

(** ** The editor widget and the animated patch applier
    (monaco-editor.component.ts) *)

Module Monaco.

Record Position : Type := mkPosition { lineNumber : nat; column : nat }.

Record Range : Type := mkRange {
  startLineNumber : nat; startColumn : nat;
  endLineNumber : nat; endColumn : nat
}.

(** The widget is an external library: the component uses it through the
    operations below, over an editor state [E].  Reading and replacing the
    full text always return; every other operation may throw, and may have
    changed the editor before it throws. *)
Record Api (E : Type) : Type := mkApi {
  getValue : E -> string;
  setValue : string -> E -> E;
  getPositionAt : nat -> E -> (Thrown + Position) * E;
  getPosition : E -> (Thrown + Position) * E;
  focus : E -> (Thrown + unit) * E;
  setSelection : Range -> E -> (Thrown + unit) * E;
  revealRangeInCenter : Range -> E -> (Thrown + unit) * E;
  (** [executeEdits(source, [{ range, text }])] *)
  executeEdits : string -> Range -> string -> E -> (Thrown + unit) * E
}.

(** The widget keeps every text as it is given: after [setValue(s)] the
    full text is [s]. *)
Definition Lawful {E : Type} (api : Api E) : Prop :=
  forall (s : string) (e : E), getValue api (setValue api s e) = s.

(** The widget keeps the text [s] as it is given: after [setValue(s)] the
    full text is [s].  A widget that normalises line endings does not keep a
    text that mixes them. *)
Definition Keeps {E : Type} (api : Api E) (s : string) : Prop :=
  forall e : E, getValue api (setValue api s e) = s.

(** No operation of the widget throws. *)
Definition NeverThrows {E : Type} (api : Api E) : Prop :=
(forall n e, exists p, fst (getPositionAt api n e) = inr p)
/\ (forall e, exists p, fst (getPosition api e) = inr p)
/\ (forall e, fst (focus api e) = inr tt)
/\ (forall r e, fst (setSelection api r e) = inr tt)
/\ (forall r e, fst (revealRangeInCenter api r e) = inr tt)
/\ (forall src r t e, fst (executeEdits api src r t e) = inr tt).

End Monaco.

Module Editor.

Import Monaco.

(** The two private fields of [MonacoEditorComponent] the applier reads and
    writes. *)
Record Component (E : Type) : Type := mkComponent {
  editor : option E;
  isAnimating : bool
}.

Section Applier.

Variable E : Type.
Variable api : Api E.

(** What happens to the editor while the applier is suspended: [env k] is
    run at the [k]-th suspension.  Suspension 0 is the 300 ms pause,
    suspension 1 the 200 ms pause, suspension [2 + i] the 15 ms timer
    after the [i]-th typed unit.  The editor may be changed in any way
    but stays in place: the component is not destroyed during a run. *)
Variable env : nat -> E -> E.

(** Computations over the editor that may throw or hang. *)
Definition Task (A : Type) : Type := E -> Step A * E.

Definition ret {A : Type} (a : A) : Task A := fun e => (Done a, e).

Definition bind {A B : Type} (m : Task A) (k : A -> Task B) : Task B :=
  fun e =>
    match m e with
    | (Done a, e') => k a e'
    | (Throws err, e') => (Throws err, e')
    | (Hangs, e') => (Hangs, e')
    end.

Definition call {A : Type} (op : E -> (Thrown + A) * E) : Task A :=
  fun e =>
    match op e with
    | (inr a, e') => (Done a, e')
    | (inl err, e') => (Throws err, e')
    end.

(** [await new Promise(r => setTimeout(r, ms))] *)
Definition pause (k : nat) : Task unit := fun e => (Done tt, env k e).

Notation "x <- m ;; k" := (bind m (fun x => k))
  (at level 61, m at next level, right associativity).
Notation "m ;;; k" := (bind m (fun _ => k))
  (at level 61, right associativity).

(** One run of the closure [type] for the unit [char]. *)
Definition typeOne (char : ascii) : Task unit :=
  pos <- call (getPosition api) ;;
  call (executeEdits api "ai-type"
          (mkRange (lineNumber pos) (column pos) (lineNumber pos) (column pos))
          (String char EmptyString)).

(** [typeTextAnimated], as the runs of [type] over the units of [text]
    that are left, [i] being the index of the next one.  The first run is
    made inside the promise executor, where a throw rejects the promise;
    every later run is a timer callback, where a throw is lost and the
    promise is never resolved. *)
Fixpoint typeFrom (inExecutor : bool) (i : nat) (text : string) : Task unit :=
  match text with
  | EmptyString => ret tt
  | String char rest =>
      fun e =>
        match typeOne char e with
        | (Done _, e') => typeFrom false (S i) rest (env (2 + i) e')
        | (Throws err, e') => if inExecutor then (Throws err, e') else (Hangs, e')
        | (Hangs, e') => (Hangs, e')
        end
  end.

Definition typeTextAnimated (text : string) : Task unit := typeFrom true 0 text.

(** The body of the [try] block; [Done false] is the early [return]. *)
Definition animate (newContent : string) : Task bool :=
  fun e0 =>
    let oldContent := getValue api e0 in
    if String.eqb oldContent newContent then (Done false, e0)
    else
      let d := Diff.diff oldContent newContent in
      let prefixLen := Diff.prefixLength d in
      let suffixLen := Diff.suffixLength d in
      (startPos <- call (getPositionAt api prefixLen) ;;
       endPos <- call (getPositionAt api (String.length oldContent - suffixLen)) ;;
       let deleteRange :=
         mkRange (lineNumber startPos) (column startPos)
                 (lineNumber endPos) (column endPos) in
       let textToInsert := Diff.replacementText d in
       call (focus api) ;;;
       call (setSelection api deleteRange) ;;;
       call (revealRangeInCenter api deleteRange) ;;;
       pause 0 ;;;
       call (executeEdits api "ai-delete" deleteRange "") ;;;
       pause 1 ;;;
       typeTextAnimated textToInsert ;;;
       ret true) e0.

(** The [finally] block. *)
Definition release (newContent : string) (e : E) : Component E :=
  {| editor := Some (if String.eqb (getValue api e) newContent
                     then e else setValue api newContent e);
     isAnimating := false |}.

Definition applyChangesWithAnimation (newContent : string) (c : Component E)
  : Settlement * Component E :=
  match editor c with
  | None => (Resolved, c)
  | Some e0 =>
      match animate newContent e0 with
      | (Done _, e) => (Resolved, release newContent e)
      | (Throws err, e) => (Rejected err, release newContent e)
      | (Hangs, e) => (NeverSettles, {| editor := Some e; isAnimating := true |})
      end
  end.

End Applier.

End Editor.

(** ** A plain text buffer implementing the widget's operations

    Used to run the applier on concrete texts.  Offsets and positions are
    related through the line breaks of the text; [faultIn] makes the buffer
    throw at a chosen operation, so that the exceptional paths can be run as
    well. *)

Module PlainBuffer.

Import Monaco.

Record Buffer : Type := mkBuffer {
  text : string;
  caret : nat;
  (** [Some n]: the [n]-th fallible operation from now throws. *)
  faultIn : option nat
}.

Definition lineFeed : ascii := "010"%char.

Fixpoint positionFrom (s : string) (offset line col : nat) : Position :=
  match offset, s with
  | S offset', String c rest =>
      if Ascii.eqb c lineFeed then positionFrom rest offset' (S line) 1
      else positionFrom rest offset' line (S col)
  | _, _ => mkPosition line col
  end.

Definition positionAt (s : string) (offset : nat) : Position :=
  positionFrom s offset 1 1.

Fixpoint offsetFrom (s : string) (line col curLine curCol : nat) : nat :=
  if (line <? curLine) || ((line =? curLine) && (col <=? curCol)) then 0
  else match s with
       | EmptyString => 0
       | String c rest =>
           if Ascii.eqb c lineFeed
           then if line =? curLine then 0
                else S (offsetFrom rest line col (S curLine) 1)
           else S (offsetFrom rest line col curLine (S curCol))
       end.

Definition offsetAt (s : string) (line col : nat) : nat :=
  offsetFrom s line col 1 1.

(** Runs a fallible operation unless the fault is due. *)
Definition guarded {A : Type} (f : Buffer -> A * Buffer) (b : Buffer)
  : (Thrown + A) * Buffer :=
  match faultIn b with
  | Some O => (inl (ErrorObject "editor fault"), mkBuffer (text b) (caret b) None)
  | Some (S n) =>
      let (a, b') := f (mkBuffer (text b) (caret b) (Some n)) in (inr a, b')
  | None => let (a, b') := f b in (inr a, b')
  end.

Definition edit (r : Range) (t : string) (b : Buffer) : unit * Buffer :=
  let from := offsetAt (text b) (startLineNumber r) (startColumn r) in
  let to := offsetAt (text b) (endLineNumber r) (endColumn r) in
  (tt, mkBuffer (Diff.replaceRange (text b) from to t)
                (from + String.length t) (faultIn b)).

Definition select (r : Range) (b : Buffer) : unit * Buffer :=
  (tt, mkBuffer (text b) (offsetAt (text b) (endLineNumber r) (endColumn r))
                (faultIn b)).

Definition api : Api Buffer :=
  {| getValue := text;
     setValue := fun s b => mkBuffer s 0 (faultIn b);
     getPositionAt := fun offset => guarded (fun b => (positionAt (text b) offset, b));
     getPosition := guarded (fun b => (positionAt (text b) (caret b), b));
     focus := guarded (fun b => (tt, b));
     setSelection := fun r => guarded (select r);
     revealRangeInCenter := fun _ => guarded (fun b => (tt, b));
     executeEdits := fun _ r t => guarded (edit r t) |}.

(** Nothing else touches the buffer while the applier is suspended. *)
Definition quiet : nat -> Buffer -> Buffer := fun _ b => b.

(** Somebody types [extra] at the end of the text during the [k]-th
    suspension. *)
Definition typingAt (k : nat) (extra : string) : nat -> Buffer -> Buffer :=
  fun j b => if j =? k then mkBuffer (text b ++ extra)%string (caret b) (faultIn b) else b.

Definition fresh (s : string) : Editor.Component Buffer :=
  Editor.mkComponent (Some (mkBuffer s 0 None)) false.

Definition faulty (s : string) (n : nat) : Editor.Component Buffer :=
  Editor.mkComponent (Some (mkBuffer s 0 (Some n))) false.

End PlainBuffer.

(** ** Values crossing the frame boundary *)

Module Js.

(** The values a console call can receive, as far as serialisation tells
    them apart.  [JsCircular] stands for any object graph with a cycle,
    [JsNonFinite] for [NaN] and the infinities.  [JsError message stack] is
    an instance of [Error] whose [message] and [stack] are strings, as they
    are in an error made by the engine or by [new Error(text)]; an error
    whose [message] or [stack] has been replaced by a value of another kind
    is not among these values. *)
#[warnings="-register-all"]
Inductive JsValue : Type :=
| JsUndefined
| JsNull
| JsBool (b : bool)
| JsNumber (n : Z)
| JsNonFinite
| JsBigInt (n : Z)
| JsString (s : string)
| JsFunction
| JsError (message stack : string)
| JsArray (items : list JsValue)
| JsObject (props : list (string * JsValue))
| JsCircular.

Fixpoint lookupProp (props : list (string * JsValue)) (key : string) : JsValue :=
  match props with
  | [] => JsUndefined
  | (k, v) :: rest => if String.eqb k key then v else lookupProp rest key
  end.

(** Property read [v.key] on a value that is neither [null] nor
    [undefined]. *)
Definition getProp (v : JsValue) (key : string) : JsValue :=
  match v with
  | JsObject props => lookupProp props key
  | JsError message stack =>
      if String.eqb key "message" then JsString message
      else if String.eqb key "stack" then JsString stack
      else JsUndefined
  | _ => JsUndefined
  end.

Definition isNullish (v : JsValue) : bool :=
  match v with JsUndefined | JsNull => true | _ => false end.

(** [v === 'literal'] *)
Definition isString (v : JsValue) (literal : string) : bool :=
  match v with JsString s => String.eqb s literal | _ => false end.

(** [value.toString()] of a bigint. *)
Definition bigintToString (n : Z) : string := NilZero.string_of_int (Z.to_int n).

(** [JSON.parse(JSON.stringify(v, replacer))] with the replacer of the
    interceptor, which turns a bigint into its digits followed by [n].
    [None]: one of the two calls throws (a cycle, or nothing to parse because
    [stringify] returned [undefined]).  Inside an array a value without JSON
    form becomes [null]; inside an object its property is dropped; an error
    object has no enumerable property of its own. *)
Fixpoint stringifyParse (inside : bool) (v : JsValue) : option (option JsValue) :=
  match v with
  | JsUndefined | JsFunction => if inside then Some None else None
  | JsNull | JsNonFinite => Some (Some JsNull)
  | JsBool b => Some (Some (JsBool b))
  | JsNumber n => Some (Some (JsNumber n))
  | JsBigInt n => Some (Some (JsString (bigintToString n ++ "n")%string))
  | JsString s => Some (Some (JsString s))
  | JsError _ _ => Some (Some (JsObject []))
  | JsArray items =>
      let fix elements (l : list JsValue) : option (list JsValue) :=
        match l with
        | [] => Some []
        | x :: rest =>
            match stringifyParse true x, elements rest with
            | Some (Some y), Some ys => Some (y :: ys)
            | Some None, Some ys => Some (JsNull :: ys)
            | _, _ => None
            end
        end in
      match elements items with
      | Some ys => Some (Some (JsArray ys))
      | None => None
      end
  | JsObject props =>
      let fix members (l : list (string * JsValue)) : option (list (string * JsValue)) :=
        match l with
        | [] => Some []
        | (k, x) :: rest =>
            match stringifyParse true x, members rest with
            | Some (Some y), Some ys => Some ((k, y) :: ys)
            | Some None, Some ys => Some ys
            | _, _ => None
            end
        end in
      match members props with
      | Some ys => Some (Some (JsObject ys))
      | None => None
      end
  | JsCircular => None
  end.

End Js.

(** ** The instrumentation run inside the preview frame
    (root component, [getConsoleInterceptorScript]) *)

Module Interceptor.

Import Js.

(** The callback given to [args.map] in [postLog]. *)
Definition serializeArg (arg : JsValue) : JsValue :=
  match arg with
  | JsError message stack =>
      JsObject [("__error", JsBool true);
                ("message", JsString message);
                ("stack", JsString stack)]
  | _ =>
      match stringifyParse false arg with
      | Some (Some clone) => clone
      | _ => JsString "Unserializable Object"
      end
  end.

(** The message [postLog(type, args)] posts to the parent window; [now] is
    [new Date().toISOString()]. *)
Definition postLog (now : string) (type : string) (args : list JsValue) : JsValue :=
  let serializedArgs := map serializeArg args in
  JsObject [("type", JsString "CONSOLE_LOG");
            ("payload", JsObject [("type", JsString type);
                                  ("data", JsArray serializedArgs);
                                  ("timestamp", JsString now)])].

(** The text of the script as it is embedded in the preview document. *)
Definition getConsoleInterceptorScript : string :=
    "
      const originalConsole = { ...window.console };
      const postLog = (type, args) => {
        try {
          // Serialize arguments for posting
          const serializedArgs = args.map(arg => {
            if (arg instanceof Error) {
              return { __error: true, message: arg.message, stack: arg.stack };
            }
            try {
                // Attempt to stringify, handle circular references
                return JSON.parse(JSON.stringify(arg, (key, value) => {
                    return typeof value === 'bigint' ? value.toString() + 'n' : value;
                }));
            } catch (e) {
                return 'Unserializable Object';
            }
          });
          window.parent.postMessage({ type: 'CONSOLE_LOG', payload: { type, data: serializedArgs, timestamp: new Date().toISOString() } }, '*');
        } catch (e) {
          originalConsole.error('Error posting log to parent:', e);
        }
      };

      window.console.log = (...args) => { originalConsole.log(...args); postLog('log', args); };
      window.console.warn = (...args) => { originalConsole.warn(...args); postLog('warn', args); };
      window.console.error = (...args) => { originalConsole.error(...args); postLog('error', args); };
      window.console.info = (...args) => { originalConsole.info(...args); postLog('info', args); };
      window.console.debug = (...args) => { originalConsole.debug(...args); postLog('debug', args); };

      window.addEventListener('error', event => {
        postLog('error', [event.message]);
      });
      window.addEventListener('unhandledrejection', event => {
        postLog('error', ['Unhandled promise rejection:', event.reason]);
      });
    ".


End Interceptor.

(** ** The AI service (gemini.service.ts) *)

Module Gemini.

Record AiCodeResponse : Type := mkResponse {
  explanation : string;
  html : option string;
  css : option string;
  js : option string
}.

(** The service holds a client once a key has been set. *)
Record GeminiService : Type := mkService {
  ai : bool;
  apiKeyInternal : option string
}.

Definition MSG_NO_KEY : string :=
  "Ключ API не установлен. Пожалуйста, добавьте его в настройках.".
Definition MSG_BAD_KEY : string :=
  "Ключ API недействителен. Проверьте правильность ключа в настройках.".
Definition MSG_BAD_JSON : string :=
  "AI вернул некорректный формат данных. Попробуйте переформулировать запрос.".
Definition MSG_GENERIC : string :=
  "Произошла ошибка при обращении к AI.".

(** [handleError] never returns: the result is what it throws. *)
Definition handleError (error : Thrown) : Thrown :=
  match error with
  | ErrorObject message =>
      if JsString.includes message "API key not valid" then ErrorObject MSG_BAD_KEY
      else if JsString.includes message "JSON" then ErrorObject MSG_BAD_JSON
      else if JsString.includes message "Ключ API не установлен" then error
      else ErrorObject MSG_GENERIC
  | NotAnError => ErrorObject MSG_GENERIC
  end.

(** [getCodeModification]: [backend] is how the request to the remote model
    and the parsing of its answer end, for the prompt built from the three
    texts; every throw inside goes through [handleError]. *)
Definition getCodeModification (svc : GeminiService)
           (backend : Thrown + AiCodeResponse) : Thrown + AiCodeResponse :=
  if ai svc then
    match backend with
    | inr response => inr response
    | inl error => inl (handleError error)
    end
  else inl (handleError (ErrorObject MSG_NO_KEY)).

End Gemini.

(** ** The root component: files, tabs, console, preview, AI edits *)

Module App.

Import Js.
Import Gemini.

Record File : Type := mkFile {
  name : string;
  content : string;
  language : string
}.

(** A window of the browser, by identity. *)
Definition Window : Type := nat.

Record MessageEvent : Type := mkMessageEvent {
  source : option Window;
  data : JsValue
}.

(** The signals and view references of the component that the embedded
    methods read or write.  [rebuildPending] is the value held by the
    debounce timer between the [files] signal and [iframeSrcDoc]: every write
    to [files] restarts the timer with the new value. *)
Record AppState : Type := mkApp {
  files : list File;
  openFiles : list File;
  activeFile : option File;
  isCreatingFile : bool;
  newFileName : string;
  iframeSrcDoc : string;
  rebuildPending : option (list File);
  previewIframe_contentWindow : option Window;
  consoleLogs : list JsValue;
  aiPrompt : string;
  isAiLoading : bool;
  isAiApplyingEdits : bool;
  aiExplanation : string;
  aiError : string;
  selectedModel : string
}.

(** Writing the [files] signal also hands the new value to the debounce
    timer of the preview. *)
Definition set_files (v : list File) (s : AppState) : AppState :=
  mkApp v (openFiles s) (activeFile s) (isCreatingFile s) (newFileName s)
        (iframeSrcDoc s) (Some v) (previewIframe_contentWindow s) (consoleLogs s)
        (aiPrompt s) (isAiLoading s) (isAiApplyingEdits s) (aiExplanation s)
        (aiError s) (selectedModel s).

Definition set_openFiles (v : list File) (s : AppState) : AppState :=
  mkApp (files s) v (activeFile s) (isCreatingFile s) (newFileName s)
        (iframeSrcDoc s) (rebuildPending s) (previewIframe_contentWindow s)
        (consoleLogs s) (aiPrompt s) (isAiLoading s) (isAiApplyingEdits s)
        (aiExplanation s) (aiError s) (selectedModel s).

Definition set_activeFile (v : option File) (s : AppState) : AppState :=
  mkApp (files s) (openFiles s) v (isCreatingFile s) (newFileName s)
        (iframeSrcDoc s) (rebuildPending s) (previewIframe_contentWindow s)
        (consoleLogs s) (aiPrompt s) (isAiLoading s) (isAiApplyingEdits s)
        (aiExplanation s) (aiError s) (selectedModel s).

Definition set_isCreatingFile (v : bool) (s : AppState) : AppState :=
  mkApp (files s) (openFiles s) (activeFile s) v (newFileName s)
        (iframeSrcDoc s) (rebuildPending s) (previewIframe_contentWindow s)
        (consoleLogs s) (aiPrompt s) (isAiLoading s) (isAiApplyingEdits s)
        (aiExplanation s) (aiError s) (selectedModel s).

Definition set_newFileName (v : string) (s : AppState) : AppState :=
  mkApp (files s) (openFiles s) (activeFile s) (isCreatingFile s) v
        (iframeSrcDoc s) (rebuildPending s) (previewIframe_contentWindow s)
        (consoleLogs s) (aiPrompt s) (isAiLoading s) (isAiApplyingEdits s)
        (aiExplanation s) (aiError s) (selectedModel s).

(** The preview document is written when the debounce timer fires, which
    leaves the timer without a value. *)
Definition set_iframeSrcDoc (v : string) (s : AppState) : AppState :=
  mkApp (files s) (openFiles s) (activeFile s) (isCreatingFile s) (newFileName s)
        v None (previewIframe_contentWindow s)
        (consoleLogs s) (aiPrompt s) (isAiLoading s) (isAiApplyingEdits s)
        (aiExplanation s) (aiError s) (selectedModel s).

Definition set_consoleLogs (v : list JsValue) (s : AppState) : AppState :=
  mkApp (files s) (openFiles s) (activeFile s) (isCreatingFile s) (newFileName s)
        (iframeSrcDoc s) (rebuildPending s) (previewIframe_contentWindow s)
        v (aiPrompt s) (isAiLoading s) (isAiApplyingEdits s)
        (aiExplanation s) (aiError s) (selectedModel s).

Definition set_aiPrompt (v : string) (s : AppState) : AppState :=
  mkApp (files s) (openFiles s) (activeFile s) (isCreatingFile s) (newFileName s)
        (iframeSrcDoc s) (rebuildPending s) (previewIframe_contentWindow s)
        (consoleLogs s) v (isAiLoading s) (isAiApplyingEdits s)
        (aiExplanation s) (aiError s) (selectedModel s).

Definition set_isAiLoading (v : bool) (s : AppState) : AppState :=
  mkApp (files s) (openFiles s) (activeFile s) (isCreatingFile s) (newFileName s)
        (iframeSrcDoc s) (rebuildPending s) (previewIframe_contentWindow s)
        (consoleLogs s) (aiPrompt s) v (isAiApplyingEdits s)
        (aiExplanation s) (aiError s) (selectedModel s).

Definition set_isAiApplyingEdits (v : bool) (s : AppState) : AppState :=
  mkApp (files s) (openFiles s) (activeFile s) (isCreatingFile s) (newFileName s)
        (iframeSrcDoc s) (rebuildPending s) (previewIframe_contentWindow s)
        (consoleLogs s) (aiPrompt s) (isAiLoading s) v
        (aiExplanation s) (aiError s) (selectedModel s).

Definition set_aiExplanation (v : string) (s : AppState) : AppState :=
  mkApp (files s) (openFiles s) (activeFile s) (isCreatingFile s) (newFileName s)
        (iframeSrcDoc s) (rebuildPending s) (previewIframe_contentWindow s)
        (consoleLogs s) (aiPrompt s) (isAiLoading s) (isAiApplyingEdits s)
        v (aiError s) (selectedModel s).

Definition set_aiError (v : string) (s : AppState) : AppState :=
  mkApp (files s) (openFiles s) (activeFile s) (isCreatingFile s) (newFileName s)
        (iframeSrcDoc s) (rebuildPending s) (previewIframe_contentWindow s)
        (consoleLogs s) (aiPrompt s) (isAiLoading s) (isAiApplyingEdits s)
        (aiExplanation s) v (selectedModel s).

Definition SUPPORTED_EXTENSIONS : list string :=
  ["html"; "css"; "js"; "ts"; "json"; "md"; "scss"; "xml"; "svg"; "txt"; "yaml"].

(** [fileName.match(SUPPORTED_EXTENSIONS_REGEX)]: the name ends with a dot
    followed by one of the extensions. *)
Definition matchesSupportedExtension (fileName : string) : bool :=
  existsb (fun ext => JsString.endsWith fileName ("." ++ ext)%string)
          SUPPORTED_EXTENSIONS.

(** [SUPPORTED_EXTENSIONS.includes(language)] *)
Definition isSupported (language : string) : bool :=
  existsb (String.eqb language) SUPPORTED_EXTENSIONS.

Definition hasName (n : string) (f : File) : bool := String.eqb (name f) n.
Definition hasLanguage (l : string) (f : File) : bool := String.eqb (language f) l.

(** [findIndex]: [None] stands for -1. *)
Fixpoint findIndex {A : Type} (p : A -> bool) (l : list A) : option nat :=
  match l with
  | [] => None
  | x :: rest =>
      if p x then Some 0
      else match findIndex p rest with
           | Some i => Some (S i)
           | None => None
           end
  end.

(** *** File management *)

Definition updateFileContent (fileName newContent : string) (s : AppState) : AppState :=
  set_files
    (map (fun f => if String.eqb (name f) fileName
                   then mkFile (name f) newContent (language f) else f)
         (files s)) s.

Definition updateActiveFileContent (newContent : string) (s : AppState) : AppState :=
  match activeFile s with
  | Some active => updateFileContent (name active) newContent s
  | None => s
  end.

Definition setActiveFile (file : File) (s : AppState) : AppState :=
  let s1 := if negb (existsb (hasName (name file)) (openFiles s))
            then set_openFiles (openFiles s ++ [file]) s else s in
  set_activeFile (Some file) s1.

Definition closeFile (fileToClose : File) (s : AppState) : AppState :=
  let openFiles0 := openFiles s in
  match findIndex (hasName (name fileToClose)) openFiles0 with
  | None => s
  | Some currentIndex =>
      let newOpenFiles :=
        filter (fun f => negb (hasName (name fileToClose) f)) openFiles0 in
      let s1 :=
        match activeFile s with
        | Some active =>
            if String.eqb (name active) (name fileToClose) then
              if List.length newOpenFiles =? 0 then set_activeFile None s
              else
                let newIndex := Nat.min currentIndex (List.length newOpenFiles - 1) in
                set_activeFile (nth_error newOpenFiles newIndex) s
            else s
        | None => s
        end in
      set_openFiles newOpenFiles s1
  end.

Definition startCreatingFile (s : AppState) : AppState := set_isCreatingFile true s.

Definition cancelCreateFile (s : AppState) : AppState :=
  set_newFileName "" (set_isCreatingFile false s).

(** The two [alert] branches leave the state as it is. *)
Definition confirmCreateFile (s : AppState) : AppState :=
  let fileName := JsString.trim (newFileName s) in
  if negb (JsString.truthy fileName) then cancelCreateFile s
  else if negb (matchesSupportedExtension fileName) then s
  else if existsb (hasName fileName) (files s) then s
  else
    let language := JsString.afterLastDot fileName in
    let newFile := mkFile fileName "" language in
    cancelCreateFile (setActiveFile newFile (set_files (files s ++ [newFile]) s)).

(** [confirmed] is the answer given to the [confirm] dialog. *)
Definition deleteFile (fileToDelete : File) (confirmed : bool) (s : AppState) : AppState :=
  if negb confirmed then s
  else
    let s1 := if existsb (hasName (name fileToDelete)) (openFiles s)
              then closeFile fileToDelete s else s in
    set_files (filter (fun f => negb (hasName (name fileToDelete) f)) (files s1)) s1.

(** The [onload] callback of [handleFileUpload] for one uploaded file, read
    as [content] under the name [name]; [overwrite] is the answer to the
    [confirm] dialog shown when the name is taken. *)
Definition fileLoaded (name content : string) (overwrite : bool) (s : AppState) : AppState :=
  let taken := existsb (hasName name) (files s) in
  if taken && negb overwrite then s
  else
    let s1 := if taken
              then set_files (filter (fun f => negb (hasName name f)) (files s)) s
              else s in
    let language := JsString.afterLastDot name in
    if negb (isSupported language) then s1
    else
      let newFile := mkFile name content language in
      setActiveFile newFile (set_files (files s1 ++ [newFile]) s1).

(** *** The preview document *)

Definition iframePart0 : string :=
    "
      <html>
        <head>
          <style>".

Definition iframePart1 : string :=
    "</style>
          <script>".

Definition iframePart2 : string :=
    "</script>
        </head>
        <body>
          ".

Definition iframePart3 : string :=
    "
          <script>".

Definition iframePart4 : string :=
    "</script>
        </body>
      </html>
    ".

Definition placeholderHtml : string := "<!-- Создайте HTML файл для предпросмотра -->".

Definition contentOr (f : option File) (fallback : string) : string :=
  match f with Some file => content file | None => fallback end.

Definition buildIframeContent (files : list File) : string :=
  let htmlFile := find (hasLanguage "html") files in
  let cssFile := find (hasLanguage "css") files in
  let jsFile := find (hasLanguage "js") files in
  (iframePart0 ++ contentOr cssFile "" ++ iframePart1
   ++ Interceptor.getConsoleInterceptorScript ++ iframePart2
   ++ contentOr htmlFile placeholderHtml ++ iframePart3
   ++ contentOr jsFile "" ++ iframePart4)%string.

(** The debounce timer fires: the preview document is rebuilt from the last
    value of [files] it was given.  Without a pending value nothing
    happens. *)
Definition debounceElapsed (s : AppState) : AppState :=
  match rebuildPending s with
  | Some emitted => set_iframeSrcDoc (buildIframeContent emitted) s
  | None => s
  end.

Definition forcePreviewRefresh (s : AppState) : AppState :=
  set_consoleLogs [] (set_files (files s) s).

(** *** The console relay *)

(** The listener either returns, or throws when it destructures a message
    that is [null] or [undefined]; nothing has been written by then. *)
Definition onMessage (event : MessageEvent) (s : AppState) : Thrown + AppState :=
  if negb (match source event, previewIframe_contentWindow s with
           | Some w, Some w' => w =? w'
           | None, None => true
           | _, _ => false
           end)
  then inr s
  else if isNullish (data event) then inl (ErrorObject "TypeError")
  else
    let type := getProp (data event) "type" in
    let payload := getProp (data event) "payload" in
    if isString type "CONSOLE_LOG"
    then inr (set_consoleLogs (consoleLogs s ++ [payload]) s)
    else inr s.

(** *** The AI edit orchestration ([askAI]) *)

Record FileDiff : Type := mkFileDiff {
  fileName : string;
  after : string
}.

Definition nameOr (f : option File) (fallback : string) : string :=
  match f with Some file => name file | None => fallback end.

(** One of the three [if (response.x && response.x !== current) push]
    statements: an absent or empty text proposes nothing. *)
Definition diffFor (patch : option string) (file : option File) (fallback : string)
  : list FileDiff :=
  match patch with
  | Some text =>
      if JsString.truthy text && negb (String.eqb text (contentOr file ""))
      then [mkFileDiff (nameOr file fallback) text]
      else []
  | None => []
  end.

Definition proposedDiffs (response : AiCodeResponse) (files : list File) : list FileDiff :=
  let htmlFile := find (hasLanguage "html") files in
  let cssFile := find (hasLanguage "css") files in
  let jsFile := find (hasLanguage "js") files in
  diffFor (html response) htmlFile "index.html"
  ++ diffFor (css response) cssFile "style.css"
  ++ diffFor (js response) jsFile "script.js".

Definition noChangesNote : string :=
  String PlainBuffer.lineFeed
    (String PlainBuffer.lineFeed "(Изменений в коде не предложено)").

(** The [catch] block. *)
Definition surface (err : Thrown) (s : AppState) : AppState :=
  set_aiError (match err with
               | ErrorObject message => message
               | NotAnError => "Произошла ошибка при обращении к AI."
               end) s.

(** The four writes made before the [try] block. *)
Definition beginAsk (s : AppState) : AppState :=
  set_aiError ""
    (set_aiExplanation ""
       (set_isAiApplyingEdits false (set_isAiLoading true s))).

(** The [finally] block. *)
Definition settleFlags (s : AppState) : AppState :=
  set_isAiApplyingEdits false (set_isAiLoading false s).

(** How a call of [askAI] ends: the handler ran to its end, or it is still
    waiting for an animation that never settles. *)
Inductive AskOutcome (E : Type) : Type :=
| Finished (s : AppState) (editorComponent : option (Editor.Component E))
| Suspended (s : AppState) (editorComponent : option (Editor.Component E)).

Section Orchestrator.

Variable E : Type.
Variable api : Monaco.Api E.

(** The remote model: what the request made with the three current texts,
    the prompt and the model name ends with. *)
Variable backend : string -> string -> string -> string -> string
                   -> Thrown + AiCodeResponse.

(** What the view does to the editor component while the handler waits
    50 ms after activating the file of job [k] (the component may be swapped,
    and its buffer reloaded with the text of the new active file). *)
Variable switchEditor : nat -> option (Editor.Component E) -> option (Editor.Component E).

(** What happens to the editor during the suspensions of the animation of
    job [k]. *)
Variable env : nat -> nat -> E -> E.

(** The [for (const diff of diffs)] loop, [k] being the index of the first
    job of [diffs]. *)
Fixpoint applyDiffs (k : nat) (diffs : list FileDiff) (s : AppState)
         (ed : option (Editor.Component E))
  : Step unit * (AppState * option (Editor.Component E)) :=
  match diffs with
  | [] => (Done tt, (s, ed))
  | diff :: rest =>
      match find (hasName (fileName diff)) (files s) with
      | None => applyDiffs (S k) rest s ed
      | Some fileToUpdate =>
          let s1 := setActiveFile fileToUpdate s in
          match switchEditor k ed with
          | None =>
              applyDiffs (S k) rest (updateFileContent (fileName diff) (after diff) s1) None
          | Some component =>
              match Editor.applyChangesWithAnimation api (env k) (after diff) component with
              | (Resolved, component') =>
                  applyDiffs (S k) rest
                             (updateFileContent (fileName diff) (after diff) s1)
                             (Some component')
              | (Rejected err, component') => (Throws err, (s1, Some component'))
              | (NeverSettles, component') => (Hangs, (s1, Some component'))
              end
          end
      end
  end.

(** [askAI].  No other handler is run while this one is suspended, except
    for what [switchEditor] and [env] do to the editor. *)
Definition askAI (svc : GeminiService) (s : AppState)
           (ed : option (Editor.Component E)) : AskOutcome E :=
  if negb (JsString.truthy (JsString.trim (aiPrompt s))) then Finished s ed
  else
    let s0 := beginAsk s in
    let htmlFile := find (hasLanguage "html") (files s0) in
    let cssFile := find (hasLanguage "css") (files s0) in
    let jsFile := find (hasLanguage "js") (files s0) in
    match getCodeModification svc
            (backend (contentOr htmlFile "") (contentOr cssFile "")
                     (contentOr jsFile "") (aiPrompt s0) (selectedModel s0)) with
    | inl err => Finished (settleFlags (surface err s0)) ed
    | inr response =>
        let diffs := proposedDiffs response (files s0) in
        match diffs with
        | [] =>
            let s1 := set_aiExplanation (explanation response) s0 in
            Finished (settleFlags
                        (set_aiExplanation (aiExplanation s1 ++ noChangesNote)%string s1))
                     ed
        | _ :: _ =>
            let s1 := set_isAiApplyingEdits true (set_isAiLoading false s0) in
            match applyDiffs 0 diffs s1 ed with
            | (Done _, (s2, ed2)) =>
                Finished (settleFlags (set_aiExplanation (explanation response) s2)) ed2
            | (Throws err, (s2, ed2)) => Finished (settleFlags (surface err s2)) ed2
            | (Hangs, (s2, ed2)) => Suspended s2 ed2
            end
        end
    end.

End Orchestrator.

(** The files [loadFilesFromStorage] returns when nothing usable is
    stored. *)
Definition dq : string := String (ascii_of_nat 34) EmptyString.

Definition defaultHtml : File :=
  mkFile "index.html" ("<h1>Привет, Мир!</h1>
<p>Это ваш живой редактор кода.</p>
<button onclick=" ++ dq ++ "logSomething()" ++ dq ++ ">Нажми меня</button>")%string "html".

Definition defaultCss : File :=
  mkFile "style.css" ("body { 
  font-family: sans-serif;
  background: #ffffff;
  padding: 1rem;
}")%string "css".

Definition defaultJs : File :=
  mkFile "script.js" ("console.log('Скрипт загружен!');

function logSomething() {
  console.log('Кнопка была нажата в', new Date().toLocaleTimeString());
  console.warn('Это предупреждение.');
  console.error('А это — ошибка!');
}")%string "js".

Definition defaultFiles : list File := [defaultHtml; defaultCss; defaultJs].

(** The state the field initialisers build from a stored file list, with
    the frame of the preview being the window [frame]. *)
Definition initialState (stored : list File) (frame : Window) : AppState :=
  let openFiles0 :=
    filter (fun f => existsb (String.eqb (name f)) ["index.html"; "style.css"; "script.js"])
           stored in
  {| files := stored;
     openFiles := openFiles0;
     activeFile := nth_error openFiles0 0;
     isCreatingFile := false;
     newFileName := "";
     iframeSrcDoc := buildIframeContent stored;
     rebuildPending := Some stored;
     previewIframe_contentWindow := Some frame;
     consoleLogs := [];
     aiPrompt := "";
     isAiLoading := false;
     isAiApplyingEdits := false;
     aiExplanation := "";
     aiError := "";
     selectedModel := "gemini-2.5-flash" |}.

(** *** The file-management operations and the state invariant *)

(** What the user can do to the files.  A file is activated from the
    explorer, which lists the collection, or from a tab, which lists the
    open files; a tab is closed from the tab bar. *)
Inductive FileOp : Type :=
| ActivateFromExplorer (i : nat)
| ActivateTab (i : nat)
| CloseTab (i : nat)
| TypeNewFileName (text : string)
| StartCreatingFile
| CancelCreateFile
| ConfirmCreateFile
| Upload (name content : string) (overwrite : bool)
| DeleteFile (file : File) (confirmed : bool)
| EditContent (fileName newContent : string)
| EditActiveContent (newContent : string).

Definition run (op : FileOp) (s : AppState) : AppState :=
  match op with
  | ActivateFromExplorer i =>
      match nth_error (files s) i with Some f => setActiveFile f s | None => s end
  | ActivateTab i =>
      match nth_error (openFiles s) i with Some f => setActiveFile f s | None => s end
  | CloseTab i =>
      match nth_error (openFiles s) i with Some f => closeFile f s | None => s end
  | TypeNewFileName text => set_newFileName text s
  | StartCreatingFile => startCreatingFile s
  | CancelCreateFile => cancelCreateFile s
  | ConfirmCreateFile => confirmCreateFile s
  | Upload name content overwrite => fileLoaded name content overwrite s
  | DeleteFile file confirmed => deleteFile file confirmed s
  | EditContent fileName newContent => updateFileContent fileName newContent s
  | EditActiveContent newContent => updateActiveFileContent newContent s
  end.

(** A file of this name is in the list. *)
Definition nameIn (n : string) (l : list File) : bool := existsb (hasName n) l.

(** Every open file names a file of the collection. *)
Definition openFilesExist (s : AppState) : bool :=
  forallb (fun f => nameIn (name f) (files s)) (openFiles s).

(** The active file is null or names an open file. *)
Definition activeFileOpen (s : AppState) : bool :=
  match activeFile s with
  | Some active => nameIn (name active) (openFiles s)
  | None => true
  end.

(** Every file of the collection has a name that creation and upload accept:
    what follows its last dot is a supported extension. *)
Definition namesSupported (s : AppState) : bool :=
  forallb (fun f => isSupported (JsString.afterLastDot (name f))) (files s).

Definition wellFormed (s : AppState) : bool :=
  openFilesExist s && activeFileOpen s && namesSupported s.

(** The invariant of the tabs: every open file names a file of the
    collection, and the active file is null or names an open file. *)
Definition tabsConsistent (s : AppState) : bool :=
  openFilesExist s && activeFileOpen s.

(** The operation is an upload that is confirmed to overwrite a file of the
    collection whose name has no supported extension. *)
Definition overwritesUnsupported (op : FileOp) (s : AppState) : bool :=
  match op with
  | Upload name _ true =>
      nameIn name (files s) && negb (isSupported (JsString.afterLastDot name))
  | _ => false
  end.

(** The states the file management can reach from the start. *)
Inductive Reachable (stored : list File) (frame : Window) : AppState -> Prop :=
| reach_start : Reachable stored frame (initialState stored frame)
| reach_step (s : AppState) (op : FileOp) :
    Reachable stored frame s -> Reachable stored frame (run op s).

End App.

(** ** A plain buffer that never throws *)

Module SteadyBuffer.

Import Monaco.

(** The text and the caret of a [PlainBuffer] without a fault. *)
Definition Buffer : Type := (string * nat)%type.

Definition lift {A : Type} (op : PlainBuffer.Buffer -> (Thrown + A) * PlainBuffer.Buffer)
  : Buffer -> (Thrown + A) * Buffer :=
  fun b =>
    let (r, b') := op (PlainBuffer.mkBuffer (fst b) (snd b) None) in
    (r, (PlainBuffer.text b', PlainBuffer.caret b')).

Definition api : Api Buffer :=
  {| getValue := fst;
     setValue := fun s _ => (s, 0);
     getPositionAt := fun offset => lift (getPositionAt PlainBuffer.api offset);
     getPosition := lift (getPosition PlainBuffer.api);
     focus := lift (focus PlainBuffer.api);
     setSelection := fun r => lift (setSelection PlainBuffer.api r);
     revealRangeInCenter := fun r => lift (revealRangeInCenter PlainBuffer.api r);
     executeEdits := fun src r t => lift (executeEdits PlainBuffer.api src r t) |}.

Definition quiet : nat -> Buffer -> Buffer := fun _ b => b.

End SteadyBuffer.

(** ** A buffer that normalises line endings

    The widget stores a text with one end-of-line sequence: a text that
    mixes sequences is normalised when it enters the buffer, so what
    [getValue] returns need not be what [setValue] was given.  This buffer
    keeps the line feed as its sequence, the one the widget chooses for a
    text in which not more than half of the breaks have a carriage return:
    [CR LF] and a lone [CR] become [LF], in [setValue] and in the text of an
    edit.  No operation throws. *)

Module LfBuffer.

Import Monaco.

Definition carriageReturn : ascii := "013"%char.

(** [text.replace(/\r\n|\r|\n/g, '\n')] *)
Fixpoint normalise (s : string) : string :=
  match s with
  | EmptyString => EmptyString
  | String c rest =>
      if Ascii.eqb c carriageReturn then
        match rest with
        | String c' rest' =>
            if Ascii.eqb c' PlainBuffer.lineFeed
            then String PlainBuffer.lineFeed (normalise rest')
            else String PlainBuffer.lineFeed (normalise rest)
        | EmptyString => String PlainBuffer.lineFeed EmptyString
        end
      else String c (normalise rest)
  end.

Definition Buffer : Type := SteadyBuffer.Buffer.

Definition api : Api Buffer :=
  {| getValue := getValue SteadyBuffer.api;
     setValue := fun s => setValue SteadyBuffer.api (normalise s);
     getPositionAt := getPositionAt SteadyBuffer.api;
     getPosition := getPosition SteadyBuffer.api;
     focus := focus SteadyBuffer.api;
     setSelection := setSelection SteadyBuffer.api;
     revealRangeInCenter := revealRangeInCenter SteadyBuffer.api;
     executeEdits := fun src r t => executeEdits SteadyBuffer.api src r (normalise t) |}.

Definition quiet : nat -> Buffer -> Buffer := fun _ b => b.

(** A text with a [CR LF] break and a bare [LF] break. *)
Definition mixedBreaks : string :=
  String "a" (String carriageReturn (String PlainBuffer.lineFeed
    (String "b" (String PlainBuffer.lineFeed (String "c" EmptyString))))).

End LfBuffer.

(** ** The editor component and its parent: the [content] input and the
    [contentChange] output (monaco-editor.component.ts, the first [effect]
    of the constructor and the listener set in [initEditor]) *)

Module EditorSync.

Import Monaco.

Section Sync.

Variable E : Type.
Variable api : Api E.

(** The view state of the widget (cursor, scroll position). *)
Variable V : Type.
Variable saveViewState : E -> option V.
Variable restoreViewState : V -> E -> E.

(** The listener of [onDidChangeContent], run by the widget after a change
    of the text; [content] is the value of the input at that time.  The
    result is what is emitted on [contentChange]. *)
Definition changeListener (content : string) (c : Editor.Component E) : list string :=
  if Editor.isAnimating c then []
  else match Editor.editor c with
       | Some e =>
           let currentContent := getValue api e in
           if String.eqb currentContent content then [] else [currentContent]
       | None => []
       end.

(** The effect that follows the [content] input, run with its new value.
    [model.setValue] changes the text, so the widget runs the listener
    before the view state is restored. *)
Definition contentEffect (newContent : string) (c : Editor.Component E)
  : Editor.Component E * list string :=
  match Editor.editor c with
  | Some e =>
      if negb (Editor.isAnimating c) && negb (String.eqb (getValue api e) newContent)
      then
        let state := saveViewState e in
        let e1 := setValue api newContent e in
        let emitted :=
          changeListener newContent (Editor.mkComponent (Some e1) (Editor.isAnimating c)) in
        let e2 := match state with
                  | Some st => restoreViewState st e1
                  | None => e1
                  end in
        (Editor.mkComponent (Some e2) (Editor.isAnimating c), emitted)
      else (c, [])
  | None => (c, [])
  end.

End Sync.

End EditorSync.

(** ** Plain data *)

Module JsonData.

Import Js.

(** The values JSON can carry: null, booleans, numbers, strings, and arrays
    and objects of such values. *)
Fixpoint plain (v : JsValue) : bool :=
  match v with
  | JsNull | JsBool _ | JsNumber _ | JsString _ => true
  | JsArray items =>
      (fix all (l : list JsValue) : bool :=
         match l with
         | [] => true
         | x :: rest => plain x && all rest
         end) items
  | JsObject props =>
      (fix all (l : list (string * JsValue)) : bool :=
         match l with
         | [] => true
         | (_, x) :: rest => plain x && all rest
         end) props
  | _ => false
  end.

End JsonData.

(** ** The console view (console.component.ts) *)

Module Console.

Import Js.

(** Truthiness.  [JsNonFinite] stands for [NaN], which is falsy, and for the
    infinities, which are truthy; it is taken as falsy here, which makes no
    difference below, a number having no property [__error]. *)
Definition truthy (v : JsValue) : bool :=
  match v with
  | JsUndefined | JsNull | JsNonFinite => false
  | JsBool b => b
  | JsNumber n => negb (Z.eqb n 0)
  | JsBigInt n => negb (Z.eqb n 0)
  | JsString s => JsString.truthy s
  | _ => true
  end.

(** [parts.join(sep)] on strings. *)
Fixpoint join (sep : string) (parts : list string) : string :=
  match parts with
  | [] => ""
  | [p] => p
  | p :: rest => (p ++ sep ++ join sep rest)%string
  end.

Section FormatLog.

(** [JSON.stringify(arg, null, 2)]: the text, or [undefined] ([None]) when
    the value has no JSON form. *)
Variable stringify : JsValue -> option string.

(** The text [join] turns an element into when it is neither a string nor
    [null] nor [undefined]. *)
Variable toText : JsValue -> string.

(** The callback given to [data.map] in [formatLog]. *)
Definition formatArg (arg : JsValue) : JsValue :=
  match arg with
  | JsString _ => arg
  | _ =>
      if truthy arg && truthy (getProp arg "__error") then getProp arg "message"
      else match stringify arg with
           | Some text => JsString text
           | None => JsUndefined
           end
  end.

(** How [join] reads one element. *)
Definition joinElement (v : JsValue) : string :=
  match v with
  | JsString s => s
  | JsUndefined | JsNull => ""
  | _ => toText v
  end.

Definition formatLog (data : list JsValue) : string :=
  join " " (map (fun arg => joinElement (formatArg arg)) data).

End FormatLog.

End Console.

(** ** Messages arriving one after the other *)

Module Relay.

Import App.

(** The listener run on each message in turn; a run that throws leaves the
    state as it was. *)
Definition deliver (events : list MessageEvent) (s : AppState) : AppState :=
  fold_left (fun st event =>
               match onMessage event st with
               | inr st' => st'
               | inl _ => st
               end) events s.

(** The message comes from the given window. *)
Definition fromWindow (w : option Window) (event : MessageEvent) : bool :=
  match source event, w with
  | Some a, Some b => a =? b
  | None, None => true
  | _, _ => false
  end.

End Relay.

(** ** The AI service: the key and the other calls (gemini.service.ts) *)

Module GeminiKeys.

Import Gemini.

Section Keys.

(** Whether [new GoogleGenAI({ apiKey: key })] returns a client. *)
Variable construct : string -> bool.

(** [key !== this.apiKeyInternal] is false only for the stored key. *)
Definition isStoredKey (key : string) (stored : option string) : bool :=
  match stored with
  | Some k => String.eqb key k
  | None => false
  end.

Definition setApiKey (key : string) (svc : GeminiService) : GeminiService :=
  if JsString.truthy key && JsString.truthy (JsString.trim key)
     && negb (isStoredKey key (apiKeyInternal svc))
  then mkService (construct key) (Some key)
  else if negb (JsString.truthy key) || negb (JsString.truthy (JsString.trim key))
  then mkService false None
  else svc.

End Keys.

(** [getGenericCodeAnalysis]: [backend] is how the request ends, with the
    text of the answer. *)
Definition getGenericCodeAnalysis (svc : GeminiService) (backend : Thrown + string)
  : Thrown + string :=
  if ai svc then
    match backend with
    | inr text => inr (JsString.trim text)
    | inl error => inl (handleError error)
    end
  else inl (handleError (ErrorObject MSG_NO_KEY)).

(** [analyzeImage] *)
Definition analyzeImage (svc : GeminiService) (backend : Thrown + string)
  : Thrown + string :=
  if ai svc then
    match backend with
    | inr text => inr text
    | inl error => inl (handleError error)
    end
  else inl (handleError (ErrorObject MSG_NO_KEY)).

Record GroundingChunk : Type := mkChunk { uri : string; title : string }.

Record GroundedResponse : Type := mkGrounded {
  text : string;
  chunks : list GroundingChunk
}.

(** [getGroundedResponse]: the answer carries its text and, when the first
    candidate has grounding metadata with chunks, those chunks. *)
Definition getGroundedResponse (svc : GeminiService)
           (backend : Thrown + (string * option (list GroundingChunk)))
  : Thrown + GroundedResponse :=
  if ai svc then
    match backend with
    | inr (t, found) =>
        inr (mkGrounded t (match found with Some l => l | None => [] end))
    | inl error => inl (handleError error)
    end
  else inl (handleError (ErrorObject MSG_NO_KEY)).

End GeminiKeys.

(** ** Persistence (root component, [saveToStorage], [loadFromStorage],
    [loadFilesFromStorage]) *)

Module Storage.

(** The local storage of the browser: its entries, at most one per key, and
    whether access to it is denied, in which case every operation throws. *)
Record LocalStorage : Type := mkStorage {
  entries : list (string * string);
  denied : bool
}.

Fixpoint lookup (key : string) (l : list (string * string)) : option string :=
  match l with
  | [] => None
  | (k, v) :: rest => if String.eqb k key then Some v else lookup key rest
  end.

Fixpoint put (key value : string) (l : list (string * string)) : list (string * string) :=
  match l with
  | [] => [(key, value)]
  | (k, v) :: rest =>
      if String.eqb k key then (k, value) :: rest else (k, v) :: put key value rest
  end.

Definition drop (key : string) (l : list (string * string)) : list (string * string) :=
  filter (fun kv => negb (String.eqb (fst kv) key)) l.

Definition accessDenied : Thrown := ErrorObject "SecurityError".

Definition getItem (key : string) (st : LocalStorage) : Thrown + option string :=
  if denied st then inl accessDenied else inr (lookup key (entries st)).

(** What the entries take, in code units of their keys and values. *)
Definition used (l : list (string * string)) : nat :=
  fold_right (fun kv n => String.length (fst kv) + String.length (snd kv) + n) 0 l.

Definition quotaExceeded : Thrown := ErrorObject "QuotaExceededError".

(** [quota] is what the browser lets the origin store: a write that would
    take more throws, while reads and removals still work. *)
Definition setItem (quota : nat) (key value : string) (st : LocalStorage)
  : Thrown + LocalStorage :=
  if denied st then inl accessDenied
  else
    let written := put key value (entries st) in
    if quota <? used written then inl quotaExceeded
    else inr (mkStorage written false).

Definition removeItem (key : string) (st : LocalStorage) : Thrown + LocalStorage :=
  if denied st then inl accessDenied
  else inr (mkStorage (drop key (entries st)) false).

Definition saveToStorage (quota : nat) (key value : string) (st : LocalStorage)
  : LocalStorage :=
  match setItem quota key value st with
  | inr st' => st'
  | inl _ => st
  end.

Section Load.

Variable T : Type.

(** [JSON.parse(value) as T]; [None] when it throws. *)
Variable parse : string -> option T.

(** The inner [try] of the [catch] block. *)
Definition discard (key : string) (st : LocalStorage) : LocalStorage :=
  match removeItem key st with
  | inr st' => st'
  | inl _ => st
  end.

Definition loadFromStorage (key : string) (defaultValue : T) (st : LocalStorage)
  : T * LocalStorage :=
  match getItem key st with
  | inr (Some value) =>
      if JsString.truthy value then
        match parse value with
        | Some v => (v, st)
        | None => (defaultValue, discard key st)
        end
      else (defaultValue, st)
  | inr None => (defaultValue, st)
  | inl _ => (defaultValue, discard key st)
  end.

End Load.

Definition STORAGE_PREFIX : string := "ai-code-editor-v2-".
Definition FILES_STORAGE_KEY : string := (STORAGE_PREFIX ++ "files")%string.
Definition THEME_STORAGE_KEY : string := (STORAGE_PREFIX ++ "theme")%string.
Definition API_KEY_STORAGE_KEY : string := (STORAGE_PREFIX ++ "api-key")%string.

(** [loadFilesFromStorage]: the read is outside the [try], so a denied
    storage makes it throw; a stored text that does not parse is left where
    it is and the default files are returned. *)
Definition loadFilesFromStorage (parse : string -> option (list App.File))
           (st : LocalStorage) : Thrown + list App.File :=
  match getItem FILES_STORAGE_KEY st with
  | inl err => inl err
  | inr (Some storedFiles) =>
      if JsString.truthy storedFiles then
        match parse storedFiles with
        | Some parsed => inr parsed
        | None => inr App.defaultFiles
        end
      else inr App.defaultFiles
  | inr None => inr App.defaultFiles
  end.

End Storage.

(** ** The AI actions of the editor's context menu (root component,
    [runAiContextMenuAction], [setActiveAiView]) *)

Module Ui.

Import App.
Import Gemini.

Inductive AiContextMenuAction : Type := explain | bugs | refactor | comment.

(** The signals and fields of the component these handlers use besides
    those of [AppState]. *)
Record UiState : Type := mkUi {
  isContextMenuVisible : bool;
  contextMenuPosition : Z * Z;
  contextMenuSelection : string;
  isAiPaneVisible : bool;
  activeAiView : string
}.

Definition setActiveAiView (view : string) (ui : UiState) : UiState :=
  mkUi (isContextMenuVisible ui) (contextMenuPosition ui) (contextMenuSelection ui)
       true view.

(** [a || b] on strings. *)
Definition orElse (a b : string) : string := if JsString.truthy a then a else b.

Definition taskDescription (action : AiContextMenuAction) : string :=
  match action with
  | explain => "Объясни следующий фрагмент кода"
  | bugs => "Найди потенциальные баги в этом коде"
  | refactor => "Сделай рефакторинг или улучши этот код"
  | comment => "Добавь комментарии к этому коду"
  end.

Definition lf : string := String PlainBuffer.lineFeed EmptyString.

(** The prompt shown for the action: the task, then the code in a fence
    tagged with the language. *)
Definition promptFor (action : AiContextMenuAction) (language code : string) : string :=
  (taskDescription action ++ ":" ++ lf ++ "```" ++ language ++ lf
   ++ code ++ lf ++ "```")%string.

(** [runAiContextMenuAction]: [backend] is how the request made for the
    code, the language and the action ends.  No other handler is run while
    this one waits. *)
Definition runAiContextMenuAction (svc : GeminiService)
           (backend : string -> string -> AiContextMenuAction -> Thrown + string)
           (action : AiContextMenuAction) (ui : UiState) (s : AppState)
  : UiState * AppState :=
  let ui1 := mkUi false (contextMenuPosition ui) (contextMenuSelection ui)
                  (isAiPaneVisible ui) (activeAiView ui) in
  let code := contextMenuSelection ui1 in
  if negb (JsString.truthy code) then (ui1, s)
  else
    let language :=
      orElse (match activeFile s with Some f => language f | None => "" end) "code" in
    let ui2 := setActiveAiView "ai" ui1 in
    let s1 := set_aiError ""
                (set_aiExplanation ""
                   (set_isAiLoading true
                      (set_aiPrompt (promptFor action language code) s))) in
    match GeminiKeys.getGenericCodeAnalysis svc (backend code language action) with
    | inr response => (ui2, set_isAiLoading false (set_aiExplanation response s1))
    | inl err => (ui2, set_isAiLoading false (surface err s1))
    end.

End Ui.

(** ** Readings of the orchestration's results *)

Module Outcome.

Import App.

(** The state a call of [askAI] leaves, finished or not. *)
Definition stateOf {E : Type} (o : AskOutcome E) : AppState :=
  match o with
  | Finished s _ => s
  | Suspended s _ => s
  end.

(** The collection after the commit of one job: what [updateFileContent]
    does to [files]. *)
Definition commit (fs : list File) (diff : FileDiff) : list File :=
  map (fun f => if String.eqb (name f) (fileName diff)
                then mkFile (name f) (after diff) (language f) else f) fs.

(** Edits of contents made one after the other, each given by the name of
    the file and its new content. *)
Definition editAll (edits : list (string * string)) (s : AppState) : AppState :=
  fold_left (fun st edit => updateFileContent (fst edit) (snd edit) st) edits s.

End Outcome.

(** ** The preview over time (root component, [iframeSrcDoc])

    [debounceTime(300)] stands between the [files] signal and the preview
    document: it passes a value of [files] on when 300 ms have gone by
    without a newer one, and a newer value restarts the wait. *)

Module Preview.

Import App.

Definition DEBOUNCE_MS : nat := 300.

(** The root component with the clock of the page (in milliseconds), the
    time at which the timer of the debounce fires (if it is running), and the
    number of times the preview document has been rebuilt so far. *)
Record Timed : Type := mkTimed {
  app : AppState;
  clock : nat;
  due : option nat;
  rebuilds : nat
}.

(** Time passes until [t]; the timer fires if it is due by then. *)
Definition elapse (t : nat) (w : Timed) : Timed :=
  let t' := Nat.max t (clock w) in
  match due w with
  | Some d =>
      if d <=? t' then mkTimed (debounceElapsed (app w)) t' None (S (rebuilds w))
      else mkTimed (app w) t' (Some d) (rebuilds w)
  | None => mkTimed (app w) t' None (rebuilds w)
  end.

(** A content edit made at time [t]: the new value of [files] restarts the
    wait. *)
Definition editAt (t : nat) (fileName newContent : string) (w : Timed) : Timed :=
  let w1 := elapse t w in
  mkTimed (updateFileContent fileName newContent (app w1)) (clock w1)
          (Some (clock w1 + DEBOUNCE_MS)) (rebuilds w1).

Record TimedEdit : Type := mkTimedEdit {
  time : nat;
  target : string;
  newText : string
}.

Definition play (timeline : list TimedEdit) (w : Timed) : Timed :=
  fold_left (fun st e => editAt (time e) (target e) (newText e) st) timeline w.

(** The edits of a timeline without their times. *)
Definition contents (timeline : list TimedEdit) : list (string * string) :=
  map (fun e => (target e, newText e)) timeline.

(** The times do not go back, [prev] being the time before the first. *)
Fixpoint inOrder (prev : nat) (times : list nat) : bool :=
  match times with
  | [] => true
  | t :: rest => (prev <=? t) && inOrder t rest
  end.

(** How many of the times come at least the debounce time after the time
    before them. *)
Fixpoint pauses (prev : nat) (times : list nat) : nat :=
  match times with
  | [] => 0
  | t :: rest => (if prev + DEBOUNCE_MS <=? t then 1 else 0) + pauses t rest
  end.

End Preview.

(** ** The image analyzer component *)

Module ImageAnalyzer.

(** The signals of the component. *)
Record State : Type := mkState {
  prompt : string;
  isLoading : bool;
  result : string;
  error : string;
  uploadedImage : option string;
  imageMimeType : option string
}.

(** A file chosen in the file input: its MIME type and the data URL that
    reading it produces. *)
Record SelectedFile : Type := mkSelected {
  type : string;
  dataUrl : string
}.

(** [s.split(',')] *)
Fixpoint splitAtCommas (s : string) : list string :=
  match s with
  | EmptyString => [EmptyString]
  | String c rest =>
      if Ascii.eqb c ","
      then EmptyString :: splitAtCommas rest
      else match splitAtCommas rest with
           | piece :: pieces => String c piece :: pieces
           | [] => [String c EmptyString]
           end
  end.

(** [onFileSelected], up to the start of the read: nothing is done without
    a file; a file that is not an image only sets the error. *)
Definition onFileSelected (files : list SelectedFile) (st : State) : State :=
  match files with
  | [] => st
  | file :: _ =>
      if negb (String.prefix "image/" (type file))
      then mkState (prompt st) (isLoading st) (result st)
                   "Пожалуйста, выберите файл изображения."
                   (uploadedImage st) (imageMimeType st)
      else mkState (prompt st) (isLoading st) (result st) ""
                   (uploadedImage st) (Some (type file))
  end.

(** The [onload] callback of the reader: the second piece of the data URL
    becomes the uploaded image ([undefined] when there is no comma). *)
Definition imageLoaded (file : SelectedFile) (st : State) : State :=
  mkState (prompt st) (isLoading st) (result st) (error st)
          (nth_error (splitAtCommas (dataUrl file)) 1) (imageMimeType st).

(** Truthiness of a signal holding a string or nothing. *)
Definition present (v : option string) : bool :=
  match v with
  | Some text => JsString.truthy text
  | None => false
  end.

(** [analyze]: [backend] is how the request made with the image, its type
    and the prompt ends. *)
Definition analyze (svc : Gemini.GeminiService)
           (backend : string -> string -> string -> Thrown + string)
           (st : State) : State :=
  match uploadedImage st, imageMimeType st with
  | Some image, Some mimeType =>
      if negb (JsString.truthy image) || negb (JsString.truthy mimeType)
         || negb (JsString.truthy (JsString.trim (prompt st)))
      then st
      else
        match GeminiKeys.analyzeImage svc (backend image mimeType (prompt st)) with
        | inr response =>
            mkState (prompt st) false response "" (uploadedImage st) (imageMimeType st)
        | inl err =>
            mkState (prompt st) false ""
                    (match err with
                     | ErrorObject message => message
                     | NotAnError => "Произошла неизвестная ошибка."
                     end)
                    (uploadedImage st) (imageMimeType st)
        end
  | _, _ => st
  end.

End ImageAnalyzer.

(** * Properties *)

(** ** Strings *)

Lemma get_none_iff (s : string) (n : nat) :
  String.get n s = None <-> String.length s <= n.
Proof.
  revert n; induction s as [|c s IH]; intros [|n]; simpl; try (split; [lia | reflexivity]).
  - split; [discriminate | lia].
  - rewrite IH; lia.
Qed.

Lemma charAt_eqb_eq (a b : option ascii) :
  JsString.charAt_eqb a b = true <-> a = b.
Proof.
  destruct a as [x|], b as [y|]; simpl; try (split; congruence).
  rewrite Ascii.eqb_eq; split; congruence.
Qed.

Lemma substring_ext (s1 s2 : string) (a b m : nat) :
  (forall i, i < m -> String.get (i + a) s1 = String.get (i + b) s2) ->
  String.substring a m s1 = String.substring b m s2.
Proof.
  intros H; apply String.get_correct; intros n.
  destruct (Nat.lt_ge_cases n m) as [Hlt|Hge].
  - rewrite !String.substring_correct1 by assumption; auto.
  - rewrite !String.substring_correct2 by assumption; reflexivity.
Qed.

Lemma substring_split (s : string) (a m1 m2 : nat) :
  String.substring a (m1 + m2) s
  = (String.substring a m1 s ++ String.substring (a + m1) m2 s)%string.
Proof.
  revert a m1; induction s as [|c s IH]; intros a m1.
  - destruct a, m1, m2; reflexivity.
  - destruct a as [|a].
    + destruct m1 as [|m1]; simpl.
      * reflexivity.
      * f_equal. apply (IH 0 m1).
    + simpl. apply IH.
Qed.

Lemma substring_all (s : string) : String.substring 0 (String.length s) s = s.
Proof. induction s as [|c s IH]; simpl; [reflexivity | now rewrite IH]. Qed.

Lemma js_substring_in_range (s : string) (a b : nat) :
  a <= b -> b <= String.length s ->
  JsString.substring s a b = String.substring a (b - a) s.
Proof.
  intros Hab Hb; unfold JsString.substring.
  rewrite (Nat.min_l a) by lia. rewrite (Nat.min_l b) by lia.
  rewrite Nat.min_l, Nat.max_r by lia. reflexivity.
Qed.

(** Three consecutive pieces of a string make the string. *)
Lemma three_pieces (s : string) (p q : nat) :
  p + q <= String.length s ->
  s = (String.substring 0 p s
       ++ String.substring p (String.length s - q - p) s
       ++ String.substring (String.length s - q) q s)%string.
Proof.
  intros H.
  rewrite <- (substring_all s) at 1.
  replace (String.length s) with (p + ((String.length s - q - p) + q)) at 1 by lia.
  rewrite substring_split, substring_split; simpl.
  replace (p + (String.length s - q - p)) with (String.length s - q) by lia.
  reflexivity.
Qed.

(** ** The diff *)

Section DiffFacts.

Variables oldContent newContent : string.

Let lo := String.length oldContent.
Let ln := String.length newContent.

Lemma prefixGuard_true (p : nat) :
  Diff.prefixGuard oldContent newContent p = true ->
  p < lo /\ p < ln /\ String.get p oldContent = String.get p newContent.
Proof.
  unfold Diff.prefixGuard; rewrite !andb_true_iff, !Nat.ltb_lt, charAt_eqb_eq.
  unfold JsString.charAt; tauto.
Qed.

Lemma prefixLoop_spec (fuel p0 : nat) :
  p0 <= lo -> p0 <= ln ->
  (forall i, i < p0 -> String.get i oldContent = String.get i newContent) ->
  let p := Diff.prefixLoop fuel oldContent newContent p0 in
  p <= lo /\ p <= ln
  /\ (forall i, i < p -> String.get i oldContent = String.get i newContent)
  /\ (lo <= p0 + fuel -> Diff.prefixGuard oldContent newContent p = false).
Proof.
  revert p0; induction fuel as [|fuel IH]; intros p0 Ho Hn Heq; simpl.
  - repeat split; auto. intros Hfuel.
    unfold Diff.prefixGuard.
    replace (p0 <? String.length oldContent) with false; [reflexivity|].
    symmetry; apply Nat.ltb_ge; fold lo; lia.
  - destruct (Diff.prefixGuard oldContent newContent p0) eqn:G.
    + apply prefixGuard_true in G; destruct G as (G1 & G2 & G3).
      destruct (IH (S p0)) as (A & B & C & D); try lia.
      * intros i Hi. destruct (Nat.eq_dec i p0) as [->|]; [assumption | apply Heq; lia].
      * repeat split; auto. intros; apply D; lia.
    + repeat split; auto.
Qed.

Lemma suffixGuard_true (p q : nat) :
  Diff.suffixGuard oldContent newContent p q = true ->
  q < lo - p /\ q < ln - p
  /\ String.get (lo - 1 - q) oldContent = String.get (ln - 1 - q) newContent.
Proof.
  unfold Diff.suffixGuard; rewrite !andb_true_iff, !Nat.ltb_lt, charAt_eqb_eq.
  unfold JsString.charAt; tauto.
Qed.

Lemma suffixLoop_spec (fuel p q0 : nat) :
  q0 <= lo - p -> q0 <= ln - p ->
  (forall j, j < q0 ->
     String.get (lo - 1 - j) oldContent = String.get (ln - 1 - j) newContent) ->
  let q := Diff.suffixLoop fuel oldContent newContent p q0 in
  q <= lo - p /\ q <= ln - p
  /\ (forall j, j < q ->
        String.get (lo - 1 - j) oldContent = String.get (ln - 1 - j) newContent)
  /\ (lo <= q0 + fuel -> Diff.suffixGuard oldContent newContent p q = false).
Proof.
  revert q0; induction fuel as [|fuel IH]; intros q0 Ho Hn Heq; simpl.
  - repeat split; auto. intros Hfuel.
    unfold Diff.suffixGuard.
    replace (q0 <? String.length oldContent - p) with false; [reflexivity|].
    symmetry; apply Nat.ltb_ge; fold lo; lia.
  - destruct (Diff.suffixGuard oldContent newContent p q0) eqn:G.
    + apply suffixGuard_true in G; destruct G as (G1 & G2 & G3).
      destruct (IH (S q0)) as (A & B & C & D); try lia.
      * intros j Hj. destruct (Nat.eq_dec j q0) as [->|]; [assumption | apply Heq; lia].
      * repeat split; auto. intros; apply D; lia.
    + repeat split; auto.
Qed.

(** The first loop of the model leaves by its guard, not by lack of
    unrollings. *)
Lemma prefixLoop_exits :
  Diff.prefixGuard oldContent newContent (Diff.commonPrefix oldContent newContent) = false.
Proof.
  unfold Diff.commonPrefix.
  destruct (prefixLoop_spec lo (p0 := 0)) as (_ & _ & _ & D); try lia.
  apply D; lia.
Qed.

Lemma commonPrefix_spec :
  let p := Diff.commonPrefix oldContent newContent in
  p <= lo /\ p <= ln
  /\ (forall i, i < p -> String.get i oldContent = String.get i newContent).
Proof.
  unfold Diff.commonPrefix.
  destruct (prefixLoop_spec lo (p0 := 0)) as (A & B & C & _); try lia.
  repeat split; auto.
Qed.

(** So does the second loop. *)
Lemma suffixLoop_exits (p : nat) :
  Diff.suffixGuard oldContent newContent p (Diff.commonSuffix oldContent newContent p) = false.
Proof.
  unfold Diff.commonSuffix.
  destruct (suffixLoop_spec lo p (q0 := 0)) as (_ & _ & _ & D); try lia.
  apply D; lia.
Qed.

Lemma commonSuffix_spec (p : nat) :
  let q := Diff.commonSuffix oldContent newContent p in
  q <= lo - p /\ q <= ln - p
  /\ (forall j, j < q ->
        String.get (lo - 1 - j) oldContent = String.get (ln - 1 - j) newContent).
Proof.
  unfold Diff.commonSuffix.
  destruct (suffixLoop_spec lo p (q0 := 0)) as (A & B & C & _); try lia.
  repeat split; auto.
Qed.

End DiffFacts.

(** The diffs of the texts used as examples: a changed tail, a repeated
    pattern where the two scans must not overlap, a changed middle, equal
    texts, and an empty side. *)
Example diff_hello : Diff.diff "hello world" "hello there" = Diff.mkDiff 6 0 "there".
Proof. reflexivity. Qed.

Example diff_overlap : Diff.diff "aaa" "aa" = Diff.mkDiff 2 0 "".
Proof. reflexivity. Qed.

Example diff_middle : Diff.diff "abcXYZdef" "abc123def" = Diff.mkDiff 3 3 "123".
Proof. reflexivity. Qed.

Example diff_same : Diff.diff "xyz" "xyz" = Diff.mkDiff 3 0 "".
Proof. reflexivity. Qed.

Example diff_from_empty : Diff.diff "" "xyz" = Diff.mkDiff 0 0 "xyz".
Proof. reflexivity. Qed.

Example diff_to_empty : Diff.diff "xyz" "" = Diff.mkDiff 0 0 "".
Proof. reflexivity. Qed.

(** C1. For all texts [oldContent] and [newContent], the prefix and suffix
    lengths computed by the patch engine add up to at most the shorter
    length, and replacing the middle segment of [oldContent] (from the
    prefix length up to its length minus the suffix length) by the
    replacement text yields exactly [newContent]. *)
Theorem diff_reconstructs_new (oldContent newContent : string) :
  let d := Diff.diff oldContent newContent in
  Diff.prefixLength d + Diff.suffixLength d
    <= Nat.min (String.length oldContent) (String.length newContent)
  /\ Diff.replacementText d
     = JsString.substring newContent (Diff.prefixLength d)
                          (String.length newContent - Diff.suffixLength d)
  /\ Diff.applyDiff oldContent d = newContent.
Proof.
  cbv zeta.
  unfold Diff.applyDiff, Diff.replaceRange, Diff.diff; simpl.
  set (p := Diff.commonPrefix oldContent newContent).
  set (q := Diff.commonSuffix oldContent newContent p).
  destruct (commonPrefix_spec oldContent newContent) as (P1 & P2 & P3); fold p in P1, P2, P3.
  destruct (commonSuffix_spec oldContent newContent p) as (Q1 & Q2 & Q3); fold q in Q1, Q2, Q3.
  split; [lia|]. split; [reflexivity|].
  rewrite !js_substring_in_range by lia.
  rewrite Nat.sub_0_r.
  etransitivity; [| symmetry; apply (three_pieces newContent p q); lia].
  f_equal; [| f_equal].
  - apply substring_ext; intros i Hi. rewrite !Nat.add_0_r. apply P3; exact Hi.
  - replace (String.length oldContent - (String.length oldContent - q)) with q by lia.
    apply substring_ext; intros i Hi.
    specialize (Q3 (q - 1 - i) ltac:(lia)).
    replace (i + (String.length oldContent - q))
      with (String.length oldContent - 1 - (q - 1 - i)) by lia.
    replace (i + (String.length newContent - q))
      with (String.length newContent - 1 - (q - 1 - i)) by lia.
    exact Q3.
Qed.

(** ** The animated patch applier *)

Section ApplierFacts.

Variable E : Type.
Variable api : Monaco.Api E.
Variable env : nat -> E -> E.

(** The [finally] block clears the flag and leaves the target text in the
    buffer, whatever the buffer held. *)
Lemma release_spec (newContent : string) (e : E) :
  Monaco.Lawful api ->
  Editor.isAnimating (Editor.release api newContent e) = false
  /\ exists e', Editor.editor (Editor.release api newContent e) = Some e'
                /\ Monaco.getValue api e' = newContent.
Proof.
  intros law; split; [reflexivity|].
  unfold Editor.release; simpl.
  destruct (String.eqb (Monaco.getValue api e) newContent) eqn:Q.
  - exists e; split; [reflexivity | now apply String.eqb_eq].
  - eexists; split; [reflexivity | apply law].
Qed.

Lemma typeFrom_done (text : string) :
  Monaco.NeverThrows api ->
  forall inExecutor i e, fst (Editor.typeFrom api env inExecutor i text e) = Done tt.
Proof.
  intros (_ & Hpos & _ & _ & _ & Hedit).
  induction text as [|c rest IH]; intros inExecutor i e; simpl; [reflexivity|].
  unfold Editor.typeOne, Editor.bind, Editor.call.
  destruct (Hpos e) as [p Hp].
  destruct (Monaco.getPosition api e) as [r1 e1]; simpl in Hp; subst r1.
  match goal with |- context [Monaco.executeEdits api ?a ?b ?c0 ?d] =>
    pose proof (Hedit a b c0 d) as He;
    destruct (Monaco.executeEdits api a b c0 d) as [r2 e2] end.
  simpl in He; subst r2. apply IH.
Qed.

(** When no operation throws, the applier runs to its end: the promise is
    resolved. *)
Lemma applier_resolves (newContent : string) (c : Editor.Component E) :
  Monaco.NeverThrows api ->
  fst (Editor.applyChangesWithAnimation api env newContent c) = Resolved.
Proof.
  intros NT. pose proof NT as (Hat & _ & Hfocus & Hsel & Hrev & Hedit).
  unfold Editor.applyChangesWithAnimation.
  destruct (Editor.editor c) as [e0|]; [|reflexivity].
  assert (H : exists b e, Editor.animate api env newContent e0 = (Done b, e)).
  { unfold Editor.animate.
    destruct (String.eqb (Monaco.getValue api e0) newContent); [eauto|].
    unfold Editor.bind, Editor.call, Editor.pause, Editor.ret, Editor.typeTextAnimated.
    repeat match goal with
    | |- context [Monaco.getPositionAt api ?n ?e] =>
        let p := fresh "p" in let Hp := fresh "Hp" in
        destruct (Hat n e) as [p Hp];
        destruct (Monaco.getPositionAt api n e) as [? ?]; simpl in Hp; subst
    | |- context [Monaco.focus api ?e] =>
        let Hp := fresh "Hp" in
        pose proof (Hfocus e) as Hp;
        destruct (Monaco.focus api e) as [? ?]; simpl in Hp; subst
    | |- context [Monaco.setSelection api ?r ?e] =>
        let Hp := fresh "Hp" in
        pose proof (Hsel r e) as Hp;
        destruct (Monaco.setSelection api r e) as [? ?]; simpl in Hp; subst
    | |- context [Monaco.revealRangeInCenter api ?r ?e] =>
        let Hp := fresh "Hp" in
        pose proof (Hrev r e) as Hp;
        destruct (Monaco.revealRangeInCenter api r e) as [? ?]; simpl in Hp; subst
    | |- context [Monaco.executeEdits api ?a ?r ?t ?e] =>
        let Hp := fresh "Hp" in
        pose proof (Hedit a r t e) as Hp;
        destruct (Monaco.executeEdits api a r t e) as [? ?]; simpl in Hp; subst
    end.
    match goal with |- context [Editor.typeFrom api env ?b ?i ?t ?e] =>
      pose proof (typeFrom_done t NT b i e) as Ht;
      destruct (Editor.typeFrom api env b i t e) as [? ?] end.
    simpl in Ht; subst. eauto. }
  destruct H as (b & e & ->). reflexivity.
Qed.

End ApplierFacts.

(** Runs of the applier on the plain buffer: nothing throws and the typed
    text lands where the diff says; a timer callback throws and the promise
    never settles, the flag staying up. *)
Example applier_types_the_tail :
  Editor.applyChangesWithAnimation PlainBuffer.api PlainBuffer.quiet "hello there"
                                   (PlainBuffer.fresh "hello world")
  = (Resolved, Editor.mkComponent (Some (PlainBuffer.mkBuffer "hello there" 11 None)) false).
Proof. reflexivity. Qed.

Example applier_hangs_in_timer :
  Editor.applyChangesWithAnimation PlainBuffer.api PlainBuffer.quiet "hello there"
                                   (PlainBuffer.faulty "hello world" 9)
  = (NeverSettles, Editor.mkComponent (Some (PlainBuffer.mkBuffer "hello t" 7 None)) true).
Proof. reflexivity. Qed.

(** What the [finally] block leaves: the flag is down, and the buffer holds
    the target text or has just been given it by [setValue]. *)
Lemma release_cases
  (E : Type) (api : Monaco.Api E) (newContent : string) (e : E) :
  Editor.isAnimating (Editor.release api newContent e) = false
  /\ exists e', Editor.editor (Editor.release api newContent e) = Some e'
                /\ (Monaco.getValue api e' = newContent
                    \/ exists e1, e' = Monaco.setValue api newContent e1).
Proof.
  split; [reflexivity|]. unfold Editor.release; simpl.
  destruct (String.eqb (Monaco.getValue api e) newContent) eqn:Q.
  - exists e. split; [reflexivity|]. left. now apply String.eqb_eq.
  - eexists. split; [reflexivity|]. right. exists e. reflexivity.
Qed.

(** C2, amended. Given an editor ([editor] is set), whatever the buffer
    holds, whatever the target text, whichever operations of the widget throw
    and whatever is done to the buffer while the applier is suspended: when
    the promise returned by [applyChangesWithAnimation] settles (resolved or
    rejected), [isAnimating] is false, and the buffer holds the target text
    or is the result of [setValue] of the target text; hence its full text is
    the target text provided the widget keeps that text as it is given
    ([getValue] after [setValue] of the target returns the target). *)
Theorem applier_settles_released
  (E : Type) (api : Monaco.Api E) (env : nat -> E -> E)
  (newContent : string) (e0 : E) (flag : bool)
  (outcome : Settlement) (c' : Editor.Component E) :
  Editor.applyChangesWithAnimation api env newContent (Editor.mkComponent (Some e0) flag)
    = (outcome, c') ->
  settles outcome = true ->
  Editor.isAnimating c' = false
  /\ exists e', Editor.editor c' = Some e'
       /\ (Monaco.getValue api e' = newContent
           \/ exists e1, e' = Monaco.setValue api newContent e1)
       /\ (Monaco.Keeps api newContent -> Monaco.getValue api e' = newContent).
Proof.
  intros Hrun Hset.
  unfold Editor.applyChangesWithAnimation in Hrun; simpl in Hrun.
  assert (Hrel : forall e, c' = Editor.release api newContent e ->
    Editor.isAnimating c' = false
    /\ exists e', Editor.editor c' = Some e'
         /\ (Monaco.getValue api e' = newContent
             \/ exists e1, e' = Monaco.setValue api newContent e1)
         /\ (Monaco.Keeps api newContent -> Monaco.getValue api e' = newContent)).
  { intros e ->. destruct (release_cases api newContent e) as (Hflag & e' & He & Hcase).
    split; [exact Hflag|]. exists e'. split; [exact He|]. split; [exact Hcase|].
    intros keeps. destruct Hcase as [Hv|(e1 & ->)]; [exact Hv | apply keeps]. }
  destruct (Editor.animate api env newContent e0) as [[b|err|] e];
    inversion Hrun; subst; clear Hrun.
  - now apply (Hrel e).
  - now apply (Hrel e).
  - discriminate.
Qed.

(** The delete step throws and somebody has typed into the buffer in the
    meantime: the promise is rejected, and the buffer holds the target. *)
Lemma applier_settles_released_witness :
  let run := Editor.applyChangesWithAnimation PlainBuffer.api
               (PlainBuffer.typingAt 0 "?!") "hello there"
               (PlainBuffer.faulty "hello world" 5) in
  fst run = Rejected (ErrorObject "editor fault")
  /\ Editor.isAnimating (snd run) = false
  /\ exists e', Editor.editor (snd run) = Some e'
                /\ PlainBuffer.text e' = "hello there".
Proof.
  cbv zeta. split; [reflexivity|].
  destruct (@applier_settles_released _ PlainBuffer.api (PlainBuffer.typingAt 0 "?!")
              "hello there" (PlainBuffer.mkBuffer "hello world" 0 (Some 5)) false
              (Rejected (ErrorObject "editor fault")) _ eq_refl eq_refl)
    as (Hflag & e' & He & _ & Hkept).
  split; [exact Hflag|]. exists e'. split; [exact He|].
  apply Hkept. intros e; reflexivity.
Defined.

(** C2, as stated, fails with a widget that normalises line endings, as the
    one the component loads does: the target has a [CR LF] break and a bare
    [LF] break, nothing throws and nobody touches the buffer; the promise is
    resolved and the flag is down, but the buffer holds the target with its
    breaks normalised, which is not the target. *)
Lemma applier_leaves_normalised_text :
  let normalised :=
    String "a" (String PlainBuffer.lineFeed
      (String "b" (String PlainBuffer.lineFeed (String "c" EmptyString)))) in
  Editor.applyChangesWithAnimation LfBuffer.api LfBuffer.quiet
    LfBuffer.mixedBreaks (Editor.mkComponent (Some ("begin", 0)) false)
  = (Resolved, Editor.mkComponent (Some (normalised, 0)) false)
  /\ Monaco.getValue LfBuffer.api (normalised, 0) = normalised
  /\ normalised <> LfBuffer.mixedBreaks.
Proof.
  cbv zeta. split; [vm_compute; reflexivity|]. split; [reflexivity|].
  intros H. vm_compute in H. discriminate H.
Qed.

(** ** The console relay *)

Lemma sameWindow_spec (a b : option App.Window) :
  match a, b with
  | Some w, Some w' => w =? w'
  | None, None => true
  | _, _ => false
  end = true <-> a = b.
Proof.
  destruct a as [w|], b as [w'|]; try (split; congruence).
  rewrite Nat.eqb_eq; split; congruence.
Qed.

(** C3. A message whose source is the content window of the preview frame
    and whose data carries the kind CONSOLE_LOG makes the listener append
    exactly one entry, the payload of the message, to the log store; a
    message from any other source leaves the whole state, the log store
    included, as it was. *)
Theorem onMessage_relays_only_frame (event : App.MessageEvent) (s : App.AppState) :
  (App.source event = App.previewIframe_contentWindow s ->
   Js.isString (Js.getProp (App.data event) "type") "CONSOLE_LOG" = true ->
   exists s', App.onMessage event s = inr s'
              /\ App.consoleLogs s'
                 = App.consoleLogs s ++ [Js.getProp (App.data event) "payload"]
              /\ List.length (App.consoleLogs s') = S (List.length (App.consoleLogs s)))
  /\ (App.source event <> App.previewIframe_contentWindow s ->
      App.onMessage event s = inr s).
Proof.
  unfold App.onMessage. split.
  - intros Hsrc Hkind.
    apply sameWindow_spec in Hsrc. rewrite Hsrc; simpl.
    assert (Hn : Js.isNullish (App.data event) = false).
    { destruct (App.data event); try reflexivity; discriminate Hkind. }
    rewrite Hn, Hkind. eexists; split; [reflexivity|]. simpl.
    split; [reflexivity|]. rewrite length_app; simpl; lia.
  - intros Hsrc.
    destruct (match App.source event, App.previewIframe_contentWindow s with
              | Some w, Some w' => w =? w'
              | None, None => true
              | _, _ => false
              end) eqn:Q; [|reflexivity].
    apply sameWindow_spec in Q. contradiction.
Qed.

(** The message posted by a call of [console.warn("x")] inside the frame
    adds one entry of type warn when it comes from the frame (window 7), and
    nothing when the same data comes from window 8. *)
Lemma onMessage_relays_only_frame_witness :
  let s := App.initialState App.defaultFiles 7 in
  let msg := Interceptor.postLog "2024-01-01T00:00:00Z" "warn" [Js.JsString "x"] in
  (exists s', App.onMessage (App.mkMessageEvent (Some 7) msg) s = inr s'
              /\ App.consoleLogs s' = [Js.getProp msg "payload"]
              /\ Js.getProp (Js.getProp msg "payload") "type" = Js.JsString "warn")
  /\ App.onMessage (App.mkMessageEvent (Some 8) msg) s = inr s.
Proof.
  cbv zeta.
  pose proof (onMessage_relays_only_frame
                (App.mkMessageEvent (Some 7)
                   (Interceptor.postLog "2024-01-01T00:00:00Z" "warn" [Js.JsString "x"]))
                (App.initialState App.defaultFiles 7)) as [Hin _].
  pose proof (onMessage_relays_only_frame
                (App.mkMessageEvent (Some 8)
                   (Interceptor.postLog "2024-01-01T00:00:00Z" "warn" [Js.JsString "x"]))
                (App.initialState App.defaultFiles 7)) as [_ Hout].
  split.
  - destruct (Hin eq_refl eq_refl) as (s' & Hs & Hlogs & _).
    exists s'. repeat split; [exact Hs | exact Hlogs].
  - apply Hout. simpl. discriminate.
Defined.

Example serializeArg_examples :
  Interceptor.serializeArg
    (Js.JsArray [Js.JsNumber 1; Js.JsUndefined; Js.JsBigInt 12;
                 Js.JsObject [("a", Js.JsFunction); ("b", Js.JsError "m" "s")]])
  = Js.JsArray [Js.JsNumber 1; Js.JsNull; Js.JsString "12n";
                Js.JsObject [("b", Js.JsObject [])]]
  /\ Interceptor.serializeArg Js.JsUndefined = Js.JsString "Unserializable Object"
  /\ Interceptor.serializeArg (Js.JsArray [Js.JsCircular])
     = Js.JsString "Unserializable Object".
Proof. repeat split. Qed.

(** C7. Every argument of a wrapped console call that is an instance of
    Error is serialised to the object made of the error flag set to true, the
    message and the stack of that error, in this order and with nothing
    else. *)
Theorem serializeArg_error (now type : string) (args : list Js.JsValue)
        (i : nat) (message stack : string) :
  Interceptor.serializeArg (Js.JsError message stack)
  = Js.JsObject [("__error", Js.JsBool true);
                 ("message", Js.JsString message);
                 ("stack", Js.JsString stack)]
  /\ (nth_error args i = Some (Js.JsError message stack) ->
      exists data,
        Js.getProp (Js.getProp (Interceptor.postLog now type args) "payload") "data"
        = Js.JsArray data
        /\ nth_error data i
           = Some (Js.JsObject [("__error", Js.JsBool true);
                                ("message", Js.JsString message);
                                ("stack", Js.JsString stack)])).
Proof.
  split; [reflexivity|].
  intros H. eexists; split; [reflexivity|].
  rewrite nth_error_map, H. reflexivity.
Qed.

Lemma serializeArg_error_witness :
  exists data,
    Js.getProp (Js.getProp (Interceptor.postLog "t" "error"
                              [Js.JsString "failed:"; Js.JsError "boom" "at f (x.js:1)"])
                           "payload") "data"
    = Js.JsArray data
    /\ nth_error data 1
       = Some (Js.JsObject [("__error", Js.JsBool true);
                            ("message", Js.JsString "boom");
                            ("stack", Js.JsString "at f (x.js:1)")]).
Proof.
  apply (proj2 (serializeArg_error "t" "error"
                  [Js.JsString "failed:"; Js.JsError "boom" "at f (x.js:1)"] 1
                  "boom" "at f (x.js:1)")).
  reflexivity.
Defined.

(** ** File management *)

(** C10. [updateFileContent] rewrites the file collection only: each file
    keeps its place, name and language; a file with another name is the same
    record as before, a file with the given name gets the new content; and
    the open files and the active file are the same records as before, with
    the content they had. *)
Theorem updateFileContent_frame (fileName newContent : string) (s : App.AppState) :
  let s' := App.updateFileContent fileName newContent s in
  App.openFiles s' = App.openFiles s
  /\ App.activeFile s' = App.activeFile s
  /\ List.length (App.files s') = List.length (App.files s)
  /\ forall i f, nth_error (App.files s) i = Some f ->
       nth_error (App.files s') i
       = Some (if String.eqb (App.name f) fileName
               then App.mkFile (App.name f) newContent (App.language f)
               else f).
Proof.
  cbv zeta; unfold App.updateFileContent; simpl.
  repeat split.
  - apply length_map.
  - intros i f H. rewrite nth_error_map, H. reflexivity.
Qed.

(** After an edit of the open and active style sheet the collection holds
    the new text while the tab and the active file still hold the old one. *)
Lemma updateFileContent_frame_witness :
  let s := App.initialState App.defaultFiles 7 in
  let s' := App.updateFileContent "index.html" "<p>new</p>" s in
  nth_error (App.files s') 0 = Some (App.mkFile "index.html" "<p>new</p>" "html")
  /\ App.activeFile s' = nth_error App.defaultFiles 0
  /\ nth_error (App.openFiles s') 0 = nth_error App.defaultFiles 0.
Proof.
  cbv zeta.
  destruct (updateFileContent_frame "index.html" "<p>new</p>"
              (App.initialState App.defaultFiles 7)) as (Ho & Ha & _ & Hf).
  split; [| split].
  - rewrite (Hf 0 _ eq_refl). reflexivity.
  - rewrite Ha. reflexivity.
  - rewrite Ho. reflexivity.
Defined.

(** ** The preview and the log store *)

(** C8, as the code has it. The explicit refresh empties the log store and
    hands the unchanged file list to the debounce timer; the rebuild of the
    preview document when the timer fires, and the edit of a file that
    started the timer, leave the log store as it was. *)
Theorem logs_cleared_by_refresh_only (s : App.AppState) :
  App.consoleLogs (App.forcePreviewRefresh s) = []
  /\ App.files (App.forcePreviewRefresh s) = App.files s
  /\ App.rebuildPending (App.forcePreviewRefresh s) = Some (App.files s)
  /\ App.consoleLogs (App.debounceElapsed s) = App.consoleLogs s
  /\ forall fileName newContent,
       App.consoleLogs (App.updateFileContent fileName newContent s) = App.consoleLogs s.
Proof.
  repeat split.
  unfold App.debounceElapsed. destruct (App.rebuildPending s); reflexivity.
Qed.

(** C8, as stated, fails: with one entry in the log store, an edit of the
    style sheet followed by the debounced rebuild gives a new preview
    document while the entry of the previous execution is still there. *)
Lemma debounced_rebuild_keeps_logs :
  let s0 := App.set_consoleLogs [Js.JsString "old entry"]
              (App.debounceElapsed (App.initialState App.defaultFiles 7)) in
  let s1 := App.updateFileContent "style.css" "p { color: red; }" s0 in
  let s2 := App.debounceElapsed s1 in
  App.iframeSrcDoc s2 = App.buildIframeContent (App.files s1)
  /\ App.iframeSrcDoc s2 <> App.iframeSrcDoc s0
  /\ App.consoleLogs s2 = [Js.JsString "old entry"]
  /\ App.consoleLogs s2 <> [].
Proof.
  cbv zeta. split; [reflexivity|]. split.
  - apply String.eqb_neq. vm_compute. reflexivity.
  - split; [reflexivity | discriminate].
Qed.

(** ** The AI edit orchestration *)

Lemma handleError_message (error : Thrown) :
  exists message, Gemini.handleError error = ErrorObject message /\ message <> "".
Proof.
  destruct error as [message|]; simpl.
  - destruct (JsString.includes message "API key not valid");
      [eexists; split; [reflexivity | discriminate]|].
    destruct (JsString.includes message "JSON");
      [eexists; split; [reflexivity | discriminate]|].
    destruct (JsString.includes message "Ключ API не установлен") eqn:Q;
      [| eexists; split; [reflexivity | discriminate]].
    exists message; split; [reflexivity|].
    destruct message; [discriminate Q | discriminate].
  - eexists; split; [reflexivity | discriminate].
Qed.

Lemma getCodeModification_throws (svc : Gemini.GeminiService)
      (backend : Thrown + Gemini.AiCodeResponse) (err : Thrown) :
  Gemini.getCodeModification svc backend = inl err ->
  exists message, err = ErrorObject message /\ message <> "".
Proof.
  unfold Gemini.getCodeModification.
  destruct (Gemini.ai svc); [destruct backend as [error|response]|]; intros H;
    try discriminate H.
  - injection H as <-. apply handleError_message.
  - destruct (handleError_message (ErrorObject Gemini.MSG_NO_KEY)) as (m & Hm & Hne).
    exists m. split; [congruence | exact Hne].
Qed.

(** C4. When [getCodeModification] throws, [askAI] ends with the file
    collection, the open files, the active file, the pending rebuild and the
    editor component exactly as they were (no file touched, no animation
    started), and with one error message, not empty, in [aiError], no
    explanation, and both progress flags down. *)
Theorem askAI_backend_failure
  (E : Type) (api : Monaco.Api E)
  (backend : string -> string -> string -> string -> string
             -> Thrown + Gemini.AiCodeResponse)
  (switchEditor : nat -> option (Editor.Component E) -> option (Editor.Component E))
  (env : nat -> nat -> E -> E)
  (svc : Gemini.GeminiService) (s : App.AppState)
  (ed : option (Editor.Component E)) (err : Thrown) :
  JsString.truthy (JsString.trim (App.aiPrompt s)) = true ->
  Gemini.getCodeModification svc
    (backend (App.contentOr (find (App.hasLanguage "html") (App.files s)) "")
             (App.contentOr (find (App.hasLanguage "css") (App.files s)) "")
             (App.contentOr (find (App.hasLanguage "js") (App.files s)) "")
             (App.aiPrompt s) (App.selectedModel s)) = inl err ->
  exists s' message,
    App.askAI api backend switchEditor env svc s ed = App.Finished s' ed
    /\ App.files s' = App.files s
    /\ App.openFiles s' = App.openFiles s
    /\ App.activeFile s' = App.activeFile s
    /\ App.rebuildPending s' = App.rebuildPending s
    /\ err = ErrorObject message /\ message <> ""
    /\ App.aiError s' = message
    /\ App.aiExplanation s' = ""
    /\ App.isAiLoading s' = false
    /\ App.isAiApplyingEdits s' = false.
Proof.
  intros Hprompt Hcall.
  destruct (getCodeModification_throws _ _ Hcall) as (message & -> & Hne).
  unfold App.askAI. rewrite Hprompt; simpl. rewrite Hcall.
  eexists; exists message. repeat split; assumption.
Qed.

(** The remote service rejects the key: one message, nothing touched. *)
Lemma askAI_backend_failure_witness :
  let s := App.set_aiPrompt "make it blue" (App.initialState App.defaultFiles 7) in
  let backend := fun _ _ _ _ _ : string =>
                   inl (ErrorObject "400: API key not valid.") : Thrown + Gemini.AiCodeResponse in
  exists s',
    App.askAI PlainBuffer.api backend (fun _ ed => ed) (fun _ => PlainBuffer.quiet)
              (Gemini.mkService true (Some "k")) s (Some (PlainBuffer.fresh "x"))
    = App.Finished s' (Some (PlainBuffer.fresh "x"))
    /\ App.files s' = App.defaultFiles
    /\ App.aiError s' = Gemini.MSG_BAD_KEY.
Proof.
  cbv zeta.
  destruct (@askAI_backend_failure _ PlainBuffer.api
              (fun _ _ _ _ _ : string =>
                 inl (ErrorObject "400: API key not valid.") : Thrown + Gemini.AiCodeResponse)
              (fun _ ed => ed) (fun _ => PlainBuffer.quiet)
              (Gemini.mkService true (Some "k"))
              (App.set_aiPrompt "make it blue" (App.initialState App.defaultFiles 7))
              (Some (PlainBuffer.fresh "x"))
              (ErrorObject Gemini.MSG_BAD_KEY) eq_refl eq_refl)
    as (s' & message & Hrun & Hfiles & _ & _ & _ & Hmsg & _ & Herr & _).
  exists s'. split; [exact Hrun|]. split; [exact Hfiles|].
  rewrite Herr. inversion Hmsg. reflexivity.
Defined.

Lemma names_unique (l : list App.File) (f g : App.File) :
  NoDup (map App.name l) -> In f l -> In g l -> App.name f = App.name g -> f = g.
Proof.
  induction l as [|x l IH]; simpl; intros ND Hf Hg Hn; [contradiction|].
  inversion ND as [|? ? Hx ND']; subst.
  destruct Hf as [->|Hf], Hg as [->|Hg]; auto.
  - exfalso; apply Hx. rewrite Hn. now apply in_map.
  - exfalso; apply Hx. rewrite <- Hn. now apply in_map.
Qed.

Lemma hasName_true (n : string) (f : App.File) :
  App.hasName n f = true <-> App.name f = n.
Proof. unfold App.hasName. apply String.eqb_eq. Qed.

Lemma hasLanguage_true (l : string) (f : App.File) :
  App.hasLanguage l f = true <-> App.language f = l.
Proof. unfold App.hasLanguage. apply String.eqb_eq. Qed.

Lemma find_hasName_unique (l : list App.File) (f : App.File) :
  NoDup (map App.name l) -> In f l -> find (App.hasName (App.name f)) l = Some f.
Proof.
  intros ND Hf.
  destruct (find (App.hasName (App.name f)) l) as [g|] eqn:Q.
  - apply find_some in Q. destruct Q as [Hg Hn]. apply hasName_true in Hn.
    f_equal. now apply (names_unique l).
  - exfalso. apply (find_none _ _ Q) in Hf.
    unfold App.hasName in Hf. rewrite String.eqb_refl in Hf. discriminate.
Qed.

(** The rewriting of the collection done by [updateFileContent]. *)
Lemma files_updateFileContent (n c : string) (s : App.AppState) :
  App.files (App.updateFileContent n c s)
  = map (fun f => if String.eqb (App.name f) n
                  then App.mkFile (App.name f) c (App.language f) else f)
        (App.files s).
Proof. reflexivity. Qed.

Lemma files_setActiveFile (f : App.File) (s : App.AppState) :
  App.files (App.setActiveFile f s) = App.files s.
Proof.
  unfold App.setActiveFile.
  destruct (negb (existsb (App.hasName (App.name f)) (App.openFiles s))); reflexivity.
Qed.

Lemma find_hasName_updated (n c : string) (l : list App.File) (f : App.File) :
  find (App.hasName n) l = Some f ->
  find (App.hasName n)
       (map (fun f => if String.eqb (App.name f) n
                      then App.mkFile (App.name f) c (App.language f) else f) l)
  = Some (App.mkFile (App.name f) c (App.language f)).
Proof.
  induction l as [|x l IH]; simpl; [discriminate|].
  unfold App.hasName at 1 3.
  destruct (String.eqb (App.name x) n) eqn:Q; simpl.
  - rewrite Q. intros H; inversion H; subst. reflexivity.
  - unfold App.hasName at 1. rewrite Q. exact IH.
Qed.

Lemma find_hasLanguage_updated (n c lang : string) (l : list App.File) :
  (forall f, In f l -> App.name f = n -> App.hasLanguage lang f = false) ->
  find (App.hasLanguage lang)
       (map (fun f => if String.eqb (App.name f) n
                      then App.mkFile (App.name f) c (App.language f) else f) l)
  = find (App.hasLanguage lang) l.
Proof.
  induction l as [|x l IH]; simpl; intros H; [reflexivity|].
  destruct (String.eqb (App.name x) n) eqn:Q.
  - apply String.eqb_eq in Q.
    pose proof (H x (or_introl eq_refl) Q) as Hx.
    unfold App.hasLanguage in *; simpl. rewrite Hx. apply IH; auto.
  - destruct (App.hasLanguage lang x); [reflexivity | apply IH; auto].
Qed.

Section OrchestratorFacts.

Variable E : Type.
Variable api : Monaco.Api E.
Variable backend : string -> string -> string -> string -> string
                   -> Thrown + Gemini.AiCodeResponse.
Variable switchEditor : nat -> option (Editor.Component E) -> option (Editor.Component E).
Variable env : nat -> nat -> E -> E.

(** The jobs run one after the other: the loop over [l1 ++ l2] is the loop
    over [l1], followed by the loop over [l2] when the first ends
    normally. *)
Lemma applyDiffs_app (l1 l2 : list App.FileDiff) :
  forall k s ed,
    App.applyDiffs api switchEditor env k (l1 ++ l2) s ed
    = match App.applyDiffs api switchEditor env k l1 s ed with
      | (Done _, (s1, ed1)) =>
          App.applyDiffs api switchEditor env (k + List.length l1) l2 s1 ed1
      | other => other
      end.
Proof.
  induction l1 as [|d l1 IH]; intros k s ed; simpl.
  - now rewrite Nat.add_0_r.
  - replace (k + S (List.length l1)) with (S k + List.length l1) by lia.
    destruct (find (App.hasName (App.fileName d)) (App.files s)) as [f|]; [|apply IH].
    destruct (switchEditor k ed) as [component|]; [|apply IH].
    destruct (Editor.applyChangesWithAnimation api (env k) (App.after d) component)
      as [[|err|] component']; [apply IH | reflexivity | reflexivity].
Qed.


(** C5, amended. When the only patch of the proposal is a css text that is
    not empty and differs from the content of the css file, the names of the
    collection are pairwise distinct, and the animation of that text is
    resolved (or there is no editor component): [askAI] queues exactly one
    job, for the css file; afterwards the css file holds the proposed text,
    every other file of the collection is the record it was, and so the html
    file and the js file are unchanged; no error is reported. *)
Theorem askAI_css_only
  (svc : Gemini.GeminiService) (s : App.AppState)
  (ed : option (Editor.Component E))
  (response : Gemini.AiCodeResponse) (cssFile : App.File) (c : string) :
  JsString.truthy (JsString.trim (App.aiPrompt s)) = true ->
  Gemini.getCodeModification svc
    (backend (App.contentOr (find (App.hasLanguage "html") (App.files s)) "")
             (App.contentOr (find (App.hasLanguage "css") (App.files s)) "")
             (App.contentOr (find (App.hasLanguage "js") (App.files s)) "")
             (App.aiPrompt s) (App.selectedModel s)) = inr response ->
  Gemini.html response = None ->
  Gemini.js response = None ->
  Gemini.css response = Some c ->
  find (App.hasLanguage "css") (App.files s) = Some cssFile ->
  c <> App.content cssFile ->
  c <> "" ->
  NoDup (map App.name (App.files s)) ->
  (forall component,
      switchEditor 0 ed = Some component ->
      fst (Editor.applyChangesWithAnimation api (env 0) c component) = Resolved) ->
  exists s' ed',
    App.askAI api backend switchEditor env svc s ed = App.Finished s' ed'
    /\ App.proposedDiffs response (App.files s) = [App.mkFileDiff (App.name cssFile) c]
    /\ find (App.hasName (App.name cssFile)) (App.files s')
       = Some (App.mkFile (App.name cssFile) c (App.language cssFile))
    /\ (forall i f, nth_error (App.files s) i = Some f -> f <> cssFile ->
                    nth_error (App.files s') i = Some f)
    /\ find (App.hasLanguage "html") (App.files s')
       = find (App.hasLanguage "html") (App.files s)
    /\ find (App.hasLanguage "js") (App.files s')
       = find (App.hasLanguage "js") (App.files s)
    /\ App.aiError s' = "".
Proof.
  intros Hprompt Hcall Hhtml Hjs Hcss Hfind Hdiff Hne ND Hanim.
  pose proof (find_some _ _ Hfind) as [Hin Hlang].
  assert (Hdiffs : App.proposedDiffs response (App.files s)
                   = [App.mkFileDiff (App.name cssFile) c]).
  { unfold App.proposedDiffs. rewrite Hhtml, Hjs, Hcss, Hfind. simpl.
    replace (JsString.truthy c) with true by (destruct c; [contradiction | reflexivity]).
    replace (String.eqb c (App.content cssFile)) with false
      by (symmetry; now apply String.eqb_neq).
    reflexivity. }
  assert (Hfiles : forall s1 : App.AppState,
             App.files s1 = App.files s ->
             App.files (App.updateFileContent (App.name cssFile) c
                          (App.setActiveFile cssFile s1))
             = map (fun f => if String.eqb (App.name f) (App.name cssFile)
                             then App.mkFile (App.name f) c (App.language f) else f)
                   (App.files s)).
  { intros s1 H1. rewrite files_updateFileContent, files_setActiveFile, H1. reflexivity. }
  assert (Hgoal : forall s' : App.AppState,
             App.files s'
             = map (fun f => if String.eqb (App.name f) (App.name cssFile)
                             then App.mkFile (App.name f) c (App.language f) else f)
                   (App.files s) ->
             find (App.hasName (App.name cssFile)) (App.files s')
             = Some (App.mkFile (App.name cssFile) c (App.language cssFile))
             /\ (forall i f, nth_error (App.files s) i = Some f -> f <> cssFile ->
                             nth_error (App.files s') i = Some f)
             /\ find (App.hasLanguage "html") (App.files s')
                = find (App.hasLanguage "html") (App.files s)
             /\ find (App.hasLanguage "js") (App.files s')
                = find (App.hasLanguage "js") (App.files s)).
  { intros s' ->.
    assert (Hother : forall lang, lang <> "css" ->
              forall f, In f (App.files s) -> App.name f = App.name cssFile ->
                        App.hasLanguage lang f = false).
    { intros lang Hl f Hf Hn.
      assert (f = cssFile) as -> by (eapply names_unique; eauto).
      apply hasLanguage_true in Hlang.
      unfold App.hasLanguage. rewrite Hlang. apply String.eqb_neq. congruence. }
    split; [| split; [| split]].
    - apply find_hasName_updated. now apply find_hasName_unique.
    - intros i f Hi Hf. rewrite nth_error_map, Hi. simpl.
      destruct (String.eqb (App.name f) (App.name cssFile)) eqn:Q; [|reflexivity].
      apply String.eqb_eq in Q. exfalso; apply Hf.
      eapply names_unique; eauto. eapply nth_error_In; eauto.
    - apply find_hasLanguage_updated, Hother; discriminate.
    - apply find_hasLanguage_updated, Hother; discriminate. }
  unfold App.askAI. rewrite Hprompt. cbv zeta.
  change (negb true) with false. cbv iota.
  change (App.files (App.beginAsk s)) with (App.files s).
  change (App.aiPrompt (App.beginAsk s)) with (App.aiPrompt s).
  change (App.selectedModel (App.beginAsk s)) with (App.selectedModel s).
  rewrite Hcall, Hdiffs.
  cbn [App.applyDiffs App.fileName App.after].
  set (s1 := App.set_isAiApplyingEdits true (App.set_isAiLoading false (App.beginAsk s))).
  change (App.files s1) with (App.files s).
  rewrite find_hasName_unique by assumption.
  destruct (switchEditor 0 ed) as [component|] eqn:Hsw.
  - specialize (Hanim component eq_refl).
    destruct (Editor.applyChangesWithAnimation api (env 0) c component)
      as [outcome component']; simpl in Hanim; subst outcome.
    eexists; eexists. split; [reflexivity|]. split; [reflexivity|].
    pose proof (Hgoal (App.updateFileContent (App.name cssFile) c
                         (App.setActiveFile cssFile s1)) (Hfiles s1 eq_refl))
      as (G1 & G2 & G3 & G4).
    repeat split; try assumption.
    unfold App.setActiveFile.
    destruct (negb (existsb (App.hasName (App.name cssFile)) (App.openFiles s1)));
      reflexivity.
  - eexists; eexists. split; [reflexivity|]. split; [reflexivity|].
    pose proof (Hgoal (App.updateFileContent (App.name cssFile) c
                         (App.setActiveFile cssFile s1)) (Hfiles s1 eq_refl))
      as (G1 & G2 & G3 & G4).
    repeat split; try assumption.
    unfold App.setActiveFile.
    destruct (negb (existsb (App.hasName (App.name cssFile)) (App.openFiles s1)));
      reflexivity.
Qed.

(** The loop writes the files, the tabs and the active file only: the
    flags and the texts shown in the AI pane are as before it. *)
Lemma applyDiffs_keeps_pane (diffs : list App.FileDiff) :
  forall k s ed,
    let s' := fst (snd (App.applyDiffs api switchEditor env k diffs s ed)) in
    App.aiError s' = App.aiError s
    /\ App.aiExplanation s' = App.aiExplanation s
    /\ App.isAiLoading s' = App.isAiLoading s
    /\ App.isAiApplyingEdits s' = App.isAiApplyingEdits s.
Proof.
  assert (Hact : forall f s,
            App.aiError (App.setActiveFile f s) = App.aiError s
            /\ App.aiExplanation (App.setActiveFile f s) = App.aiExplanation s
            /\ App.isAiLoading (App.setActiveFile f s) = App.isAiLoading s
            /\ App.isAiApplyingEdits (App.setActiveFile f s) = App.isAiApplyingEdits s).
  { intros f s. unfold App.setActiveFile.
    destruct (negb (existsb (App.hasName (App.name f)) (App.openFiles s)));
      repeat split; reflexivity. }
  induction diffs as [|d diffs IH]; intros k s ed; cbv zeta; simpl.
  - repeat split; reflexivity.
  - destruct (find (App.hasName (App.fileName d)) (App.files s)) as [f|]; [|apply IH].
    destruct (Hact f s) as (A1 & A2 & A3 & A4).
    assert (Hnext : forall ed',
      let s' := fst (snd (App.applyDiffs api switchEditor env (S k) diffs
                            (App.updateFileContent (App.fileName d) (App.after d)
                               (App.setActiveFile f s)) ed')) in
      App.aiError s' = App.aiError s
      /\ App.aiExplanation s' = App.aiExplanation s
      /\ App.isAiLoading s' = App.isAiLoading s
      /\ App.isAiApplyingEdits s' = App.isAiApplyingEdits s).
    { intros ed'. cbv zeta.
      destruct (IH (S k) (App.updateFileContent (App.fileName d) (App.after d)
                            (App.setActiveFile f s)) ed') as (B1 & B2 & B3 & B4).
      rewrite B1, B2, B3, B4. exact (conj A1 (conj A2 (conj A3 A4))). }
    destruct (switchEditor k ed) as [component|]; [|apply Hnext].
    destruct (Editor.applyChangesWithAnimation api (env k) (App.after d) component)
      as [[|err|] component']; [apply Hnext | |]; simpl;
      exact (conj A1 (conj A2 (conj A3 A4))).
Qed.

(** C6, amended. When the animation of one queued file does not complete
    because an operation of the widget threw, the loop ends there: whatever
    jobs are queued behind it, none of them is run; the files applied before
    keep the content the loop gave them; the file whose animation failed has
    been activated but is not committed by the loop.  When the promise of the
    animation is rejected, [askAI] reports the error in [aiError] and lowers
    both flags; when it never settles (the throw was in a timer callback of the
    typing), [askAI] never finishes: no error is reported and
    [isAiApplyingEdits] stays up. *)
Theorem askAI_stops_at_failed_animation
  (svc : Gemini.GeminiService) (s s1 : App.AppState)
  (ed ed1 : option (Editor.Component E))
  (response : Gemini.AiCodeResponse)
  (done rest : list App.FileDiff) (diff : App.FileDiff)
  (fileToUpdate : App.File) (component component' : Editor.Component E)
  (outcome : Settlement) :
  JsString.truthy (JsString.trim (App.aiPrompt s)) = true ->
  Gemini.getCodeModification svc
    (backend (App.contentOr (find (App.hasLanguage "html") (App.files s)) "")
             (App.contentOr (find (App.hasLanguage "css") (App.files s)) "")
             (App.contentOr (find (App.hasLanguage "js") (App.files s)) "")
             (App.aiPrompt s) (App.selectedModel s)) = inr response ->
  App.proposedDiffs response (App.files s) = done ++ diff :: rest ->
  App.applyDiffs api switchEditor env 0 done
    (App.set_isAiApplyingEdits true (App.set_isAiLoading false (App.beginAsk s))) ed
    = (Done tt, (s1, ed1)) ->
  find (App.hasName (App.fileName diff)) (App.files s1) = Some fileToUpdate ->
  switchEditor (List.length done) ed1 = Some component ->
  Editor.applyChangesWithAnimation api (env (List.length done)) (App.after diff) component
    = (outcome, component') ->
  outcome <> Resolved ->
  App.applyDiffs api switchEditor env 0 (done ++ diff :: rest)
    (App.set_isAiApplyingEdits true (App.set_isAiLoading false (App.beginAsk s))) ed
    = (match outcome with Rejected err => Throws err | _ => Hangs end,
       (App.setActiveFile fileToUpdate s1, Some component'))
  /\ exists s',
       App.files s' = App.files s1
       /\ App.activeFile s' = Some fileToUpdate
       /\ App.isAiLoading s' = false
       /\ match outcome with
          | Rejected err =>
              App.askAI api backend switchEditor env svc s ed
              = App.Finished s' (Some component')
              /\ App.aiError s' = match err with
                                  | ErrorObject message => message
                                  | NotAnError => Gemini.MSG_GENERIC
                                  end
              /\ App.isAiApplyingEdits s' = false
          | _ =>
              App.askAI api backend switchEditor env svc s ed
              = App.Suspended s' (Some component')
              /\ App.aiError s' = ""
              /\ App.aiExplanation s' = ""
              /\ App.isAiApplyingEdits s' = true
          end.
Proof.
  intros Hprompt Hcall Hdiffs Hdone Hfind Hsw Hanim Hfailed.
  assert (Hloop :
    App.applyDiffs api switchEditor env 0 (done ++ diff :: rest)
      (App.set_isAiApplyingEdits true (App.set_isAiLoading false (App.beginAsk s))) ed
    = (match outcome with Rejected err => Throws err | _ => Hangs end,
       (App.setActiveFile fileToUpdate s1, Some component'))).
  { rewrite applyDiffs_app, Hdone. simpl. rewrite Hfind, Hsw, Hanim.
    destruct outcome; [contradiction | reflexivity | reflexivity]. }
  split; [exact Hloop|].
  pose proof (applyDiffs_keeps_pane done 0
                (App.set_isAiApplyingEdits true (App.set_isAiLoading false (App.beginAsk s)))
                ed) as Hpane.
  rewrite Hdone in Hpane. cbv zeta in Hpane. cbn [fst snd] in Hpane.
  destruct Hpane as (P1 & P2 & P3 & P4).
  assert (Hask : App.askAI api backend switchEditor env svc s ed
    = match outcome with
      | Rejected err =>
          App.Finished (App.settleFlags (App.surface err (App.setActiveFile fileToUpdate s1)))
                       (Some component')
      | _ => App.Suspended (App.setActiveFile fileToUpdate s1) (Some component')
      end).
  { unfold App.askAI. rewrite Hprompt. cbv zeta.
    change (negb true) with false. cbv iota.
    change (App.files (App.beginAsk s)) with (App.files s).
    change (App.aiPrompt (App.beginAsk s)) with (App.aiPrompt s).
    change (App.selectedModel (App.beginAsk s)) with (App.selectedModel s).
    rewrite Hcall, Hdiffs, Hloop.
    destruct (done ++ diff :: rest) eqn:Q; [destruct done; discriminate Q|].
    destruct outcome; [contradiction | reflexivity | reflexivity]. }
  assert (Hflags : forall f st,
            App.aiError (App.setActiveFile f st) = App.aiError st
            /\ App.aiExplanation (App.setActiveFile f st) = App.aiExplanation st
            /\ App.isAiLoading (App.setActiveFile f st) = App.isAiLoading st
            /\ App.isAiApplyingEdits (App.setActiveFile f st) = App.isAiApplyingEdits st
            /\ App.activeFile (App.setActiveFile f st) = Some f).
  { intros f st. unfold App.setActiveFile.
    destruct (negb (existsb (App.hasName (App.name f)) (App.openFiles st)));
      repeat split; reflexivity. }
  destruct (Hflags fileToUpdate s1) as (F1 & F2 & F3 & F4 & F5).
  destruct outcome as [|err|]; [contradiction | |].
  - exists (App.settleFlags (App.surface err (App.setActiveFile fileToUpdate s1))).
    split; [apply files_setActiveFile|]. split; [exact F5|].
    split; [reflexivity|]. split; [exact Hask|]. split; reflexivity.
  - exists (App.setActiveFile fileToUpdate s1).
    split; [apply files_setActiveFile|]. split; [exact F5|].
    split; [rewrite F3, P3; reflexivity|].
    split; [exact Hask|].
    split; [rewrite F1, P1; reflexivity|].
    split; [rewrite F2, P2; reflexivity|].
    rewrite F4, P4; reflexivity.
Qed.

End OrchestratorFacts.

Lemma defaultFiles_names_distinct : NoDup (map App.name App.defaultFiles).
Proof. repeat constructor; simpl; intuition discriminate. Qed.

(** The proposal changes the style sheet only; the animation runs on a plain
    buffer holding the old style sheet. *)
Lemma askAI_css_only_witness :
  let s := App.set_aiPrompt "make it blue" (App.initialState App.defaultFiles 7) in
  let response := Gemini.mkResponse "blue" None (Some "body { color: blue; }") None in
  exists s' ed',
    App.askAI PlainBuffer.api (fun _ _ _ _ _ => inr response)
              (fun _ ed => ed) (fun _ => PlainBuffer.quiet)
              (Gemini.mkService true (Some "k")) s
              (Some (PlainBuffer.fresh (App.content App.defaultCss)))
    = App.Finished s' ed'
    /\ find (App.hasName "style.css") (App.files s')
       = Some (App.mkFile "style.css" "body { color: blue; }" "css")
    /\ find (App.hasLanguage "html") (App.files s') = Some App.defaultHtml
    /\ find (App.hasLanguage "js") (App.files s') = Some App.defaultJs.
Proof.
  cbv zeta.
  destruct (@askAI_css_only _ PlainBuffer.api
              (fun _ _ _ _ _ =>
                 inr (Gemini.mkResponse "blue" None (Some "body { color: blue; }") None))
              (fun _ ed => ed) (fun _ => PlainBuffer.quiet)
              (Gemini.mkService true (Some "k"))
              (App.set_aiPrompt "make it blue" (App.initialState App.defaultFiles 7))
              (Some (PlainBuffer.fresh (App.content App.defaultCss)))
              (Gemini.mkResponse "blue" None (Some "body { color: blue; }") None)
              App.defaultCss "body { color: blue; }"
              eq_refl eq_refl eq_refl eq_refl eq_refl eq_refl
              ltac:(discriminate) ltac:(discriminate)
              defaultFiles_names_distinct
              ltac:(intros component [= <-]; vm_compute; reflexivity))
    as (s' & ed' & Hrun & _ & Hcss & _ & Hhtml & Hjs & _).
  exists s', ed'. split; [exact Hrun|]. split; [exact Hcss|].
  split; [rewrite Hhtml | rewrite Hjs]; reflexivity.
Defined.

(** C5, as stated, fails for the empty text: a proposal whose only patch is
    the empty css text differs from the current style sheet, yet nothing is
    queued and the style sheet keeps its content. *)
Lemma askAI_ignores_empty_css_patch :
  let s := App.set_aiPrompt "remove all styles" (App.initialState App.defaultFiles 7) in
  let response := Gemini.mkResponse "removed" None (Some "") None in
  let ed := Some (PlainBuffer.fresh (App.content App.defaultCss)) in
  find (App.hasLanguage "css") (App.files s) = Some App.defaultCss
  /\ Gemini.css response <> Some (App.content App.defaultCss)
  /\ App.proposedDiffs response (App.files s) = []
  /\ exists s',
       App.askAI PlainBuffer.api (fun _ _ _ _ _ => inr response)
                 (fun _ ed => ed) (fun _ => PlainBuffer.quiet)
                 (Gemini.mkService true (Some "k")) s ed
       = App.Finished s' ed
       /\ App.files s' = App.files s
       /\ find (App.hasLanguage "css") (App.files s') = Some App.defaultCss
       /\ Some (App.content App.defaultCss) <> Gemini.css response.
Proof.
  cbv zeta. split; [reflexivity|]. split; [discriminate|]. split; [reflexivity|].
  eexists. split; [reflexivity|]. split; [reflexivity|]. split; [reflexivity|].
  discriminate.
Qed.

(** C6, as stated, fails: the proposal changes the page and the style
    sheet; the animation of the page is rejected (the buffer throws at its
    third operation); the handler ends with that error, the style sheet has
    not been activated, animated or committed, and the buffer holds the page,
    not the style sheet. *)
Lemma askAI_abandons_queue_after_rejection :
  let s := App.set_aiPrompt "restyle" (App.initialState App.defaultFiles 7) in
  let response := Gemini.mkResponse "restyled" (Some "<p>new</p>") (Some "p { margin: 0; }") None in
  let ed := Some (PlainBuffer.faulty (App.content App.defaultHtml) 2) in
  App.proposedDiffs response (App.files s)
  = [App.mkFileDiff "index.html" "<p>new</p>"; App.mkFileDiff "style.css" "p { margin: 0; }"]
  /\ exists s',
       App.askAI PlainBuffer.api (fun _ _ _ _ _ => inr response)
                 (fun _ ed => ed) (fun _ => PlainBuffer.quiet)
                 (Gemini.mkService true (Some "k")) s ed
       = App.Finished s' (Some (PlainBuffer.fresh "<p>new</p>"))
       /\ App.aiError s' = "editor fault"
       /\ App.activeFile s' = Some App.defaultHtml
       /\ find (App.hasName "style.css") (App.files s') = Some App.defaultCss
       /\ App.content App.defaultCss <> "p { margin: 0; }".
Proof.
  cbv zeta. split; [reflexivity|].
  eexists. split; [vm_compute; reflexivity|].
  split; [reflexivity|]. split; [reflexivity|]. split; [reflexivity|].
  discriminate.
Qed.

(** The same run, through the theorem: the first job is rejected, the second
    is left alone. *)
Lemma askAI_stops_at_failed_animation_witness :
  let s := App.set_aiPrompt "restyle" (App.initialState App.defaultFiles 7) in
  let response := Gemini.mkResponse "restyled" (Some "<p>new</p>") (Some "p { margin: 0; }") None in
  exists s',
    App.askAI PlainBuffer.api (fun _ _ _ _ _ => inr response)
              (fun _ ed => ed) (fun _ => PlainBuffer.quiet)
              (Gemini.mkService true (Some "k")) s
              (Some (PlainBuffer.faulty (App.content App.defaultHtml) 2))
    = App.Finished s' (Some (PlainBuffer.fresh "<p>new</p>"))
    /\ App.files s' = App.defaultFiles
    /\ App.aiError s' = "editor fault".
Proof.
  cbv zeta.
  destruct (@askAI_stops_at_failed_animation _ PlainBuffer.api
              (fun _ _ _ _ _ =>
                 inr (Gemini.mkResponse "restyled" (Some "<p>new</p>")
                                        (Some "p { margin: 0; }") None))
              (fun _ ed => ed) (fun _ => PlainBuffer.quiet)
              (Gemini.mkService true (Some "k"))
              (App.set_aiPrompt "restyle" (App.initialState App.defaultFiles 7))
              (App.set_isAiApplyingEdits true
                 (App.set_isAiLoading false
                    (App.beginAsk
                       (App.set_aiPrompt "restyle" (App.initialState App.defaultFiles 7)))))
              (Some (PlainBuffer.faulty (App.content App.defaultHtml) 2))
              (Some (PlainBuffer.faulty (App.content App.defaultHtml) 2))
              (Gemini.mkResponse "restyled" (Some "<p>new</p>") (Some "p { margin: 0; }") None)
              [] [App.mkFileDiff "style.css" "p { margin: 0; }"]
              (App.mkFileDiff "index.html" "<p>new</p>")
              App.defaultHtml
              (PlainBuffer.faulty (App.content App.defaultHtml) 2)
              (PlainBuffer.fresh "<p>new</p>")
              (Rejected (ErrorObject "editor fault"))
              eq_refl eq_refl eq_refl eq_refl eq_refl eq_refl
              ltac:(vm_compute; reflexivity) ltac:(discriminate))
    as (_ & s' & Hfiles & _ & _ & Hrun & Herr & _).
  exists s'. split; [exact Hrun|]. split; [exact Hfiles | exact Herr].
Defined.

(** The same proposal when the buffer throws at its tenth operation, in a
    timer callback of the typing: the animation of the page never settles and
    [askAI] stays suspended with [isAiApplyingEdits] up and nothing
    reported. *)
Example askAI_suspended_by_timer_fault :
  let s := App.set_aiPrompt "restyle" (App.initialState App.defaultFiles 7) in
  let response := Gemini.mkResponse "restyled" (Some "<p>new</p>") (Some "p { margin: 0; }") None in
  exists s' ed',
    App.askAI PlainBuffer.api (fun _ _ _ _ _ => inr response)
              (fun _ ed => ed) (fun _ => PlainBuffer.quiet)
              (Gemini.mkService true (Some "k")) s
              (Some (PlainBuffer.faulty (App.content App.defaultHtml) 9))
    = App.Suspended s' ed'
    /\ App.files s' = App.defaultFiles
    /\ App.aiError s' = ""
    /\ App.isAiApplyingEdits s' = true.
Proof.
  cbv zeta. eexists. eexists. split; [vm_compute; reflexivity|].
  repeat split; reflexivity.
Qed.

(** ** The state invariant of the file management *)

Lemma nameIn_spec (n : string) (l : list App.File) :
  App.nameIn n l = true <-> exists f, In f l /\ App.name f = n.
Proof.
  unfold App.nameIn. rewrite existsb_exists.
  split; intros (f & Hf & Hn); exists f; split; auto; now apply hasName_true.
Qed.

Lemma nameIn_app (n : string) (l l' : list App.File) :
  App.nameIn n (l ++ l') = App.nameIn n l || App.nameIn n l'.
Proof. apply existsb_app. Qed.

Lemma nameIn_self (f : App.File) (l : list App.File) :
  In f l -> App.nameIn (App.name f) l = true.
Proof. intros H; apply nameIn_spec; eauto. Qed.

Lemma nameIn_filter_same (m : string) (l : list App.File) :
  App.nameIn m (filter (fun f => negb (App.hasName m f)) l) = false.
Proof.
  destruct (App.nameIn m _) eqn:Q; [|reflexivity].
  apply nameIn_spec in Q. destruct Q as (f & Hf & Hn).
  apply filter_In in Hf. destruct Hf as [_ Hf].
  apply hasName_true in Hn. rewrite Hn in Hf. discriminate.
Qed.

Lemma nameIn_filter_other (n m : string) (l : list App.File) :
  n <> m ->
  App.nameIn n (filter (fun f => negb (App.hasName m f)) l) = App.nameIn n l.
Proof.
  intros Hnm. apply eq_true_iff_eq. rewrite !nameIn_spec.
  split; intros (f & Hf & Hn); exists f; split; auto.
  - apply filter_In in Hf. tauto.
  - apply filter_In. split; [assumption|].
    unfold App.hasName. replace (String.eqb (App.name f) m) with false; [reflexivity|].
    symmetry; apply String.eqb_neq. congruence.
Qed.

Lemma nameIn_updated (n fileName c : string) (l : list App.File) :
  App.nameIn n
    (map (fun f => if String.eqb (App.name f) fileName
                   then App.mkFile (App.name f) c (App.language f) else f) l)
  = App.nameIn n l.
Proof.
  induction l as [|x l IH]; simpl; [reflexivity|].
  unfold App.nameIn in *; simpl. rewrite IH. f_equal.
  destruct (String.eqb (App.name x) fileName); reflexivity.
Qed.

Lemma findIndex_none (A : Type) (p : A -> bool) (l : list A) :
  App.findIndex p l = None <-> existsb p l = false.
Proof.
  induction l as [|x l IH]; simpl; [tauto|].
  destruct (p x); simpl; [split; discriminate|].
  destruct (App.findIndex p l); [|tauto].
  split; [discriminate|]. intros H; apply IH in H; discriminate.
Qed.

(** *** Names accepted at creation are accepted at upload *)

Lemma has_dot_append (pre ext : string) :
  existsb (Ascii.eqb ".") (list_ascii_of_string (pre ++ String "." ext)) = true.
Proof. induction pre as [|c pre IH]; simpl; [reflexivity | rewrite IH; apply orb_true_r]. Qed.

Lemma afterLastDot_append (pre ext : string) :
  existsb (Ascii.eqb ".") (list_ascii_of_string ext) = false ->
  JsString.afterLastDot (pre ++ String "." ext) = ext.
Proof.
  intros Hext. induction pre as [|c pre IH]; simpl.
  - rewrite Hext. reflexivity.
  - rewrite has_dot_append. exact IH.
Qed.

Lemma endsWith_split (s suffix : string) :
  JsString.endsWith s suffix = true ->
  s = (String.substring 0 (String.length s - String.length suffix) s ++ suffix)%string.
Proof.
  unfold JsString.endsWith. rewrite andb_true_iff, Nat.leb_le, String.eqb_eq.
  intros [Hlen Hsub].
  rewrite <- Hsub at 2.
  rewrite <- (substring_all s) at 1.
  replace (String.length s)
    with ((String.length s - String.length suffix) + String.length suffix) at 1 by lia.
  apply substring_split.
Qed.

Lemma matches_then_supported (fileName : string) :
  App.matchesSupportedExtension fileName = true ->
  App.isSupported (JsString.afterLastDot fileName) = true.
Proof.
  unfold App.matchesSupportedExtension. rewrite existsb_exists.
  intros (ext & Hin & Hend).
  apply endsWith_split in Hend. rewrite Hend.
  change ("." ++ ext)%string with (String "." ext).
  simpl in Hin.
  repeat (destruct Hin as [<-|Hin];
          [rewrite afterLastDot_append by reflexivity; reflexivity|]).
  contradiction.
Qed.

(** *** The invariant, in propositional form *)

Lemma wellFormed_spec (s : App.AppState) :
  App.wellFormed s = true <->
  (forall f, In f (App.openFiles s) -> App.nameIn (App.name f) (App.files s) = true)
  /\ (forall a, App.activeFile s = Some a -> App.nameIn (App.name a) (App.openFiles s) = true)
  /\ (forall f, In f (App.files s) ->
        App.isSupported (JsString.afterLastDot (App.name f)) = true).
Proof.
  unfold App.wellFormed, App.openFilesExist, App.activeFileOpen, App.namesSupported.
  rewrite !andb_true_iff, !forallb_forall.
  split; intros ((H1 & H2) & H3) || intros (H1 & H2 & H3); repeat split; auto.
  - intros a Ha. rewrite Ha in H2. exact H2.
  - destruct (App.activeFile s) as [a|]; auto.
Qed.

Ltac use_wf WF :=
  let H1 := fresh "open_exist" in
  let H2 := fresh "active_open" in
  let H3 := fresh "names_ok" in
  pose proof (proj1 (wellFormed_spec _) WF) as (H1 & H2 & H3).

Lemma setActiveFile_wf (file : App.File) (s : App.AppState) :
  App.wellFormed s = true ->
  App.nameIn (App.name file) (App.files s) = true ->
  App.wellFormed (App.setActiveFile file s) = true.
Proof.
  intros WF Hfile. use_wf WF. apply wellFormed_spec. unfold App.setActiveFile.
  change (existsb (App.hasName (App.name file)) (App.openFiles s))
    with (App.nameIn (App.name file) (App.openFiles s)).
  destruct (App.nameIn (App.name file) (App.openFiles s)) eqn:Q; simpl;
    (split; [| split]); auto.
  - intros a [= <-]. exact Q.
  - intros f Hf. apply in_app_or in Hf. destruct Hf as [Hf|[<-|[]]]; auto.
  - intros a [= <-]. rewrite nameIn_app. unfold App.nameIn at 2; simpl.
    unfold App.hasName. rewrite String.eqb_refl. apply orb_true_r.
Qed.

Lemma closeFile_wf (fileToClose : App.File) (s : App.AppState) :
  App.wellFormed s = true ->
  App.wellFormed (App.closeFile fileToClose s) = true.
Proof.
  intros WF. use_wf WF. unfold App.closeFile.
  destruct (App.findIndex (App.hasName (App.name fileToClose)) (App.openFiles s))
    as [currentIndex|]; [|exact WF].
  set (newOpenFiles := filter (fun f => negb (App.hasName (App.name fileToClose) f))
                              (App.openFiles s)).
  assert (Hsub : forall f, In f newOpenFiles -> In f (App.openFiles s)).
  { intros f Hf. apply filter_In in Hf. tauto. }
  apply wellFormed_spec.
  destruct (App.activeFile s) as [active|] eqn:Ha.
  - destruct (String.eqb (App.name active) (App.name fileToClose)) eqn:Q.
    + destruct (List.length newOpenFiles =? 0); simpl; (split; [| split]); auto;
        try discriminate.
      intros a Hnth. apply nth_error_In in Hnth. now apply nameIn_self.
    + simpl. split; [| split]; auto.
      intros a Ha'. rewrite Ha in Ha'. injection Ha' as <-.
      unfold newOpenFiles. rewrite nameIn_filter_other; [now apply active_open|].
      now apply String.eqb_neq.
  - simpl. split; [| split]; auto. rewrite Ha. discriminate.
Qed.

(** After [closeFile] no open file has the name of the closed one. *)
Lemma closeFile_closes (fileToClose : App.File) (s : App.AppState) :
  App.nameIn (App.name fileToClose) (App.openFiles (App.closeFile fileToClose s)) = false.
Proof.
  unfold App.closeFile.
  destruct (App.findIndex (App.hasName (App.name fileToClose)) (App.openFiles s))
    as [currentIndex|] eqn:Q.
  - simpl. apply nameIn_filter_same.
  - now apply findIndex_none in Q.
Qed.

Lemma files_closeFile (fileToClose : App.File) (s : App.AppState) :
  App.files (App.closeFile fileToClose s) = App.files s.
Proof.
  unfold App.closeFile.
  destruct (App.findIndex _ _); [|reflexivity]. simpl.
  destruct (App.activeFile s) as [a|]; [|reflexivity].
  destruct (String.eqb _ _); [|reflexivity].
  destruct (_ =? 0); reflexivity.
Qed.

Lemma updateFileContent_wf (fileName newContent : string) (s : App.AppState) :
  App.wellFormed s = true ->
  App.wellFormed (App.updateFileContent fileName newContent s) = true.
Proof.
  intros WF. use_wf WF.
  apply wellFormed_spec. unfold App.updateFileContent; simpl. split; [| split]; auto.
  - intros f Hf. rewrite nameIn_updated. auto.
  - intros f Hf. apply in_map_iff in Hf. destruct Hf as (g & <- & Hg).
    destruct (String.eqb (App.name g) fileName); simpl; auto.
Qed.

Lemma cancelCreateFile_wf (s : App.AppState) :
  App.wellFormed s = true -> App.wellFormed (App.cancelCreateFile s) = true.
Proof. intros WF; exact WF. Qed.

Lemma confirmCreateFile_wf (s : App.AppState) :
  App.wellFormed s = true -> App.wellFormed (App.confirmCreateFile s) = true.
Proof.
  intros WF. use_wf WF. unfold App.confirmCreateFile.
  set (fileName := JsString.trim (App.newFileName s)).
  destruct (JsString.truthy fileName); simpl; [| exact WF].
  destruct (App.matchesSupportedExtension fileName) eqn:M; simpl; [| exact WF].
  destruct (existsb (App.hasName fileName) (App.files s)) eqn:X; [exact WF|].
  set (newFile := App.mkFile fileName "" (JsString.afterLastDot fileName)).
  apply cancelCreateFile_wf, setActiveFile_wf.
  - apply wellFormed_spec; simpl. split; [| split]; auto.
    + intros f Hf. rewrite nameIn_app, open_exist by assumption. reflexivity.
    + intros f Hf. apply in_app_or in Hf. destruct Hf as [Hf|[<-|[]]]; auto.
      simpl. now apply matches_then_supported.
  - simpl. rewrite nameIn_app. unfold App.nameIn at 2; simpl.
    unfold App.hasName; simpl. rewrite String.eqb_refl. apply orb_true_r.
Qed.

Lemma fileLoaded_wf (name content : string) (overwrite : bool) (s : App.AppState) :
  App.wellFormed s = true ->
  App.wellFormed (App.fileLoaded name content overwrite s) = true.
Proof.
  intros WF. use_wf WF. unfold App.fileLoaded.
  change (existsb (App.hasName name) (App.files s)) with (App.nameIn name (App.files s)).
  destruct (App.nameIn name (App.files s) && negb overwrite); [exact WF|].
  destruct (App.isSupported (JsString.afterLastDot name)) eqn:Sup; simpl.
  - set (newFile := App.mkFile name content (JsString.afterLastDot name)).
    apply setActiveFile_wf.
    + apply wellFormed_spec.
      destruct (App.nameIn name (App.files s)); simpl; (split; [| split]); auto.
      * intros f Hf. rewrite nameIn_app.
        destruct (String.eqb (App.name f) name) eqn:Q.
        -- apply String.eqb_eq in Q. rewrite Q. unfold App.nameIn at 2; simpl.
           unfold App.hasName; simpl. rewrite String.eqb_refl. apply orb_true_r.
        -- apply String.eqb_neq in Q. rewrite nameIn_filter_other by assumption.
           rewrite open_exist by assumption. reflexivity.
      * intros f Hf. apply in_app_or in Hf. destruct Hf as [Hf|[<-|[]]]; auto.
        apply filter_In in Hf. apply names_ok; tauto.
      * intros f Hf. rewrite nameIn_app, open_exist by assumption. reflexivity.
      * intros f Hf. apply in_app_or in Hf. destruct Hf as [Hf|[<-|[]]]; auto.
    + assert (H : forall l, App.nameIn name (l ++ [newFile]) = true).
      { intros l. rewrite nameIn_app. unfold App.nameIn at 2; simpl.
        unfold App.hasName; simpl. rewrite String.eqb_refl. apply orb_true_r. }
      destruct (App.nameIn name (App.files s)); simpl; apply H.
  - destruct (App.nameIn name (App.files s)) eqn:T; [|exact WF].
    apply nameIn_spec in T. destruct T as (f & Hf & Hn).
    apply names_ok in Hf. rewrite Hn, Sup in Hf. discriminate.
Qed.

Lemma deleteFile_wf (fileToDelete : App.File) (confirmed : bool) (s : App.AppState) :
  App.wellFormed s = true ->
  App.wellFormed (App.deleteFile fileToDelete confirmed s) = true.
Proof.
  intros WF. unfold App.deleteFile.
  destruct confirmed; simpl; [| exact WF].
  change (existsb (App.hasName (App.name fileToDelete)) (App.openFiles s))
    with (App.nameIn (App.name fileToDelete) (App.openFiles s)).
  set (s1 := if App.nameIn (App.name fileToDelete) (App.openFiles s)
             then App.closeFile fileToDelete s else s).
  assert (W1 : App.wellFormed s1 = true).
  { unfold s1. destruct (App.nameIn _ _); [now apply closeFile_wf | exact WF]. }
  assert (Hclosed : App.nameIn (App.name fileToDelete) (App.openFiles s1) = false).
  { unfold s1. destruct (App.nameIn _ _) eqn:Q; [apply closeFile_closes | exact Q]. }
  use_wf W1. apply wellFormed_spec; simpl. split; [| split]; auto.
  - intros f Hf.
    rewrite nameIn_filter_other; [now apply open_exist|].
    intros Hn. rewrite <- Hn, (nameIn_self _ _ Hf) in Hclosed. discriminate.
  - intros f Hf. apply filter_In in Hf. apply names_ok; tauto.
Qed.

(** After a confirmed [deleteFile] the name is neither in the collection nor
    among the open files. *)
Lemma deleteFile_removes (fileToDelete : App.File) (s : App.AppState) :
  App.nameIn (App.name fileToDelete) (App.files (App.deleteFile fileToDelete true s)) = false
  /\ App.nameIn (App.name fileToDelete)
                (App.openFiles (App.deleteFile fileToDelete true s)) = false.
Proof.
  unfold App.deleteFile; simpl. split; [apply nameIn_filter_same|].
  change (existsb (App.hasName (App.name fileToDelete)) (App.openFiles s))
    with (App.nameIn (App.name fileToDelete) (App.openFiles s)).
  destruct (App.nameIn (App.name fileToDelete) (App.openFiles s)) eqn:Q;
    [apply closeFile_closes | exact Q].
Qed.

Lemma run_wf (op : App.FileOp) (s : App.AppState) :
  App.wellFormed s = true -> App.wellFormed (App.run op s) = true.
Proof.
  intros WF. use_wf WF. destruct op; simpl.
  - destruct (nth_error (App.files s) i) as [f|] eqn:Q; [|exact WF].
    apply setActiveFile_wf; [exact WF|]. apply nameIn_self. eapply nth_error_In; eauto.
  - destruct (nth_error (App.openFiles s) i) as [f|] eqn:Q; [|exact WF].
    apply setActiveFile_wf; [exact WF|]. apply open_exist. eapply nth_error_In; eauto.
  - destruct (nth_error (App.openFiles s) i) as [f|]; [|exact WF].
    now apply closeFile_wf.
  - exact WF.
  - exact WF.
  - exact WF.
  - now apply confirmCreateFile_wf.
  - now apply fileLoaded_wf.
  - now apply deleteFile_wf.
  - now apply updateFileContent_wf.
  - unfold App.updateActiveFileContent.
    destruct (App.activeFile s); [now apply updateFileContent_wf | exact WF].
Qed.

(** *** The invariant of the tabs alone *)

Lemma tabsConsistent_spec (s : App.AppState) :
  App.tabsConsistent s = true <->
  (forall f, In f (App.openFiles s) -> App.nameIn (App.name f) (App.files s) = true)
  /\ (forall a, App.activeFile s = Some a -> App.nameIn (App.name a) (App.openFiles s) = true).
Proof.
  unfold App.tabsConsistent, App.openFilesExist, App.activeFileOpen.
  rewrite andb_true_iff, forallb_forall.
  split; intros (H1 & H2); split; auto.
  - intros a Ha. rewrite Ha in H2. exact H2.
  - destruct (App.activeFile s) as [a|]; auto.
Qed.

Ltac use_tabs TC :=
  let H1 := fresh "open_exist" in
  let H2 := fresh "active_open" in
  pose proof (proj1 (tabsConsistent_spec _) TC) as (H1 & H2).

Lemma setActiveFile_tabs (file : App.File) (s : App.AppState) :
  App.tabsConsistent s = true ->
  App.nameIn (App.name file) (App.files s) = true ->
  App.tabsConsistent (App.setActiveFile file s) = true.
Proof.
  intros TC Hfile. use_tabs TC. apply tabsConsistent_spec. unfold App.setActiveFile.
  change (existsb (App.hasName (App.name file)) (App.openFiles s))
    with (App.nameIn (App.name file) (App.openFiles s)).
  destruct (App.nameIn (App.name file) (App.openFiles s)) eqn:Q; simpl; split; auto.
  - intros a [= <-]. exact Q.
  - intros f Hf. apply in_app_or in Hf. destruct Hf as [Hf|[<-|[]]]; auto.
  - intros a [= <-]. rewrite nameIn_app. unfold App.nameIn at 2; simpl.
    unfold App.hasName. rewrite String.eqb_refl. apply orb_true_r.
Qed.

Lemma closeFile_tabs (fileToClose : App.File) (s : App.AppState) :
  App.tabsConsistent s = true ->
  App.tabsConsistent (App.closeFile fileToClose s) = true.
Proof.
  intros TC. use_tabs TC. unfold App.closeFile.
  destruct (App.findIndex (App.hasName (App.name fileToClose)) (App.openFiles s))
    as [currentIndex|]; [|exact TC].
  set (newOpenFiles := filter (fun f => negb (App.hasName (App.name fileToClose) f))
                              (App.openFiles s)).
  assert (Hsub : forall f, In f newOpenFiles -> In f (App.openFiles s)).
  { intros f Hf. apply filter_In in Hf. tauto. }
  apply tabsConsistent_spec.
  destruct (App.activeFile s) as [active|] eqn:Ha.
  - destruct (String.eqb (App.name active) (App.name fileToClose)) eqn:Q.
    + destruct (List.length newOpenFiles =? 0); simpl; split; auto; try discriminate.
      intros a Hnth. apply nth_error_In in Hnth. now apply nameIn_self.
    + simpl. split; auto.
      intros a Ha'. rewrite Ha in Ha'. injection Ha' as <-.
      unfold newOpenFiles. rewrite nameIn_filter_other; [now apply active_open|].
      now apply String.eqb_neq.
  - simpl. split; auto. rewrite Ha. discriminate.
Qed.

Lemma updateFileContent_tabs (fileName newContent : string) (s : App.AppState) :
  App.tabsConsistent s = true ->
  App.tabsConsistent (App.updateFileContent fileName newContent s) = true.
Proof.
  intros TC. use_tabs TC.
  apply tabsConsistent_spec. unfold App.updateFileContent; simpl. split; auto.
  intros f Hf. rewrite nameIn_updated. auto.
Qed.

Lemma confirmCreateFile_tabs (s : App.AppState) :
  App.tabsConsistent s = true -> App.tabsConsistent (App.confirmCreateFile s) = true.
Proof.
  intros TC. use_tabs TC. unfold App.confirmCreateFile.
  set (fileName := JsString.trim (App.newFileName s)).
  destruct (JsString.truthy fileName); simpl; [| exact TC].
  destruct (App.matchesSupportedExtension fileName) eqn:M; simpl; [| exact TC].
  destruct (existsb (App.hasName fileName) (App.files s)) eqn:X; [exact TC|].
  set (newFile := App.mkFile fileName "" (JsString.afterLastDot fileName)).
  change (App.tabsConsistent
            (App.setActiveFile newFile (App.set_files (App.files s ++ [newFile]) s)) = true).
  apply setActiveFile_tabs.
  - apply tabsConsistent_spec; simpl. split; auto.
    intros f Hf. rewrite nameIn_app, open_exist by assumption. reflexivity.
  - simpl. rewrite nameIn_app. unfold App.nameIn at 2; simpl.
    unfold App.hasName; simpl. rewrite String.eqb_refl. apply orb_true_r.
Qed.

(** An upload keeps the invariant unless it overwrites a file whose name
    has no supported extension. *)
Lemma fileLoaded_tabs (name content : string) (overwrite : bool) (s : App.AppState) :
  App.tabsConsistent s = true ->
  App.overwritesUnsupported (App.Upload name content overwrite) s = false ->
  App.tabsConsistent (App.fileLoaded name content overwrite s) = true.
Proof.
  intros TC Hop. use_tabs TC. unfold App.fileLoaded.
  change (existsb (App.hasName name) (App.files s)) with (App.nameIn name (App.files s)).
  destruct (App.nameIn name (App.files s)) eqn:T; cbn [andb].
  - destruct overwrite; cbn [negb]; [|exact TC].
    cbn [App.overwritesUnsupported] in Hop. rewrite T in Hop. cbn [andb] in Hop.
    apply negb_false_iff in Hop. rewrite Hop. cbn [negb].
    set (newFile := App.mkFile name content (JsString.afterLastDot name)).
    apply setActiveFile_tabs.
    + apply tabsConsistent_spec; simpl. split; auto.
      intros f Hf. rewrite nameIn_app.
      destruct (String.eqb (App.name f) name) eqn:Q.
      * apply String.eqb_eq in Q. rewrite Q. unfold App.nameIn at 2; simpl.
        unfold App.hasName; simpl. rewrite String.eqb_refl. apply orb_true_r.
      * apply String.eqb_neq in Q. rewrite nameIn_filter_other by assumption.
        rewrite open_exist by assumption. reflexivity.
    + simpl. rewrite nameIn_app. unfold App.nameIn at 2; simpl.
      unfold App.hasName; simpl. rewrite String.eqb_refl. apply orb_true_r.
  - destruct (App.isSupported (JsString.afterLastDot name)); cbn [negb]; [|exact TC].
    set (newFile := App.mkFile name content (JsString.afterLastDot name)).
    apply setActiveFile_tabs.
    + apply tabsConsistent_spec; simpl. split; auto.
      intros f Hf. rewrite nameIn_app, open_exist by assumption. reflexivity.
    + simpl. rewrite nameIn_app. unfold App.nameIn at 2; simpl.
      unfold App.hasName; simpl. rewrite String.eqb_refl. apply orb_true_r.
Qed.

Lemma deleteFile_tabs (fileToDelete : App.File) (confirmed : bool) (s : App.AppState) :
  App.tabsConsistent s = true ->
  App.tabsConsistent (App.deleteFile fileToDelete confirmed s) = true.
Proof.
  intros TC. unfold App.deleteFile.
  destruct confirmed; simpl; [| exact TC].
  change (existsb (App.hasName (App.name fileToDelete)) (App.openFiles s))
    with (App.nameIn (App.name fileToDelete) (App.openFiles s)).
  set (s1 := if App.nameIn (App.name fileToDelete) (App.openFiles s)
             then App.closeFile fileToDelete s else s).
  assert (W1 : App.tabsConsistent s1 = true).
  { unfold s1. destruct (App.nameIn _ _); [now apply closeFile_tabs | exact TC]. }
  assert (Hclosed : App.nameIn (App.name fileToDelete) (App.openFiles s1) = false).
  { unfold s1. destruct (App.nameIn _ _) eqn:Q; [apply closeFile_closes | exact Q]. }
  use_tabs W1. apply tabsConsistent_spec; simpl. split; auto.
  intros f Hf.
  rewrite nameIn_filter_other; [now apply open_exist|].
  intros Hn. rewrite <- Hn, (nameIn_self _ _ Hf) in Hclosed. discriminate.
Qed.

Lemma run_tabs (op : App.FileOp) (s : App.AppState) :
  App.tabsConsistent s = true ->
  App.overwritesUnsupported op s = false ->
  App.tabsConsistent (App.run op s) = true.
Proof.
  intros TC Hop. use_tabs TC. destruct op; simpl.
  - destruct (nth_error (App.files s) i) as [f|] eqn:Q; [|exact TC].
    apply setActiveFile_tabs; [exact TC|]. apply nameIn_self. eapply nth_error_In; eauto.
  - destruct (nth_error (App.openFiles s) i) as [f|] eqn:Q; [|exact TC].
    apply setActiveFile_tabs; [exact TC|]. apply open_exist. eapply nth_error_In; eauto.
  - destruct (nth_error (App.openFiles s) i) as [f|]; [|exact TC].
    now apply closeFile_tabs.
  - exact TC.
  - exact TC.
  - exact TC.
  - now apply confirmCreateFile_tabs.
  - now apply fileLoaded_tabs.
  - now apply deleteFile_tabs.
  - now apply updateFileContent_tabs.
  - unfold App.updateActiveFileContent.
    destruct (App.activeFile s); [now apply updateFileContent_tabs | exact TC].
Qed.

(** Where every name of the collection has a supported extension, no upload
    overwrites a file without one. *)
Lemma supported_names_allow_every_operation (op : App.FileOp) (s : App.AppState) :
  App.namesSupported s = true -> App.overwritesUnsupported op s = false.
Proof.
  intros Hsup. destruct op; try reflexivity.
  destruct overwrite; [|reflexivity]. cbn [App.overwritesUnsupported].
  destruct (App.nameIn name (App.files s)) eqn:T; [|reflexivity]. cbn [andb].
  apply nameIn_spec in T. destruct T as (f & Hf & Hn).
  unfold App.namesSupported in Hsup. rewrite forallb_forall in Hsup.
  specialize (Hsup f Hf). rewrite Hn in Hsup. rewrite Hsup. reflexivity.
Qed.

(** C9, amended. Every file-management operation (activating a file from
    the explorer or from a tab, closing a tab, creating a file, uploading,
    deleting, editing content), other than an upload confirmed to overwrite a
    file of the collection whose name has no supported extension, preserves
    the invariant of the state: every open file names a file of the
    collection and the active file is null or names an open file; and after a
    confirmed deletion the name of the deleted file is neither in the
    collection nor among the open files. *)
Theorem file_operations_preserve_invariant (op : App.FileOp) (s : App.AppState) :
  App.openFilesExist s = true ->
  App.activeFileOpen s = true ->
  App.overwritesUnsupported op s = false ->
  App.openFilesExist (App.run op s) = true
  /\ App.activeFileOpen (App.run op s) = true
  /\ (forall f, In f (App.openFiles (App.run op s)) ->
                App.nameIn (App.name f) (App.files (App.run op s)) = true)
  /\ (forall a, App.activeFile (App.run op s) = Some a ->
                App.nameIn (App.name a) (App.openFiles (App.run op s)) = true)
  /\ (forall file, op = App.DeleteFile file true ->
        App.nameIn (App.name file) (App.files (App.run op s)) = false
        /\ App.nameIn (App.name file) (App.openFiles (App.run op s)) = false).
Proof.
  intros Hopen Hactive Hop.
  assert (TC : App.tabsConsistent s = true).
  { unfold App.tabsConsistent. rewrite Hopen, Hactive. reflexivity. }
  pose proof (@run_tabs op s TC Hop) as W.
  pose proof W as W'. unfold App.tabsConsistent in W'.
  apply andb_true_iff in W'. destruct W' as [W1 W2].
  split; [exact W1|]. split; [exact W2|].
  pose proof (proj1 (tabsConsistent_spec _) W) as (H1 & H2).
  split; [exact H1|]. split; [exact H2|].
  intros file ->. apply deleteFile_removes.
Qed.

Lemma initialState_wf (stored : list App.File) (frame : App.Window) :
  forallb (fun f => App.isSupported (JsString.afterLastDot (App.name f))) stored = true ->
  App.wellFormed (App.initialState stored frame) = true.
Proof.
  intros Hsup. apply wellFormed_spec.
  unfold App.initialState; cbn [App.files App.openFiles App.activeFile].
  split; [| split].
  - intros f Hf. apply filter_In in Hf. apply nameIn_self; tauto.
  - intros a Ha. apply nth_error_In in Ha. now apply nameIn_self.
  - intros f Hf. rewrite forallb_forall in Hsup. auto.
Qed.

(** Hence the invariant holds in every state reached from stored files with
    accepted names, in particular from the default files. *)
Lemma reachable_wf (stored : list App.File) (frame : App.Window) (s : App.AppState) :
  forallb (fun f => App.isSupported (JsString.afterLastDot (App.name f))) stored = true ->
  App.Reachable stored frame s -> App.wellFormed s = true.
Proof.
  intros Hsup R. induction R as [|s op R IH].
  - now apply initialState_wf.
  - now apply run_wf.
Qed.

(** The style sheet, open in a tab, is replaced by an upload and then
    deleted: the invariant holds after both, and the deletion has removed the
    tab. *)
Lemma file_operations_preserve_invariant_witness :
  let s0 := App.initialState App.defaultFiles 7 in
  let s1 := App.run (App.Upload "style.css" "p { margin: 0; }" true) s0 in
  let s2 := App.run (App.DeleteFile App.defaultCss true) s1 in
  App.openFilesExist s1 = true /\ App.activeFileOpen s1 = true
  /\ App.openFilesExist s2 = true /\ App.activeFileOpen s2 = true
  /\ App.nameIn "style.css" (App.openFiles s1) = true
  /\ App.nameIn "style.css" (App.openFiles s2) = false.
Proof.
  cbv zeta.
  pose proof (file_operations_preserve_invariant
                (App.Upload "style.css" "p { margin: 0; }" true)
                (App.initialState App.defaultFiles 7) eq_refl eq_refl eq_refl)
    as (O1 & A1 & _).
  pose proof (file_operations_preserve_invariant
                (App.DeleteFile App.defaultCss true)
                (App.run (App.Upload "style.css" "p { margin: 0; }" true)
                         (App.initialState App.defaultFiles 7)) O1 A1 eq_refl)
    as (O2 & A2 & _ & _ & Hdel).
  split; [exact O1|]. split; [exact A1|]. split; [exact O2|]. split; [exact A2|].
  split; [reflexivity|].
  exact (proj2 (Hdel App.defaultCss eq_refl)).
Defined.

(** C9, as stated, fails for an upload.  The stored collection holds a file
    whose extension is not supported; it is opened from the explorer, and the
    invariant holds.  An upload of a file of that name, confirmed to
    overwrite, removes the file from the collection and is then refused for
    its extension: the tab and the active file still name the file, which is
    no longer in the collection. *)
Lemma upload_breaks_tab_invariant :
  let tool := App.mkFile "tool.exe" "MZ" "exe" in
  let s0 := App.initialState [tool; App.defaultCss] 7 in
  let s1 := App.run (App.ActivateFromExplorer 0) s0 in
  let s2 := App.run (App.Upload "tool.exe" "PE" true) s1 in
  App.openFilesExist s1 = true /\ App.activeFileOpen s1 = true
  /\ App.files s2 = [App.defaultCss]
  /\ App.openFiles s2 = [App.defaultCss; tool]
  /\ App.activeFile s2 = Some tool
  /\ App.openFilesExist s2 = false.
Proof.
  cbv zeta. repeat split; reflexivity.
Qed.

(** * Further properties of the embedded code *)

(** ** The diff: equal texts, empty texts, maximality *)

Lemma substring_zero (s : string) (n : nat) : String.substring n 0 s = "".
Proof.
  revert n; induction s as [|c s IH]; intros [|n]; simpl; auto.
Qed.

(** X1. The diff of a text with itself keeps the whole text as prefix, has
    no suffix and replaces nothing. *)
Theorem diff_equal_texts (a : string) :
  Diff.diff a a = Diff.mkDiff (String.length a) 0 "".
Proof.
  unfold Diff.diff.
  destruct (commonPrefix_spec a a) as (P1 & _ & _).
  pose proof (prefixLoop_exits a a) as G.
  set (p := Diff.commonPrefix a a) in *.
  assert (Hp : p = String.length a).
  { unfold Diff.prefixGuard in G.
    destruct (p <? String.length a) eqn:L; [|apply Nat.ltb_ge in L; lia].
    simpl in G. rewrite (proj2 (charAt_eqb_eq _ _) eq_refl) in G. discriminate. }
  destruct (commonSuffix_spec a a p) as (Q1 & _ & _).
  set (q := Diff.commonSuffix a a p) in *.
  assert (Hq : q = 0) by lia.
  rewrite Hp at 1. rewrite Hq. f_equal.
  rewrite js_substring_in_range by lia.
  replace (String.length a - 0 - p) with 0 by lia.
  apply substring_zero.
Qed.

(** X2. Neither scan stops early: at the prefix length one of the texts is
    exhausted or the two texts differ; at the suffix length the part left
    behind the prefix is exhausted in one of the texts, or the two texts
    differ at that distance from their ends. *)
Theorem diff_is_maximal (oldContent newContent : string) :
  let d := Diff.diff oldContent newContent in
  let p := Diff.prefixLength d in
  let q := Diff.suffixLength d in
  (p = String.length oldContent \/ p = String.length newContent
   \/ String.get p oldContent <> String.get p newContent)
  /\ (p + q = String.length oldContent \/ p + q = String.length newContent
      \/ String.get (String.length oldContent - 1 - q) oldContent
         <> String.get (String.length newContent - 1 - q) newContent).
Proof.
  cbv zeta. unfold Diff.diff; simpl.
  set (p := Diff.commonPrefix oldContent newContent).
  set (q := Diff.commonSuffix oldContent newContent p).
  destruct (commonPrefix_spec oldContent newContent) as (P1 & P2 & _); fold p in P1, P2.
  destruct (commonSuffix_spec oldContent newContent p) as (Q1 & Q2 & _); fold q in Q1, Q2.
  pose proof (prefixLoop_exits oldContent newContent) as G1; fold p in G1.
  pose proof (suffixLoop_exits oldContent newContent p) as G2; fold q in G2.
  split.
  - unfold Diff.prefixGuard in G1.
    destruct (p <? String.length oldContent) eqn:L1; [|apply Nat.ltb_ge in L1; lia].
    destruct (p <? String.length newContent) eqn:L2; [|apply Nat.ltb_ge in L2; lia].
    simpl in G1. right; right. intros H.
    apply charAt_eqb_eq in H. unfold JsString.charAt in G1. congruence.
  - unfold Diff.suffixGuard in G2.
    destruct (q <? String.length oldContent - p) eqn:L1; [|apply Nat.ltb_ge in L1; lia].
    destruct (q <? String.length newContent - p) eqn:L2; [|apply Nat.ltb_ge in L2; lia].
    simpl in G2. right; right. intros H.
    apply charAt_eqb_eq in H. unfold JsString.charAt in G2. congruence.
Qed.

Lemma diff_towards_empty (a : string) : Diff.diff a "" = Diff.mkDiff 0 0 "".
Proof.
  unfold Diff.diff.
  destruct (commonPrefix_spec a "") as (_ & P2 & _).
  assert (Hp : Diff.commonPrefix a "" = 0) by (simpl String.length in P2; lia).
  rewrite Hp.
  destruct (commonSuffix_spec a "" 0) as (_ & Q2 & _).
  assert (Hq : Diff.commonSuffix a "" 0 = 0) by (simpl String.length in Q2; lia).
  rewrite Hq. reflexivity.
Qed.

(** X3. With an empty text on one side there is no common part: from the
    empty text the whole new text is the replacement, and towards the empty
    text the replacement is empty (the whole old text is the deleted
    segment). *)
Theorem diff_with_empty_side (a b : string) :
  Diff.diff "" b = Diff.mkDiff 0 0 b
  /\ Diff.diff a "" = Diff.mkDiff 0 0 ""
  /\ Diff.applyDiff a (Diff.diff a "") = "".
Proof.
  split; [| split].
  - unfold Diff.diff, Diff.commonPrefix, Diff.commonSuffix.
    cbn [String.length Diff.prefixLoop Diff.suffixLoop]. f_equal.
    rewrite Nat.sub_0_r.
    rewrite js_substring_in_range by lia.
    rewrite Nat.sub_0_r. apply substring_all.
  - apply diff_towards_empty.
  - rewrite diff_towards_empty. unfold Diff.applyDiff, Diff.replaceRange; simpl.
    rewrite !js_substring_in_range by lia.
    rewrite !Nat.sub_0_r, Nat.sub_diag, !substring_zero. reflexivity.
Qed.

(** ** The applier: what it does not do, when it completes, when it hangs *)

(** X4. When the buffer already holds the target text, no operation of the
    widget is invoked: the promise is resolved, the editor is exactly as it
    was, and [isAnimating] is false. *)
Theorem applier_noop_when_equal
  (E : Type) (api : Monaco.Api E) (env : nat -> E -> E)
  (newContent : string) (e0 : E) (flag : bool) :
  Monaco.getValue api e0 = newContent ->
  Editor.applyChangesWithAnimation api env newContent (Editor.mkComponent (Some e0) flag)
  = (Resolved, Editor.mkComponent (Some e0) false).
Proof.
  intros H. apply String.eqb_eq in H.
  unfold Editor.applyChangesWithAnimation, Editor.animate, Editor.release; simpl.
  rewrite H; simpl. rewrite H. reflexivity.
Qed.

Lemma applier_noop_when_equal_witness :
  Editor.applyChangesWithAnimation PlainBuffer.api (PlainBuffer.typingAt 0 "!") "same"
    (Editor.mkComponent (Some (PlainBuffer.mkBuffer "same" 2 (Some 0))) true)
  = (Resolved, Editor.mkComponent (Some (PlainBuffer.mkBuffer "same" 2 (Some 0))) false).
Proof.
  apply (@applier_noop_when_equal _ PlainBuffer.api (PlainBuffer.typingAt 0 "!") "same"
           (PlainBuffer.mkBuffer "same" 2 (Some 0)) true).
  reflexivity.
Defined.

Lemma steadyBuffer_lawful : Monaco.Lawful SteadyBuffer.api.
Proof. intros s e; reflexivity. Qed.

Lemma steadyBuffer_never_throws : Monaco.NeverThrows SteadyBuffer.api.
Proof.
  repeat split; intros; simpl; unfold SteadyBuffer.lift, PlainBuffer.guarded; simpl;
    try (eexists; reflexivity); reflexivity.
Qed.

(** X5. When no operation of the widget throws, the animation runs to its
    end whatever happens to the buffer during the pauses: the promise is
    resolved, [isAnimating] is false and the buffer holds the target text. *)
Theorem applier_completes_without_faults
  (E : Type) (api : Monaco.Api E) (env : nat -> E -> E)
  (newContent : string) (e0 : E) (flag : bool) :
  Monaco.NeverThrows api ->
  Monaco.Lawful api ->
  exists e',
    Editor.applyChangesWithAnimation api env newContent (Editor.mkComponent (Some e0) flag)
    = (Resolved, Editor.mkComponent (Some e') false)
    /\ Monaco.getValue api e' = newContent.
Proof.
  intros NT law.
  pose proof (@applier_resolves E api env newContent (Editor.mkComponent (Some e0) flag) NT) as R.
  unfold Editor.applyChangesWithAnimation in *; simpl in *.
  destruct (Editor.animate api env newContent e0) as [[b|err|] e]; simpl in R;
    try discriminate R.
  destruct (@release_spec E api newContent e law) as (_ & e' & He & Hv).
  exists e'. split; [| exact Hv].
  f_equal. unfold Editor.release in *. simpl in He. injection He as <-. reflexivity.
Qed.

Lemma applier_completes_without_faults_witness :
  exists e',
    Editor.applyChangesWithAnimation SteadyBuffer.api SteadyBuffer.quiet
      "hello there" (Editor.mkComponent (Some ("hello world", 0)) false)
    = (Resolved, Editor.mkComponent (Some e') false)
    /\ fst e' = "hello there".
Proof.
  apply (@applier_completes_without_faults _ SteadyBuffer.api SteadyBuffer.quiet
           "hello there" ("hello world", 0) false
           steadyBuffer_never_throws steadyBuffer_lawful).
Defined.

Section HangFacts.

Variable E : Type.
Variable api : Monaco.Api E.
Variable env : nat -> E -> E.

Lemma call_not_hangs (A : Type) (op : E -> (Thrown + A) * E) (e : E) :
  fst (Editor.call op e) <> Hangs.
Proof. unfold Editor.call. destruct (op e) as [[err|a] e']; discriminate. Qed.

Lemma typeOne_not_hangs (c : ascii) (e : E) :
  fst (Editor.typeOne api c e) <> Hangs.
Proof.
  unfold Editor.typeOne, Editor.bind.
  destruct (Editor.call (Monaco.getPosition api) e) as [[p|err|] e1] eqn:Q.
  - apply call_not_hangs.
  - discriminate.
  - exfalso. apply (call_not_hangs (Monaco.getPosition api) e). now rewrite Q.
Qed.

(** Typing can only hang from its second unit on. *)
Lemma typeFrom_hangs (text : string) (i : nat) (e : E) :
  fst (Editor.typeFrom api env true i text e) = Hangs -> 2 <= String.length text.
Proof.
  destruct text as [|c rest]; simpl; [discriminate|].
  destruct (Editor.typeOne api c e) as [[u|err|] e1] eqn:Q.
  - destruct rest as [|c' rest']; simpl; [discriminate | lia].
  - discriminate.
  - exfalso. apply (typeOne_not_hangs c e). now rewrite Q.
Qed.

Lemma animate_hangs (newContent : string) (e0 : E) :
  fst (Editor.animate api env newContent e0) = Hangs ->
  2 <= String.length
         (Diff.replacementText (Diff.diff (Monaco.getValue api e0) newContent)).
Proof.
  unfold Editor.animate.
  destruct (String.eqb (Monaco.getValue api e0) newContent); [discriminate|].
  unfold Editor.bind, Editor.pause, Editor.ret, Editor.typeTextAnimated.
  repeat match goal with
  | |- context [Editor.call ?op ?e] =>
      let Q := fresh "Q" in
      destruct (Editor.call op e) as [[?|?|] ?] eqn:Q;
      [ clear Q | discriminate
      | intros _; exfalso; apply (call_not_hangs op e); now rewrite Q ]
  end.
  destruct (Editor.typeFrom api env true 0 _ _) as [[u|err|] e'] eqn:Q;
    try discriminate.
  intros _. eapply typeFrom_hangs. rewrite Q. reflexivity.
Qed.

End HangFacts.

(** X6. When the promise returned by the applier never settles,
    [isAnimating] stays true for good, and this only happens in the typing
    phase, after the first unit: the text to insert has at least two
    units. *)
Theorem applier_unsettled_only_in_typing
  (E : Type) (api : Monaco.Api E) (env : nat -> E -> E)
  (newContent : string) (e0 : E) (flag : bool) (c' : Editor.Component E) :
  Editor.applyChangesWithAnimation api env newContent (Editor.mkComponent (Some e0) flag)
  = (NeverSettles, c') ->
  Editor.isAnimating c' = true
  /\ 2 <= String.length
            (Diff.replacementText (Diff.diff (Monaco.getValue api e0) newContent)).
Proof.
  unfold Editor.applyChangesWithAnimation; simpl.
  destruct (Editor.animate api env newContent e0) as [[b|err|] e] eqn:Q;
    intros H; inversion H; subst.
  split; [reflexivity|].
  apply (@animate_hangs E api env newContent e0). rewrite Q. reflexivity.
Qed.

Lemma applier_unsettled_only_in_typing_witness :
  Editor.isAnimating
    (snd (Editor.applyChangesWithAnimation PlainBuffer.api PlainBuffer.quiet "hello there"
            (PlainBuffer.faulty "hello world" 9))) = true
  /\ 2 <= String.length (Diff.replacementText (Diff.diff "hello world" "hello there")).
Proof.
  apply (@applier_unsettled_only_in_typing _ PlainBuffer.api PlainBuffer.quiet
           "hello there" (PlainBuffer.mkBuffer "hello world" 0 (Some 9)) false
           (snd (Editor.applyChangesWithAnimation PlainBuffer.api PlainBuffer.quiet
                   "hello there" (PlainBuffer.faulty "hello world" 9)))).
  reflexivity.
Defined.

(** ** The [content] input and the [contentChange] output *)

(** X7. A text pushed by the parent through the [content] input while an
    animation is running, or equal to the text of the buffer, changes nothing
    and nothing is emitted on [contentChange].  Otherwise the buffer is given
    the text by [setValue], and the text is sent back on [contentChange]
    exactly when the widget has altered it: what is emitted then is the text
    of the buffer, which differs from the input.  With a widget that keeps
    the text as it is given, the buffer holds the text and nothing is
    emitted. *)
Theorem contentEffect_echoes_only_altered_text
  (E V : Type) (api : Monaco.Api E)
  (saveViewState : E -> option V) (restoreViewState : V -> E -> E)
  (newContent : string) (c : Editor.Component E) :
  (forall st e, Monaco.getValue api (restoreViewState st e) = Monaco.getValue api e) ->
  let r := EditorSync.contentEffect api saveViewState restoreViewState newContent c in
  Editor.isAnimating (fst r) = Editor.isAnimating c
  /\ (Editor.isAnimating c = true -> r = (c, []))
  /\ (Editor.isAnimating c = false ->
      forall e, Editor.editor c = Some e ->
        exists e', Editor.editor (fst r) = Some e'
          /\ (Monaco.getValue api e = newContent -> r = (c, []))
          /\ (Monaco.getValue api e <> newContent ->
                Monaco.getValue api e'
                = Monaco.getValue api (Monaco.setValue api newContent e)
                /\ (Monaco.getValue api e' = newContent -> snd r = [])
                /\ (Monaco.getValue api e' <> newContent ->
                      snd r = [Monaco.getValue api e']))
          /\ (Monaco.Keeps api newContent ->
                Monaco.getValue api e' = newContent /\ snd r = [])).
Proof.
  intros Hrestore. cbv zeta. unfold EditorSync.contentEffect.
  destruct (Editor.editor c) as [e|] eqn:He.
  - destruct (Editor.isAnimating c) eqn:Ha; cbn [negb andb].
    + split; [exact Ha|]. split; [reflexivity | discriminate].
    + destruct (String.eqb (Monaco.getValue api e) newContent) eqn:Q; cbn [negb].
      * split; [exact Ha|]. split; [discriminate|].
        intros _ e1 [= <-]. exists e. cbn [fst snd]. split; [exact He|].
        apply String.eqb_eq in Q.
        split; [reflexivity|]. split; [intros Hne; contradiction|].
        intros _. split; [exact Q | reflexivity].
      * cbn [fst snd Editor.isAnimating]. split; [reflexivity|]. split; [discriminate|].
        intros _ e1 [= <-].
        set (e1 := Monaco.setValue api newContent e).
        set (e2 := match saveViewState e with
                   | Some st => restoreViewState st e1
                   | None => e1
                   end).
        assert (Hsame : Monaco.getValue api e2 = Monaco.getValue api e1).
        { unfold e2. destruct (saveViewState e); [apply Hrestore | reflexivity]. }
        exists e2. split; [reflexivity|].
        apply String.eqb_neq in Q.
        split; [intros Heq; contradiction|].
        unfold EditorSync.changeListener. cbn [Editor.isAnimating Editor.editor].
        fold e1. rewrite Hsame.
        split; [| intros keeps; unfold e1 at 1 2; rewrite (keeps e), String.eqb_refl;
                  split; reflexivity].
        intros _. split; [reflexivity|]. split.
        -- intros Heq. rewrite Heq, String.eqb_refl. reflexivity.
        -- intros Hne. apply String.eqb_neq in Hne. rewrite Hne. reflexivity.
  - split; [reflexivity|]. split; [reflexivity|].
    intros _ e Habs. discriminate.
Qed.

(** A text with mixed line endings is pushed into a buffer that normalises
    them: the buffer holds the normalised text, and that text is sent back to
    the parent. *)
Lemma contentEffect_echoes_only_altered_text_witness :
  let normalised :=
    String "a" (String PlainBuffer.lineFeed
      (String "b" (String PlainBuffer.lineFeed (String "c" EmptyString)))) in
  let r := EditorSync.contentEffect LfBuffer.api
             (fun b : LfBuffer.Buffer => Some (snd b))
             (fun caret b => (fst b, caret))
             LfBuffer.mixedBreaks (Editor.mkComponent (Some ("typed here", 4)) false) in
  snd r = [normalised]
  /\ exists e', Editor.editor (fst r) = Some e' /\ fst e' = normalised.
Proof.
  cbv zeta.
  pose proof (@contentEffect_echoes_only_altered_text _ _ LfBuffer.api
                (fun b : LfBuffer.Buffer => Some (snd b))
                (fun caret b => (fst b, caret))
                LfBuffer.mixedBreaks (Editor.mkComponent (Some ("typed here", 4)) false)
                (fun st e => eq_refl)) as (_ & _ & H).
  destruct (H eq_refl _ eq_refl) as (e' & He' & _ & Halt & _).
  assert (Hdiff : Monaco.getValue LfBuffer.api ("typed here", 4) <> LfBuffer.mixedBreaks).
  { intros Habs. vm_compute in Habs. discriminate Habs. }
  destruct (Halt Hdiff) as (Htext & _ & Hecho).
  assert (Hnorm : Monaco.getValue LfBuffer.api e'
                  = String "a" (String PlainBuffer.lineFeed
                      (String "b" (String PlainBuffer.lineFeed (String "c" EmptyString))))).
  { rewrite Htext. vm_compute. reflexivity. }
  split.
  - rewrite <- Hnorm. apply Hecho. rewrite Hnorm.
    intros Habs. vm_compute in Habs. discriminate Habs.
  - exists e'. split; [exact He' | exact Hnorm].
Defined.

(** ** What crosses the frame boundary *)

(** Induction on values, through the items of arrays and the members of
    objects. *)
Section JsInduction.

Variable P : Js.JsValue -> Prop.
Hypothesis Hleaf : forall v, match v with
                             | Js.JsArray _ | Js.JsObject _ => True
                             | _ => P v
                             end.
Hypothesis Harray : forall items, Forall P items -> P (Js.JsArray items).
Hypothesis Hobject :
  forall props, Forall (fun kv => P (snd kv)) props -> P (Js.JsObject props).

Fixpoint JsValue_induction (v : Js.JsValue) {struct v} : P v :=
  match v as v0 return P v0 with
  | Js.JsArray items =>
      Harray
        ((fix go (l : list Js.JsValue) : Forall P l :=
            match l with
            | [] => Forall_nil P
            | x :: rest => Forall_cons x (JsValue_induction x) (go rest)
            end) items)
  | Js.JsObject props =>
      Hobject
        ((fix go (l : list (string * Js.JsValue)) : Forall (fun kv => P (snd kv)) l :=
            match l with
            | [] => Forall_nil _
            | kv :: rest => Forall_cons kv (JsValue_induction (snd kv)) (go rest)
            end) props)
  | Js.JsUndefined => Hleaf Js.JsUndefined
  | Js.JsNull => Hleaf Js.JsNull
  | Js.JsBool b => Hleaf (Js.JsBool b)
  | Js.JsNumber n => Hleaf (Js.JsNumber n)
  | Js.JsNonFinite => Hleaf Js.JsNonFinite
  | Js.JsBigInt n => Hleaf (Js.JsBigInt n)
  | Js.JsString s => Hleaf (Js.JsString s)
  | Js.JsFunction => Hleaf Js.JsFunction
  | Js.JsError m st => Hleaf (Js.JsError m st)
  | Js.JsCircular => Hleaf Js.JsCircular
  end.

End JsInduction.

Lemma stringifyParse_array_nil (inside : bool) :
  Js.stringifyParse inside (Js.JsArray []) = Some (Some (Js.JsArray [])).
Proof. reflexivity. Qed.

(** The serialisation of an array, one item at a time. *)
Lemma stringifyParse_array_cons (inside : bool) (x : Js.JsValue) (rest : list Js.JsValue) :
  Js.stringifyParse inside (Js.JsArray (x :: rest))
  = match Js.stringifyParse true x, Js.stringifyParse inside (Js.JsArray rest) with
    | Some (Some y), Some (Some (Js.JsArray ys)) => Some (Some (Js.JsArray (y :: ys)))
    | Some None, Some (Some (Js.JsArray ys)) => Some (Some (Js.JsArray (Js.JsNull :: ys)))
    | _, _ => None
    end.
Proof.
  simpl. destruct (Js.stringifyParse true x) as [[y|]|];
    try match goal with
    | |- context [?f rest] => is_fix f; destruct (f rest)
    end; reflexivity.
Qed.

Lemma stringifyParse_array_shape (inside : bool) (items : list Js.JsValue) (r : Js.JsValue) :
  Js.stringifyParse inside (Js.JsArray items) = Some (Some r) ->
  exists ys, r = Js.JsArray ys.
Proof.
  simpl. match goal with
         | |- context [match ?t with Some _ => _ | None => _ end] => destruct t
         end; intros [= <-]; eauto.
Qed.

Lemma stringifyParse_object_nil (inside : bool) :
  Js.stringifyParse inside (Js.JsObject []) = Some (Some (Js.JsObject [])).
Proof. reflexivity. Qed.

(** The serialisation of an object, one member at a time. *)
Lemma stringifyParse_object_cons (inside : bool) (k : string) (x : Js.JsValue)
      (rest : list (string * Js.JsValue)) :
  Js.stringifyParse inside (Js.JsObject ((k, x) :: rest))
  = match Js.stringifyParse true x, Js.stringifyParse inside (Js.JsObject rest) with
    | Some (Some y), Some (Some (Js.JsObject ys)) => Some (Some (Js.JsObject ((k, y) :: ys)))
    | Some None, Some (Some (Js.JsObject ys)) => Some (Some (Js.JsObject ys))
    | _, _ => None
    end.
Proof.
  simpl. destruct (Js.stringifyParse true x) as [[y|]|];
    try match goal with
    | |- context [?f rest] => is_fix f; destruct (f rest)
    end; reflexivity.
Qed.

Lemma plain_array_cons (y : Js.JsValue) (ys : list Js.JsValue) :
  JsonData.plain (Js.JsArray (y :: ys))
  = JsonData.plain y && JsonData.plain (Js.JsArray ys).
Proof. reflexivity. Qed.

Lemma plain_object_cons (k : string) (y : Js.JsValue) (ys : list (string * Js.JsValue)) :
  JsonData.plain (Js.JsObject ((k, y) :: ys))
  = JsonData.plain y && JsonData.plain (Js.JsObject ys).
Proof. reflexivity. Qed.

Lemma stringifyParse_plain (v : Js.JsValue) :
  forall inside r, Js.stringifyParse inside v = Some (Some r) -> JsonData.plain r = true.
Proof.
  revert v.
  apply (@JsValue_induction
           (fun v => forall inside r,
                Js.stringifyParse inside v = Some (Some r) -> JsonData.plain r = true)).
  - intros v. destruct v; try exact I; intros inside r; simpl;
      try (destruct inside; discriminate); try discriminate;
      intros [= <-]; reflexivity.
  - intros items H. induction H as [|x rest Hx Hrest IH]; intros inside r.
    + rewrite stringifyParse_array_nil. intros [= <-]. reflexivity.
    + rewrite stringifyParse_array_cons.
      destruct (Js.stringifyParse true x) as [[y|]|] eqn:Qx; try discriminate;
        destruct (Js.stringifyParse inside (Js.JsArray rest)) as [[[]|]|] eqn:Qr;
        try discriminate; intros [= <-]; rewrite plain_array_cons;
        rewrite (IH _ _ Qr).
      * rewrite (Hx _ _ Qx). reflexivity.
      * reflexivity.
  - intros props H. induction H as [|[k x] rest Hx Hrest IH]; intros inside r.
    + rewrite stringifyParse_object_nil. intros [= <-]. reflexivity.
    + rewrite stringifyParse_object_cons. simpl in Hx.
      destruct (Js.stringifyParse true x) as [[y|]|] eqn:Qx; try discriminate;
        destruct (Js.stringifyParse inside (Js.JsObject rest)) as [[[]|]|] eqn:Qr;
        try discriminate; intros [= <-].
      * rewrite plain_object_cons, (IH _ _ Qr), (Hx _ _ Qx). reflexivity.
      * apply (IH _ _ Qr).
Qed.

(** X8. Whatever a console call is given among the values of [JsValue]
    (functions, bigints, cyclic structures, [undefined], and errors whose
    message and stack are strings), every serialised argument is plain data:
    null, a boolean, a number, a string, or an array or object of such.  The
    message and the stack of an error are copied as they are, without the
    round trip through JSON: the statement does not reach an error whose
    message or stack is not a string. *)
Theorem serializeArg_plain (arg : Js.JsValue) :
  JsonData.plain (Interceptor.serializeArg arg) = true.
Proof.
  unfold Interceptor.serializeArg.
  destruct (Js.stringifyParse false arg) as [[clone|]|] eqn:Q;
    destruct arg; try reflexivity; apply (stringifyParse_plain _ _ Q).
Qed.

Lemma plain_stringifyParse (v : Js.JsValue) :
  JsonData.plain v = true ->
  forall inside, Js.stringifyParse inside v = Some (Some v).
Proof.
  revert v.
  apply (@JsValue_induction
           (fun v => JsonData.plain v = true ->
                     forall inside, Js.stringifyParse inside v = Some (Some v))).
  - intros v. destruct v; try exact I; simpl; intros H inside;
      try discriminate; reflexivity.
  - intros items H. induction H as [|x rest Hx Hrest IH]; intros Hp inside.
    + reflexivity.
    + rewrite plain_array_cons in Hp. apply andb_true_iff in Hp. destruct Hp as [Hp1 Hp2].
      rewrite stringifyParse_array_cons, (Hx Hp1 true), (IH Hp2 inside). reflexivity.
  - intros props H. induction H as [|[k x] rest Hx Hrest IH]; intros Hp inside.
    + reflexivity.
    + rewrite plain_object_cons in Hp. apply andb_true_iff in Hp. destruct Hp as [Hp1 Hp2].
      simpl in Hx.
      rewrite stringifyParse_object_cons, (Hx Hp1 true), (IH Hp2 inside). reflexivity.
Qed.

(** X9. Plain data goes through the serialisation unchanged. *)
Theorem serializeArg_keeps_plain_data (arg : Js.JsValue) :
  JsonData.plain arg = true -> Interceptor.serializeArg arg = arg.
Proof.
  intros H. unfold Interceptor.serializeArg.
  rewrite (plain_stringifyParse _ H false).
  destruct arg; try reflexivity; discriminate H.
Qed.

Lemma serializeArg_keeps_plain_data_witness :
  let v := Js.JsObject [("user", Js.JsString "ann");
                        ("tags", Js.JsArray [Js.JsNumber 1; Js.JsNull; Js.JsBool true])] in
  Interceptor.serializeArg v = v.
Proof.
  cbv zeta.
  apply (serializeArg_keeps_plain_data
           (Js.JsObject [("user", Js.JsString "ann");
                         ("tags", Js.JsArray [Js.JsNumber 1; Js.JsNull; Js.JsBool true])])).
  reflexivity.
Defined.

(** X10. From a console call to the log store: the message [postLog] posts
    for a call of type [type] with arguments [args], once received from the
    content window of the preview frame, adds exactly one entry to the log
    store, made of that type, the serialised arguments in order and the time
    stamp; received from any other window it changes nothing. *)
Theorem relay_end_to_end (now type : string) (args : list Js.JsValue)
        (frame : App.Window) (s : App.AppState) :
  App.previewIframe_contentWindow s = Some frame ->
  App.onMessage (App.mkMessageEvent (Some frame) (Interceptor.postLog now type args)) s
  = inr (App.set_consoleLogs
           (App.consoleLogs s
            ++ [Js.JsObject [("type", Js.JsString type);
                             ("data", Js.JsArray (map Interceptor.serializeArg args));
                             ("timestamp", Js.JsString now)]]) s)
  /\ forall other,
       other <> Some frame ->
       App.onMessage (App.mkMessageEvent other (Interceptor.postLog now type args)) s
       = inr s.
Proof.
  intros Hframe. unfold App.onMessage; simpl. rewrite Hframe. split.
  - rewrite Nat.eqb_refl. reflexivity.
  - intros [w|] Hother; simpl; [|reflexivity].
    destruct (w =? frame) eqn:Q; [|reflexivity].
    apply Nat.eqb_eq in Q. congruence.
Qed.

Lemma relay_end_to_end_witness :
  let s := App.initialState App.defaultFiles 7 in
  App.onMessage
    (App.mkMessageEvent (Some 7)
       (Interceptor.postLog "t0" "error" [Js.JsString "failed:"; Js.JsError "boom" "at f"])) s
  = inr (App.set_consoleLogs
           [Js.JsObject
              [("type", Js.JsString "error");
               ("data", Js.JsArray
                          [Js.JsString "failed:";
                           Js.JsObject [("__error", Js.JsBool true);
                                        ("message", Js.JsString "boom");
                                        ("stack", Js.JsString "at f")]]);
               ("timestamp", Js.JsString "t0")]] s).
Proof.
  cbv zeta.
  exact (proj1 (relay_end_to_end "t0" "error"
                  [Js.JsString "failed:"; Js.JsError "boom" "at f"]
                  (App.initialState App.defaultFiles 7) (frame := 7) eq_refl)).
Defined.

Lemma onMessage_cases (event : App.MessageEvent) (s : App.AppState) :
  match App.onMessage event s with
  | inl _ => Relay.fromWindow (App.previewIframe_contentWindow s) event = true
  | inr s' =>
      s' = s
      \/ (Relay.fromWindow (App.previewIframe_contentWindow s) event = true
          /\ exists entry, s' = App.set_consoleLogs (App.consoleLogs s ++ [entry]) s)
  end.
Proof.
  unfold App.onMessage, Relay.fromWindow.
  destruct (match App.source event, App.previewIframe_contentWindow s with
            | Some w, Some w' => w =? w'
            | None, None => true
            | _, _ => false
            end) eqn:Q; simpl; [|left; reflexivity].
  destruct (Js.isNullish (App.data event)); [reflexivity|].
  destruct (Js.isString _ _); [right; split; eauto | left; reflexivity].
Qed.

(** X11. Over any sequence of messages, the listener only ever appends to
    the log store: the entries present before stay first and in order, at
    most one entry is added per message that comes from the preview frame,
    and nothing but the log store changes.  A sequence without a message from
    the frame leaves the state as it was. *)
Theorem deliver_appends_only (events : list App.MessageEvent) (s : App.AppState) :
  let frame := App.previewIframe_contentWindow s in
  let s' := Relay.deliver events s in
  (exists added,
      s' = App.set_consoleLogs (App.consoleLogs s ++ added) s
      /\ List.length added <= List.length (filter (Relay.fromWindow frame) events))
  /\ (forallb (fun event => negb (Relay.fromWindow frame event)) events = true -> s' = s).
Proof.
  cbv zeta. revert s. induction events as [|event events IH]; intros s.
  - simpl. split; [|reflexivity].
    exists []. rewrite app_nil_r. split; [destruct s; reflexivity | simpl; lia].
  - simpl. pose proof (onMessage_cases event s) as C.
    destruct (App.onMessage event s) as [err|s1].
    + destruct (IH s) as ((added & Hs & Hlen) & Hnone).
      rewrite C. split.
      * exists added. split; [exact Hs | simpl; lia].
      * simpl. discriminate.
    + destruct C as [->|(Hfrom & entry & ->)].
      * destruct (IH s) as ((added & Hs & Hlen) & Hnone). split.
        -- exists added. split; [exact Hs|].
           destruct (Relay.fromWindow _ event); simpl; lia.
        -- intros H. apply andb_true_iff in H. apply Hnone. tauto.
      * destruct (IH (App.set_consoleLogs (App.consoleLogs s ++ [entry]) s))
          as ((added & Hs & Hlen) & _).
        simpl in Hs, Hlen. rewrite Hfrom. split.
        -- exists (entry :: added). split.
           ++ rewrite Hs. simpl. rewrite <- app_assoc. reflexivity.
           ++ simpl. lia.
        -- simpl. discriminate.
Qed.

(** ** The console view *)

(** X12. What the console shows for a call whose arguments are strings and
    errors: the strings as they are and each error by its message alone,
    separated by single spaces, however other values would be printed. *)
Theorem formatLog_strings_and_errors
  (stringify : Js.JsValue -> option string) (toText : Js.JsValue -> string)
  (args : list Js.JsValue) :
  Forall (fun arg => match arg with
                     | Js.JsString _ | Js.JsError _ _ => True
                     | _ => False
                     end) args ->
  Console.formatLog stringify toText (map Interceptor.serializeArg args)
  = Console.join " " (map (fun arg => match arg with
                                      | Js.JsString text => text
                                      | Js.JsError message _ => message
                                      | _ => ""
                                      end) args).
Proof.
  intros H. unfold Console.formatLog. f_equal.
  rewrite map_map. apply map_ext_in. intros arg Hin.
  rewrite Forall_forall in H. specialize (H arg Hin).
  destruct arg; try contradiction; reflexivity.
Qed.

Lemma formatLog_strings_and_errors_witness :
  Console.formatLog (fun _ => Some "{}") (fun _ => "[object Object]")
    (map Interceptor.serializeArg
         [Js.JsString "failed:"; Js.JsError "boom" "at f (x.js:1)"])
  = "failed: boom".
Proof.
  apply (@formatLog_strings_and_errors (fun _ => Some "{}") (fun _ => "[object Object]")
           [Js.JsString "failed:"; Js.JsError "boom" "at f (x.js:1)"]).
  repeat constructor.
Defined.

Lemma deliver_appends_only_witness :
  let s := App.initialState App.defaultFiles 7 in
  let msg := Interceptor.postLog "t0" "log" [Js.JsString "spoofed"] in
  Relay.deliver [App.mkMessageEvent (Some 8) msg; App.mkMessageEvent None msg] s = s.
Proof.
  cbv zeta.
  apply (proj2 (deliver_appends_only
                  [App.mkMessageEvent (Some 8)
                     (Interceptor.postLog "t0" "log" [Js.JsString "spoofed"]);
                   App.mkMessageEvent None
                     (Interceptor.postLog "t0" "log" [Js.JsString "spoofed"])]
                  (App.initialState App.defaultFiles 7))).
  reflexivity.
Defined.

(** ** The AI service *)

(** X13. Setting the same key twice is the same as setting it once: a blank
    key clears the client both times, and a key that is already stored is
    left alone, whether or not a client could be built for it. *)
Theorem setApiKey_idempotent (construct : string -> bool) (key : string)
        (svc : Gemini.GeminiService) :
  GeminiKeys.setApiKey construct key (GeminiKeys.setApiKey construct key svc)
  = GeminiKeys.setApiKey construct key svc.
Proof.
  unfold GeminiKeys.setApiKey.
  destruct (JsString.truthy key) eqn:K; simpl; [|reflexivity].
  destruct (JsString.truthy (JsString.trim key)) eqn:T; simpl; [|reflexivity].
  destruct (GeminiKeys.isStoredKey key (Gemini.apiKeyInternal svc)) eqn:S; simpl.
  - rewrite S. reflexivity.
  - rewrite String.eqb_refl. reflexivity.
Qed.

Lemma no_key_error_kept :
  Gemini.handleError (ErrorObject Gemini.MSG_NO_KEY) = ErrorObject Gemini.MSG_NO_KEY.
Proof. vm_compute. reflexivity. Qed.

(** X14. Once a blank key has been set, each of the four calls of the
    service fails with the message that no key is set, whatever the remote
    model would have answered. *)
Theorem blank_key_disables_service
  (construct : string -> bool) (key : string) (svc : Gemini.GeminiService)
  (b1 : Thrown + Gemini.AiCodeResponse) (b2 b3 : Thrown + string)
  (b4 : Thrown + (string * option (list GeminiKeys.GroundingChunk))) :
  JsString.truthy (JsString.trim key) = false ->
  let svc' := GeminiKeys.setApiKey construct key svc in
  Gemini.getCodeModification svc' b1 = inl (ErrorObject Gemini.MSG_NO_KEY)
  /\ GeminiKeys.getGenericCodeAnalysis svc' b2 = inl (ErrorObject Gemini.MSG_NO_KEY)
  /\ GeminiKeys.analyzeImage svc' b3 = inl (ErrorObject Gemini.MSG_NO_KEY)
  /\ GeminiKeys.getGroundedResponse svc' b4 = inl (ErrorObject Gemini.MSG_NO_KEY).
Proof.
  intros Hblank. cbv zeta.
  assert (Hsvc : GeminiKeys.setApiKey construct key svc = Gemini.mkService false None).
  { unfold GeminiKeys.setApiKey. rewrite Hblank.
    rewrite andb_false_r, orb_true_r. reflexivity. }
  rewrite Hsvc.
  unfold Gemini.getCodeModification, GeminiKeys.getGenericCodeAnalysis,
    GeminiKeys.analyzeImage, GeminiKeys.getGroundedResponse.
  cbn [Gemini.ai]. rewrite no_key_error_kept. repeat split.
Qed.

Lemma blank_key_disables_service_witness :
  Gemini.getCodeModification
    (GeminiKeys.setApiKey (fun _ => true) "   " (Gemini.mkService true (Some "k")))
    (inr (Gemini.mkResponse "done" None None None))
  = inl (ErrorObject Gemini.MSG_NO_KEY).
Proof.
  exact (proj1 (@blank_key_disables_service (fun _ => true) "   "
                  (Gemini.mkService true (Some "k"))
                  (inr (Gemini.mkResponse "done" None None None))
                  (inl NotAnError) (inl NotAnError) (inl NotAnError) eq_refl)).
Defined.

Lemma handleError_classes (error : Thrown) :
  exists message,
    Gemini.handleError error = ErrorObject message
    /\ (message = Gemini.MSG_BAD_KEY \/ message = Gemini.MSG_BAD_JSON
        \/ message = Gemini.MSG_GENERIC
        \/ JsString.includes message "Ключ API не установлен" = true).
Proof.
  destruct error as [message|]; simpl; [|eauto 6].
  destruct (JsString.includes message "API key not valid"); [eauto 6|].
  destruct (JsString.includes message "JSON"); [eauto 6|].
  destruct (JsString.includes message "Ключ API не установлен") eqn:Q; eauto 6.
Qed.

(** X15. Whichever of the four calls fails, and however the request failed,
    what is thrown is an error whose message is the invalid-key message, the
    malformed-answer message, the generic message, or one that says that no
    key is set. *)
Theorem service_failures_classified
  (svc : Gemini.GeminiService)
  (b1 : Thrown + Gemini.AiCodeResponse) (b2 b3 : Thrown + string)
  (b4 : Thrown + (string * option (list GeminiKeys.GroundingChunk)))
  (err : Thrown) :
  Gemini.getCodeModification svc b1 = inl err
  \/ GeminiKeys.getGenericCodeAnalysis svc b2 = inl err
  \/ GeminiKeys.analyzeImage svc b3 = inl err
  \/ GeminiKeys.getGroundedResponse svc b4 = inl err ->
  exists message,
    err = ErrorObject message
    /\ (message = Gemini.MSG_BAD_KEY \/ message = Gemini.MSG_BAD_JSON
        \/ message = Gemini.MSG_GENERIC
        \/ JsString.includes message "Ключ API не установлен" = true).
Proof.
  unfold Gemini.getCodeModification, GeminiKeys.getGenericCodeAnalysis,
    GeminiKeys.analyzeImage, GeminiKeys.getGroundedResponse.
  assert (Hno : exists message,
             ErrorObject Gemini.MSG_NO_KEY = ErrorObject message
             /\ (message = Gemini.MSG_BAD_KEY \/ message = Gemini.MSG_BAD_JSON
                 \/ message = Gemini.MSG_GENERIC
                 \/ JsString.includes message "Ключ API не установлен" = true)).
  { exists Gemini.MSG_NO_KEY. split; [reflexivity|]. right; right; right.
    vm_compute. reflexivity. }
  destruct (Gemini.ai svc).
  - intros [H|[H|[H|H]]];
      [destruct b1 as [e|r] | destruct b2 as [e|r] | destruct b3 as [e|r]
       | destruct b4 as [e|[r f]]];
      try discriminate H; injection H as <-; apply handleError_classes.
  - rewrite no_key_error_kept. intros [H|[H|[H|H]]]; injection H as <-; exact Hno.
Qed.

Lemma service_failures_classified_witness :
  exists message,
    ErrorObject Gemini.MSG_BAD_JSON = ErrorObject message
    /\ (message = Gemini.MSG_BAD_KEY \/ message = Gemini.MSG_BAD_JSON
        \/ message = Gemini.MSG_GENERIC
        \/ JsString.includes message "Ключ API не установлен" = true).
Proof.
  apply (@service_failures_classified (Gemini.mkService true (Some "k"))
           (inl (ErrorObject "Unexpected token < in JSON at position 0"))
           (inl NotAnError) (inl NotAnError) (inl NotAnError)
           (ErrorObject Gemini.MSG_BAD_JSON)).
  left. reflexivity.
Defined.

(** ** Persistence *)

Lemma lookup_put_same (key value : string) (l : list (string * string)) :
  Storage.lookup key (Storage.put key value l) = Some value.
Proof.
  induction l as [|[k v] l IH]; simpl.
  - rewrite String.eqb_refl. reflexivity.
  - destruct (String.eqb k key) eqn:Q; simpl; rewrite Q; auto.
Qed.

Lemma lookup_put_other (key other value : string) (l : list (string * string)) :
  other <> key ->
  Storage.lookup other (Storage.put key value l) = Storage.lookup other l.
Proof.
  intros Hne. induction l as [|[k v] l IH]; simpl.
  - replace (String.eqb key other) with false; [reflexivity|].
    symmetry; apply String.eqb_neq; congruence.
  - destruct (String.eqb k key) eqn:Q; simpl.
    + apply String.eqb_eq in Q. subst k.
      replace (String.eqb key other) with false; [reflexivity|].
      symmetry; apply String.eqb_neq; congruence.
    + rewrite IH. reflexivity.
Qed.

Lemma lookup_drop_same (key : string) (l : list (string * string)) :
  Storage.lookup key (Storage.drop key l) = None.
Proof.
  induction l as [|[k v] l IH]; simpl; [reflexivity|].
  destruct (String.eqb k key) eqn:Q; simpl; [exact IH | rewrite Q; exact IH].
Qed.

Lemma lookup_drop_other (key other : string) (l : list (string * string)) :
  other <> key ->
  Storage.lookup other (Storage.drop key l) = Storage.lookup other l.
Proof.
  intros Hne. induction l as [|[k v] l IH]; simpl; [reflexivity|].
  destruct (String.eqb k key) eqn:Q; simpl.
  - apply String.eqb_eq in Q. subst k.
    replace (String.eqb key other) with false; [exact IH|].
    symmetry; apply String.eqb_neq; congruence.
  - rewrite IH. reflexivity.
Qed.

(** X16. A stored text that does not parse heals itself: [loadFromStorage]
    returns the default value and removes the entry, leaving every other key
    as it was; the next load finds nothing under the key, returns the default
    again and changes nothing. *)
Theorem loadFromStorage_discards_corrupted
  (T : Type) (parse : string -> option T)
  (key value : string) (defaultValue : T) (st : Storage.LocalStorage) :
  Storage.denied st = false ->
  Storage.lookup key (Storage.entries st) = Some value ->
  JsString.truthy value = true ->
  parse value = None ->
  let st' := snd (Storage.loadFromStorage parse key defaultValue st) in
  fst (Storage.loadFromStorage parse key defaultValue st) = defaultValue
  /\ Storage.getItem key st' = inr None
  /\ (forall other, other <> key -> Storage.getItem other st' = Storage.getItem other st)
  /\ Storage.loadFromStorage parse key defaultValue st' = (defaultValue, st').
Proof.
  intros Hd Hl Ht Hp. cbv zeta.
  assert (Hload : Storage.loadFromStorage parse key defaultValue st
                  = (defaultValue,
                     Storage.mkStorage (Storage.drop key (Storage.entries st)) false)).
  { unfold Storage.loadFromStorage, Storage.getItem. rewrite Hd, Hl, Ht, Hp.
    unfold Storage.discard, Storage.removeItem. rewrite Hd. reflexivity. }
  rewrite Hload. cbn [fst snd].
  split; [reflexivity|]. split; [| split].
  - unfold Storage.getItem. cbn [Storage.denied Storage.entries].
    rewrite lookup_drop_same. reflexivity.
  - intros other Hne. unfold Storage.getItem. cbn [Storage.denied Storage.entries].
    rewrite Hd, lookup_drop_other by assumption. reflexivity.
  - unfold Storage.loadFromStorage, Storage.getItem. cbn [Storage.denied Storage.entries].
    rewrite lookup_drop_same. reflexivity.
Qed.

Lemma loadFromStorage_discards_corrupted_witness :
  let st := Storage.mkStorage [(Storage.THEME_STORAGE_KEY, "dark");
                               (Storage.API_KEY_STORAGE_KEY, "k")] false in
  let parse := fun text : string =>
                 if String.eqb text "k" then Some "k" else None in
  fst (Storage.loadFromStorage parse Storage.THEME_STORAGE_KEY "light" st) = "light"
  /\ Storage.getItem Storage.THEME_STORAGE_KEY
       (snd (Storage.loadFromStorage parse Storage.THEME_STORAGE_KEY "light" st))
     = inr None.
Proof.
  cbv zeta.
  pose proof (@loadFromStorage_discards_corrupted string
                (fun text : string => if String.eqb text "k" then Some "k" else None)
                Storage.THEME_STORAGE_KEY "dark" "light"
                (Storage.mkStorage [(Storage.THEME_STORAGE_KEY, "dark");
                                    (Storage.API_KEY_STORAGE_KEY, "k")] false)
                eq_refl eq_refl eq_refl eq_refl) as (H1 & H2 & _).
  split; [exact H1 | exact H2].
Defined.

(** X17. [saveToStorage] of a text that is not empty and parses to a value.
    When the browser accepts the write (access is not denied and the entries
    stay within the quota), [loadFromStorage] under the same key returns that
    value and leaves the storage alone.  When it refuses the write (access
    denied, or quota exceeded), the failure is swallowed and the storage is
    as before, so that a load returns what it returned before the save.  In
    both cases the entries of all other keys are as before; in particular
    saving the theme or the key never changes the files that
    [loadFilesFromStorage] returns. *)
Theorem storage_round_trip
  (T : Type) (parse : string -> option T) (quota : nat)
  (key text : string) (v defaultValue : T) (st : Storage.LocalStorage) :
  JsString.truthy text = true ->
  parse text = Some v ->
  let st' := Storage.saveToStorage quota key text st in
  (Storage.denied st = false ->
   Storage.used (Storage.put key text (Storage.entries st)) <= quota ->
   Storage.getItem key st' = inr (Some text)
   /\ Storage.loadFromStorage parse key defaultValue st' = (v, st'))
  /\ (Storage.denied st = true
      \/ quota < Storage.used (Storage.put key text (Storage.entries st)) ->
      st' = st)
  /\ (forall other, other <> key -> Storage.getItem other st' = Storage.getItem other st)
  /\ (key = Storage.THEME_STORAGE_KEY \/ key = Storage.API_KEY_STORAGE_KEY ->
      forall parseFiles,
        Storage.loadFilesFromStorage parseFiles st'
        = Storage.loadFilesFromStorage parseFiles st).
Proof.
  intros Ht Hp. cbv zeta.
  assert (Hother : forall other, other <> key ->
            Storage.getItem other (Storage.saveToStorage quota key text st)
            = Storage.getItem other st).
  { intros other Hne. unfold Storage.saveToStorage, Storage.setItem.
    destruct (Storage.denied st) eqn:Hd; [reflexivity|]. cbv zeta.
    destruct (quota <? Storage.used (Storage.put key text (Storage.entries st)));
      [reflexivity|].
    unfold Storage.getItem; simpl. rewrite Hd. now rewrite lookup_put_other. }
  split; [| split; [| split]].
  - intros Hd Hfits. unfold Storage.saveToStorage, Storage.setItem. rewrite Hd. cbv zeta.
    replace (quota <? Storage.used (Storage.put key text (Storage.entries st))) with false
      by (symmetry; apply Nat.ltb_ge; exact Hfits).
    unfold Storage.loadFromStorage, Storage.getItem; simpl.
    rewrite lookup_put_same, Ht, Hp. split; reflexivity.
  - intros Hrefused. unfold Storage.saveToStorage, Storage.setItem.
    destruct (Storage.denied st) eqn:Hd; [reflexivity|]. cbv zeta.
    destruct Hrefused as [Habs|Hfull]; [discriminate|].
    apply Nat.ltb_lt in Hfull. rewrite Hfull. reflexivity.
  - exact Hother.
  - intros Hkey parseFiles. unfold Storage.loadFilesFromStorage.
    rewrite Hother; [reflexivity|].
    destruct Hkey as [->| ->]; vm_compute; discriminate.
Qed.

(** The theme is saved into an empty storage with room for it, and loaded
    again. *)
Lemma storage_round_trip_witness :
  let st := Storage.saveToStorage 64 Storage.THEME_STORAGE_KEY "dark"
              (Storage.mkStorage [] false) in
  Storage.loadFromStorage (fun text => Some text) Storage.THEME_STORAGE_KEY "light" st
  = ("dark", st).
Proof.
  cbv zeta.
  destruct (@storage_round_trip string (fun text => Some text) 64
              Storage.THEME_STORAGE_KEY "dark" "dark" "light"
              (Storage.mkStorage [] false) eq_refl eq_refl) as (Haccepted & _).
  refine (proj2 (Haccepted eq_refl _)). vm_compute. lia.
Defined.

(** The same save when the quota leaves no room for the new value: the
    write is refused, nothing is reported to the caller, and the load returns
    the theme stored before. *)
Example save_over_quota_keeps_old_value :
  let st := Storage.mkStorage [(Storage.THEME_STORAGE_KEY, "light")] false in
  let st' := Storage.saveToStorage 30 Storage.THEME_STORAGE_KEY "dark-high-contrast" st in
  st' = st
  /\ fst (Storage.loadFromStorage (fun text => Some text)
            Storage.THEME_STORAGE_KEY "none" st') = "light".
Proof. cbv zeta. split; reflexivity. Qed.

(** ** The AI actions of the context menu *)

Lemma prefix_append (s rest : string) : String.prefix s (s ++ rest) = true.
Proof.
  induction s as [|c s IH]; simpl; [destruct rest; reflexivity|].
  destruct (Ascii.ascii_dec c c); [exact IH | contradiction].
Qed.

Lemma includes_cons (c : ascii) (t needle : string) :
  JsString.includes (String c t) needle
  = if String.prefix needle (String c t) then true else JsString.includes t needle.
Proof. reflexivity. Qed.

Lemma includes_prefix (s rest : string) : JsString.includes (s ++ rest) s = true.
Proof.
  pose proof (prefix_append s rest) as H.
  destruct (s ++ rest)%string as [|c t] eqn:Q.
  - cbn [JsString.includes]. rewrite H. reflexivity.
  - rewrite includes_cons, H. reflexivity.
Qed.

Lemma includes_skip (before t s : string) :
  JsString.includes t s = true -> JsString.includes (before ++ t) s = true.
Proof.
  intros H. induction before as [|c before IH]; [exact H|].
  change (String c before ++ t)%string with (String c (before ++ t)).
  rewrite includes_cons, IH.
  destruct (String.prefix s (String c (before ++ t))); reflexivity.
Qed.

(** X18. An AI action of the context menu always hides the menu and never
    touches the files, the tabs or the active file; with an empty selection
    it does nothing else.  On a selection that is not empty it shows the AI
    pane on its assistant view, puts a prompt that contains the selected code
    in the prompt field, asks the service about the selected code with the
    language of the active file (or [code] when there is none), and ends with
    the loading flag down and with what that call gave: its answer, which is
    the trimmed text of the model, as explanation and no error; or the
    message of the error it threw, which is not empty, as error and no
    explanation.  Without a client the error is the missing-key message. *)
Theorem runAiContextMenuAction_outcome
  (svc : Gemini.GeminiService)
  (backend : string -> string -> Ui.AiContextMenuAction -> Thrown + string)
  (action : Ui.AiContextMenuAction) (ui : Ui.UiState) (s : App.AppState) :
  let r := Ui.runAiContextMenuAction svc backend action ui s in
  let code := Ui.contextMenuSelection ui in
  let language :=
    Ui.orElse (match App.activeFile s with Some f => App.language f | None => "" end)
              "code" in
  Ui.isContextMenuVisible (fst r) = false
  /\ App.files (snd r) = App.files s
  /\ App.openFiles (snd r) = App.openFiles s
  /\ App.activeFile (snd r) = App.activeFile s
  /\ (code = "" -> snd r = s)
  /\ (code <> "" ->
      Ui.isAiPaneVisible (fst r) = true
      /\ Ui.activeAiView (fst r) = "ai"
      /\ JsString.includes (App.aiPrompt (snd r)) code = true
      /\ App.isAiLoading (snd r) = false
      /\ match GeminiKeys.getGenericCodeAnalysis svc (backend code language action) with
         | inr answer =>
             App.aiExplanation (snd r) = answer /\ App.aiError (snd r) = ""
         | inl err =>
             App.aiExplanation (snd r) = ""
             /\ err = ErrorObject (App.aiError (snd r))
             /\ App.aiError (snd r) <> ""
         end
      /\ (Gemini.ai svc = true ->
          forall text, backend code language action = inr text ->
            App.aiExplanation (snd r) = JsString.trim text /\ App.aiError (snd r) = "")
      /\ (Gemini.ai svc = false ->
          App.aiExplanation (snd r) = "" /\ App.aiError (snd r) = Gemini.MSG_NO_KEY)).
Proof.
  cbv zeta. unfold Ui.runAiContextMenuAction. cbn [Ui.contextMenuSelection].
  destruct (Ui.contextMenuSelection ui) as [|c code] eqn:Hsel.
  - simpl. do 4 (split; [reflexivity|]).
    split; [intros _; reflexivity | intros Habs; contradiction].
  - cbn [JsString.truthy negb].
    set (language := Ui.orElse _ "code").
    assert (Hprompt : forall st,
      JsString.includes
        (App.aiPrompt (App.set_aiPrompt (Ui.promptFor action language (String c code)) st))
        (String c code) = true).
    { intros st. unfold Ui.promptFor. cbn [App.aiPrompt App.set_aiPrompt].
      do 6 apply includes_skip. apply includes_prefix. }
    destruct (GeminiKeys.getGenericCodeAnalysis svc
                (backend (String c code) language action)) as [err|response] eqn:Q;
      cbn [fst snd]; (split; [reflexivity|]); (split; [reflexivity|]);
      (split; [reflexivity|]); (split; [reflexivity|]);
      (split; [discriminate|]); intros _;
      (split; [reflexivity|]); (split; [reflexivity|]);
      (split; [apply Hprompt|]); (split; [reflexivity|]).
    + assert (Herr : exists message, err = ErrorObject message /\ message <> "").
      { unfold GeminiKeys.getGenericCodeAnalysis in Q.
        destruct (Gemini.ai svc).
        - destruct (backend _ _ _) as [e|t]; [|discriminate].
          injection Q as <-. apply handleError_message.
        - destruct (handleError_message (ErrorObject Gemini.MSG_NO_KEY))
            as (m & Hm & Hne).
          exists m. split; [congruence | exact Hne]. }
      destruct Herr as (message & -> & Hne).
      split; [split; [reflexivity | split; [reflexivity | exact Hne]]|].
      unfold GeminiKeys.getGenericCodeAnalysis in Q. split.
      * intros Hai text Hb. rewrite Hai, Hb in Q. discriminate.
      * intros Hai. rewrite Hai in Q. split; [reflexivity|].
        cbn [App.aiError App.set_isAiLoading App.surface App.set_aiError].
        rewrite no_key_error_kept in Q. congruence.
    + split; [split; reflexivity|].
      unfold GeminiKeys.getGenericCodeAnalysis in Q. split.
      * intros Hai text Hb. rewrite Hai, Hb in Q. injection Q as <-. split; reflexivity.
      * intros Hai. rewrite Hai in Q. discriminate.
Qed.

(** The model answers with blanks around its text: the explanation shown is
    the text without them. *)
Lemma runAiContextMenuAction_outcome_witness :
  let ui := Ui.mkUi true (10%Z, 20%Z) "let x = 1" false "search" in
  let r := Ui.runAiContextMenuAction (Gemini.mkService true (Some "k"))
             (fun _ _ _ => inr "  It declares x.  ") Ui.explain ui
             (App.initialState App.defaultFiles 7) in
  Ui.isAiPaneVisible (fst r) = true
  /\ Ui.activeAiView (fst r) = "ai"
  /\ JsString.includes (App.aiPrompt (snd r)) "let x = 1" = true
  /\ App.isAiLoading (snd r) = false
  /\ App.aiExplanation (snd r) = "It declares x.".
Proof.
  cbv zeta.
  destruct (runAiContextMenuAction_outcome (Gemini.mkService true (Some "k"))
              (fun _ _ _ => inr "  It declares x.  ") Ui.explain
              (Ui.mkUi true (10%Z, 20%Z) "let x = 1" false "search")
              (App.initialState App.defaultFiles 7))
    as (_ & _ & _ & _ & _ & H).
  destruct (H ltac:(discriminate)) as (H1 & H2 & H3 & H4 & _ & Hanswer & _).
  destruct (Hanswer eq_refl _ eq_refl) as (H5 & _).
  repeat split; assumption.
Defined.

(** ** The orchestration as a whole *)

Section AskFacts.

Variable E : Type.
Variable api : Monaco.Api E.
Variable backend : string -> string -> string -> string -> string
                   -> Thrown + Gemini.AiCodeResponse.
Variable switchEditor : nat -> option (Editor.Component E) -> option (Editor.Component E).
Variable env : nat -> nat -> E -> E.

(** What holds of the state before the loop and is kept by activating a
    file of the collection and by committing a content holds of the state
    the loop ends in, however it ends. *)
Lemma applyDiffs_invariant (I : App.AppState -> Prop) :
  (forall s f, I s -> In f (App.files s) -> I (App.setActiveFile f s)) ->
  (forall s n c, I s -> I (App.updateFileContent n c s)) ->
  forall diffs k s ed,
    I s -> I (fst (snd (App.applyDiffs api switchEditor env k diffs s ed))).
Proof.
  intros Hact Hupd. induction diffs as [|d diffs IH]; intros k s ed Hs; simpl.
  - exact Hs.
  - destruct (find (App.hasName (App.fileName d)) (App.files s)) as [f|] eqn:Q;
      [|now apply IH].
    apply find_some in Q. destruct Q as [Hin _].
    destruct (switchEditor k ed) as [component|].
    + destruct (Editor.applyChangesWithAnimation api (env k) (App.after d) component)
        as [[|err|] component']; simpl.
      * apply IH. apply Hupd. now apply Hact.
      * now apply Hact.
      * now apply Hact.
    + apply IH. apply Hupd. now apply Hact.
Qed.

(** The same for a whole call of [askAI], for what depends on the files,
    the tabs and the active file only. *)
Lemma askAI_invariant (I : App.AppState -> Prop) :
  (forall s f, I s -> In f (App.files s) -> I (App.setActiveFile f s)) ->
  (forall s n c, I s -> I (App.updateFileContent n c s)) ->
  (forall s s', App.files s' = App.files s -> App.openFiles s' = App.openFiles s ->
                App.activeFile s' = App.activeFile s -> I s -> I s') ->
  forall svc s ed,
    I s -> I (Outcome.stateOf (App.askAI api backend switchEditor env svc s ed)).
Proof.
  intros Hact Hupd Hframe svc s ed Hs. unfold App.askAI.
  destruct (negb (JsString.truthy (JsString.trim (App.aiPrompt s)))); [exact Hs|].
  cbv zeta.
  destruct (Gemini.getCodeModification svc _) as [err|response].
  - simpl. eapply Hframe; [| | | exact Hs]; reflexivity.
  - destruct (App.proposedDiffs response (App.files (App.beginAsk s))) as [|d diffs].
    + simpl. eapply Hframe; [| | | exact Hs]; reflexivity.
    + pose proof (@applyDiffs_invariant I Hact Hupd (d :: diffs) 0
                    (App.set_isAiApplyingEdits true
                       (App.set_isAiLoading false (App.beginAsk s))) ed) as Hloop.
      destruct (App.applyDiffs api switchEditor env 0 (d :: diffs) _ ed)
        as [[u|err|] [s2 ed2]]; simpl in Hloop |- *;
        try (eapply Hframe; [| | | apply Hloop]; try reflexivity;
             eapply Hframe; [| | | exact Hs]; reflexivity).
Qed.

End AskFacts.

Lemma names_setActiveFile (f : App.File) (s : App.AppState) :
  map App.name (App.files (App.setActiveFile f s)) = map App.name (App.files s)
  /\ map App.language (App.files (App.setActiveFile f s))
     = map App.language (App.files s).
Proof. rewrite files_setActiveFile. split; reflexivity. Qed.

Lemma names_updateFileContent (n c : string) (s : App.AppState) :
  map App.name (App.files (App.updateFileContent n c s)) = map App.name (App.files s)
  /\ map App.language (App.files (App.updateFileContent n c s))
     = map App.language (App.files s).
Proof.
  rewrite files_updateFileContent, !map_map.
  split; apply map_ext; intros f; destruct (String.eqb (App.name f) n); reflexivity.
Qed.

(** X19. However a call of [askAI] ends (finished, with or without an
    error, or waiting for an animation for good), the collection has the same
    files as before, by name and language and in the same order: the
    orchestration rewrites contents and nothing else. *)
Theorem askAI_keeps_names
  (E : Type) (api : Monaco.Api E)
  (backend : string -> string -> string -> string -> string
             -> Thrown + Gemini.AiCodeResponse)
  (switchEditor : nat -> option (Editor.Component E) -> option (Editor.Component E))
  (env : nat -> nat -> E -> E)
  (svc : Gemini.GeminiService) (s : App.AppState) (ed : option (Editor.Component E)) :
  let s' := Outcome.stateOf (App.askAI api backend switchEditor env svc s ed) in
  map App.name (App.files s') = map App.name (App.files s)
  /\ map App.language (App.files s') = map App.language (App.files s).
Proof.
  cbv zeta.
  apply (@askAI_invariant E api backend switchEditor env
           (fun s' => map App.name (App.files s') = map App.name (App.files s)
                      /\ map App.language (App.files s') = map App.language (App.files s))).
  - intros s1 f [H1 H2] _. destruct (names_setActiveFile f s1) as [-> ->]. tauto.
  - intros s1 n c [H1 H2]. destruct (names_updateFileContent n c s1) as [-> ->]. tauto.
  - intros s1 s2 Hf _ _ H. rewrite Hf. exact H.
  - split; reflexivity.
Qed.

(** X20. [askAI] keeps the invariant of the file management: when every
    open file names a file of the collection and the active file names an
    open file before the call, the same holds of the state the call leaves,
    however it ends. *)
Theorem askAI_keeps_invariant
  (E : Type) (api : Monaco.Api E)
  (backend : string -> string -> string -> string -> string
             -> Thrown + Gemini.AiCodeResponse)
  (switchEditor : nat -> option (Editor.Component E) -> option (Editor.Component E))
  (env : nat -> nat -> E -> E)
  (svc : Gemini.GeminiService) (s : App.AppState) (ed : option (Editor.Component E)) :
  App.wellFormed s = true ->
  App.wellFormed (Outcome.stateOf (App.askAI api backend switchEditor env svc s ed)) = true.
Proof.
  apply (@askAI_invariant E api backend switchEditor env
           (fun s' => App.wellFormed s' = true)).
  - intros s1 f W Hin. apply setActiveFile_wf; [exact W | now apply nameIn_self].
  - intros s1 n c W. now apply updateFileContent_wf.
  - intros s1 s2 Hf Ho Ha W.
    unfold App.wellFormed, App.openFilesExist, App.activeFileOpen, App.namesSupported in *.
    rewrite Hf, Ho, Ha. exact W.
Qed.

Lemma askAI_keeps_invariant_witness :
  App.wellFormed
    (Outcome.stateOf
       (App.askAI PlainBuffer.api
          (fun _ _ _ _ _ =>
             inr (Gemini.mkResponse "restyled" (Some "<p>new</p>")
                                    (Some "p { margin: 0; }") None))
          (fun _ ed => ed) (fun _ => PlainBuffer.quiet)
          (Gemini.mkService true (Some "k"))
          (App.set_aiPrompt "restyle" (App.initialState App.defaultFiles 7))
          (Some (PlainBuffer.faulty "x" 12)))) = true.
Proof.
  apply (@askAI_keeps_invariant _ PlainBuffer.api
           (fun _ _ _ _ _ =>
              inr (Gemini.mkResponse "restyled" (Some "<p>new</p>")
                                     (Some "p { margin: 0; }") None))
           (fun _ ed => ed) (fun _ => PlainBuffer.quiet)
           (Gemini.mkService true (Some "k"))
           (App.set_aiPrompt "restyle" (App.initialState App.defaultFiles 7))
           (Some (PlainBuffer.faulty "x" 12))).
  reflexivity.
Defined.

(** X21. The progress flags after [askAI]: a call that ends has lowered
    both; a call left waiting for an animation that never settles has
    [isAiApplyingEdits] raised and [isAiLoading] lowered for good, with
    neither an explanation nor an error to show. *)
Theorem askAI_flags
  (E : Type) (api : Monaco.Api E)
  (backend : string -> string -> string -> string -> string
             -> Thrown + Gemini.AiCodeResponse)
  (switchEditor : nat -> option (Editor.Component E) -> option (Editor.Component E))
  (env : nat -> nat -> E -> E)
  (svc : Gemini.GeminiService) (s : App.AppState) (ed : option (Editor.Component E)) :
  JsString.truthy (JsString.trim (App.aiPrompt s)) = true ->
  match App.askAI api backend switchEditor env svc s ed with
  | App.Finished s' _ => App.isAiLoading s' = false /\ App.isAiApplyingEdits s' = false
  | App.Suspended s' _ =>
      App.isAiLoading s' = false /\ App.isAiApplyingEdits s' = true
      /\ App.aiExplanation s' = "" /\ App.aiError s' = ""
  end.
Proof.
  intros Hprompt. unfold App.askAI. rewrite Hprompt. cbv zeta. simpl negb. cbv iota.
  destruct (Gemini.getCodeModification svc _) as [err|response]; [split; reflexivity|].
  destruct (App.proposedDiffs response (App.files (App.beginAsk s))) as [|d diffs];
    [split; reflexivity|].
  pose proof (@applyDiffs_invariant E api switchEditor env
                (fun s' => App.isAiLoading s' = false /\ App.isAiApplyingEdits s' = true
                           /\ App.aiExplanation s' = "" /\ App.aiError s' = "")) as Hloop.
  specialize (Hloop
    ltac:(intros s1 f H _; unfold App.setActiveFile;
          destruct (negb (existsb (App.hasName (App.name f)) (App.openFiles s1)));
          exact H)
    ltac:(intros s1 n c H; exact H)
    (d :: diffs) 0
    (App.set_isAiApplyingEdits true (App.set_isAiLoading false (App.beginAsk s))) ed
    ltac:(repeat split)).
  destruct (App.applyDiffs api switchEditor env 0 (d :: diffs) _ ed)
    as [[u|err|] [s2 ed2]]; simpl in Hloop |- *; try (split; reflexivity).
  exact Hloop.
Qed.

Lemma askAI_flags_witness :
  match App.askAI PlainBuffer.api
          (fun _ _ _ _ _ =>
             inr (Gemini.mkResponse "restyled" (Some "<p>new</p>") None None))
          (fun _ ed => ed) (fun _ => PlainBuffer.quiet)
          (Gemini.mkService true (Some "k"))
          (App.set_aiPrompt "restyle" (App.initialState App.defaultFiles 7))
          (Some (PlainBuffer.faulty "<p>old</p>" 9)) with
  | App.Finished _ _ => False
  | App.Suspended s' _ => App.isAiApplyingEdits s' = true /\ App.aiError s' = ""
  end.
Proof.
  pose proof (@askAI_flags _ PlainBuffer.api
                (fun _ _ _ _ _ =>
                   inr (Gemini.mkResponse "restyled" (Some "<p>new</p>") None None))
                (fun _ ed => ed) (fun _ => PlainBuffer.quiet)
                (Gemini.mkService true (Some "k"))
                (App.set_aiPrompt "restyle" (App.initialState App.defaultFiles 7))
                (Some (PlainBuffer.faulty "<p>old</p>" 9)) eq_refl) as H.
  revert H. vm_compute. tauto.
Defined.

Lemma commit_absent (fs : list App.File) (d : App.FileDiff) :
  find (App.hasName (App.fileName d)) fs = None -> Outcome.commit fs d = fs.
Proof.
  intros H. unfold Outcome.commit.
  rewrite <- (map_id fs) at 2. apply map_ext_in. intros f Hin.
  pose proof (find_none _ _ H f Hin) as Hn. unfold App.hasName in Hn.
  rewrite Hn. reflexivity.
Qed.

Section FullApply.

Variable E : Type.
Variable api : Monaco.Api E.
Variable backend : string -> string -> string -> string -> string
                   -> Thrown + Gemini.AiCodeResponse.
Variable switchEditor : nat -> option (Editor.Component E) -> option (Editor.Component E).
Variable env : nat -> nat -> E -> E.

Hypothesis steady : Monaco.NeverThrows api.

(** With a widget that never throws the loop runs every job. *)
Lemma applyDiffs_all (diffs : list App.FileDiff) :
  forall k s ed,
  exists s' ed',
    App.applyDiffs api switchEditor env k diffs s ed = (Done tt, (s', ed'))
    /\ App.files s' = fold_left Outcome.commit diffs (App.files s)
    /\ App.isAiLoading s' = App.isAiLoading s
    /\ App.isAiApplyingEdits s' = App.isAiApplyingEdits s
    /\ App.aiError s' = App.aiError s.
Proof.
  assert (Hflags : forall f n c s,
             let s1 := App.updateFileContent n c (App.setActiveFile f s) in
             App.isAiLoading s1 = App.isAiLoading s
             /\ App.isAiApplyingEdits s1 = App.isAiApplyingEdits s
             /\ App.aiError s1 = App.aiError s).
  { intros f n c s. unfold App.setActiveFile.
    destruct (negb (existsb (App.hasName (App.name f)) (App.openFiles s)));
      repeat split. }
  induction diffs as [|d diffs IH]; intros k s ed; simpl.
  - eauto 10.
  - destruct (find (App.hasName (App.fileName d)) (App.files s)) as [f|] eqn:Q.
    + assert (Hstep : App.files (App.updateFileContent (App.fileName d) (App.after d)
                                   (App.setActiveFile f s))
                      = Outcome.commit (App.files s) d).
      { rewrite files_updateFileContent, files_setActiveFile. reflexivity. }
      destruct (Hflags f (App.fileName d) (App.after d) s) as (F1 & F2 & F3).
      destruct (switchEditor k ed) as [component|].
      * pose proof (@applier_resolves E api (env k) (App.after d) component steady) as R.
        destruct (Editor.applyChangesWithAnimation api (env k) (App.after d) component)
          as [outcome component']; simpl in R; subst outcome.
        destruct (IH (S k) (App.updateFileContent (App.fileName d) (App.after d)
                              (App.setActiveFile f s)) (Some component'))
          as (s' & ed' & Hrun & Hfiles & G1 & G2 & G3).
        exists s', ed'. rewrite Hrun, Hfiles, Hstep, G1, G2, G3. repeat split; assumption.
      * destruct (IH (S k) (App.updateFileContent (App.fileName d) (App.after d)
                              (App.setActiveFile f s)) None)
          as (s' & ed' & Hrun & Hfiles & G1 & G2 & G3).
        exists s', ed'. rewrite Hrun, Hfiles, Hstep, G1, G2, G3. repeat split; assumption.
    + destruct (IH (S k) s ed) as (s' & ed' & Hrun & Hfiles & G).
      exists s', ed'. rewrite Hrun, Hfiles, (commit_absent _ _ Q). split; [reflexivity|].
      split; [reflexivity | exact G].
Qed.

End FullApply.

(** X22. With a widget that never throws, a proposal is applied in full:
    [askAI] ends, every queued job has been committed (the collection is the
    old one with the content of each named file replaced, job after job), the
    explanation of the answer is shown, no error is reported and both flags
    are down. *)
Theorem askAI_applies_whole_proposal
  (E : Type) (api : Monaco.Api E)
  (backend : string -> string -> string -> string -> string
             -> Thrown + Gemini.AiCodeResponse)
  (switchEditor : nat -> option (Editor.Component E) -> option (Editor.Component E))
  (env : nat -> nat -> E -> E)
  (svc : Gemini.GeminiService) (s : App.AppState) (ed : option (Editor.Component E))
  (response : Gemini.AiCodeResponse) (d : App.FileDiff) (diffs : list App.FileDiff) :
  Monaco.NeverThrows api ->
  JsString.truthy (JsString.trim (App.aiPrompt s)) = true ->
  Gemini.getCodeModification svc
    (backend (App.contentOr (find (App.hasLanguage "html") (App.files s)) "")
             (App.contentOr (find (App.hasLanguage "css") (App.files s)) "")
             (App.contentOr (find (App.hasLanguage "js") (App.files s)) "")
             (App.aiPrompt s) (App.selectedModel s)) = inr response ->
  App.proposedDiffs response (App.files s) = d :: diffs ->
  exists s' ed',
    App.askAI api backend switchEditor env svc s ed = App.Finished s' ed'
    /\ App.files s' = fold_left Outcome.commit (d :: diffs) (App.files s)
    /\ App.aiExplanation s' = Gemini.explanation response
    /\ App.aiError s' = ""
    /\ App.isAiLoading s' = false
    /\ App.isAiApplyingEdits s' = false.
Proof.
  intros steady Hprompt Hcall Hdiffs.
  unfold App.askAI. rewrite Hprompt. cbv zeta. simpl negb. cbv iota.
  change (App.files (App.beginAsk s)) with (App.files s).
  change (App.aiPrompt (App.beginAsk s)) with (App.aiPrompt s).
  change (App.selectedModel (App.beginAsk s)) with (App.selectedModel s).
  rewrite Hcall, Hdiffs.
  destruct (@applyDiffs_all E api switchEditor env steady (d :: diffs) 0
              (App.set_isAiApplyingEdits true (App.set_isAiLoading false (App.beginAsk s)))
              ed) as (s2 & ed2 & Hrun & Hfiles & _ & _ & Herr).
  rewrite Hrun. exists (App.settleFlags (App.set_aiExplanation (Gemini.explanation response) s2)), ed2.
  split; [reflexivity|]. split; [exact Hfiles|]. split; [reflexivity|].
  split; [exact Herr|]. split; reflexivity.
Qed.

Lemma askAI_applies_whole_proposal_witness :
  let response := Gemini.mkResponse "restyled" (Some "<p>new</p>")
                                    (Some "p { margin: 0; }") None in
  exists s' ed',
    App.askAI SteadyBuffer.api (fun _ _ _ _ _ => inr response)
              (fun _ ed => ed) (fun _ => SteadyBuffer.quiet)
              (Gemini.mkService true (Some "k"))
              (App.set_aiPrompt "restyle" (App.initialState App.defaultFiles 7))
              (Some (Editor.mkComponent (Some ("anything", 0)) false))
    = App.Finished s' ed'
    /\ App.files s'
       = [App.mkFile "index.html" "<p>new</p>" "html";
          App.mkFile "style.css" "p { margin: 0; }" "css";
          App.defaultJs]
    /\ App.aiError s' = "".
Proof.
  cbv zeta.
  destruct (@askAI_applies_whole_proposal _ SteadyBuffer.api
              (fun _ _ _ _ _ =>
                 inr (Gemini.mkResponse "restyled" (Some "<p>new</p>")
                                        (Some "p { margin: 0; }") None))
              (fun _ ed => ed) (fun _ => SteadyBuffer.quiet)
              (Gemini.mkService true (Some "k"))
              (App.set_aiPrompt "restyle" (App.initialState App.defaultFiles 7))
              (Some (Editor.mkComponent (Some ("anything", 0)) false))
              (Gemini.mkResponse "restyled" (Some "<p>new</p>") (Some "p { margin: 0; }") None)
              (App.mkFileDiff "index.html" "<p>new</p>")
              [App.mkFileDiff "style.css" "p { margin: 0; }"]
              steadyBuffer_never_throws eq_refl eq_refl eq_refl)
    as (s' & ed' & Hrun & Hfiles & _ & Herr & _).
  exists s', ed'. split; [exact Hrun|]. split; [rewrite Hfiles; reflexivity | exact Herr].
Defined.

(** X23. A proposal that changes nothing (each patch is absent, empty, or
    equal to the current content of its file) touches neither the files, the
    tabs, the active file nor the editor: [askAI] ends with the explanation
    followed by the note that no change was proposed, and without error. *)
Theorem askAI_without_changes
  (E : Type) (api : Monaco.Api E)
  (backend : string -> string -> string -> string -> string
             -> Thrown + Gemini.AiCodeResponse)
  (switchEditor : nat -> option (Editor.Component E) -> option (Editor.Component E))
  (env : nat -> nat -> E -> E)
  (svc : Gemini.GeminiService) (s : App.AppState) (ed : option (Editor.Component E))
  (response : Gemini.AiCodeResponse) :
  let unchanged := fun (patch : option string) (lang : string) =>
    match patch with
    | None => True
    | Some text =>
        text = "" \/ text = App.contentOr (find (App.hasLanguage lang) (App.files s)) ""
    end in
  JsString.truthy (JsString.trim (App.aiPrompt s)) = true ->
  Gemini.getCodeModification svc
    (backend (App.contentOr (find (App.hasLanguage "html") (App.files s)) "")
             (App.contentOr (find (App.hasLanguage "css") (App.files s)) "")
             (App.contentOr (find (App.hasLanguage "js") (App.files s)) "")
             (App.aiPrompt s) (App.selectedModel s)) = inr response ->
  unchanged (Gemini.html response) "html" ->
  unchanged (Gemini.css response) "css" ->
  unchanged (Gemini.js response) "js" ->
  exists s',
    App.askAI api backend switchEditor env svc s ed = App.Finished s' ed
    /\ App.files s' = App.files s
    /\ App.openFiles s' = App.openFiles s
    /\ App.activeFile s' = App.activeFile s
    /\ App.rebuildPending s' = App.rebuildPending s
    /\ App.aiExplanation s' = (Gemini.explanation response ++ App.noChangesNote)%string
    /\ App.aiError s' = "".
Proof.
  cbv zeta. intros Hprompt Hcall Hh Hc Hj.
  assert (Hnone : forall patch file fallback,
             match patch with
             | None => True
             | Some text => text = "" \/ text = App.contentOr file ""
             end -> App.diffFor patch file fallback = []).
  { intros [text|] file fallback H; simpl; [|reflexivity].
    destruct H as [->| ->]; [reflexivity|].
    rewrite String.eqb_refl. simpl. rewrite andb_false_r. reflexivity. }
  assert (Hdiffs : App.proposedDiffs response (App.files s) = []).
  { unfold App.proposedDiffs. rewrite !Hnone by assumption. reflexivity. }
  unfold App.askAI. rewrite Hprompt. cbv zeta. simpl negb. cbv iota.
  change (App.files (App.beginAsk s)) with (App.files s).
  change (App.aiPrompt (App.beginAsk s)) with (App.aiPrompt s).
  change (App.selectedModel (App.beginAsk s)) with (App.selectedModel s).
  rewrite Hcall, Hdiffs.
  eexists. split; [reflexivity|]. repeat split.
Qed.

Lemma askAI_without_changes_witness :
  let response := Gemini.mkResponse "nothing to do" None
                    (Some (App.content App.defaultCss)) (Some "") in
  exists s',
    App.askAI PlainBuffer.api (fun _ _ _ _ _ => inr response)
              (fun _ ed => ed) (fun _ => PlainBuffer.quiet)
              (Gemini.mkService true (Some "k"))
              (App.set_aiPrompt "tidy" (App.initialState App.defaultFiles 7))
              (Some (PlainBuffer.fresh "x"))
    = App.Finished s' (Some (PlainBuffer.fresh "x"))
    /\ App.files s' = App.defaultFiles
    /\ App.aiExplanation s' = ("nothing to do" ++ App.noChangesNote)%string.
Proof.
  cbv zeta.
  destruct (@askAI_without_changes _ PlainBuffer.api
              (fun _ _ _ _ _ =>
                 inr (Gemini.mkResponse "nothing to do" None
                        (Some (App.content App.defaultCss)) (Some "")))
              (fun _ ed => ed) (fun _ => PlainBuffer.quiet)
              (Gemini.mkService true (Some "k"))
              (App.set_aiPrompt "tidy" (App.initialState App.defaultFiles 7))
              (Some (PlainBuffer.fresh "x"))
              (Gemini.mkResponse "nothing to do" None
                 (Some (App.content App.defaultCss)) (Some ""))
              eq_refl eq_refl I (or_intror eq_refl) (or_introl eq_refl))
    as (s' & Hrun & Hfiles & _ & _ & _ & Hexp & _).
  exists s'. split; [exact Hrun|]. split; [exact Hfiles | exact Hexp].
Defined.

(** ** Tabs *)

Lemma filter_keeps_other_names (n : string) (l : list App.File) :
  ~ In n (map App.name l) ->
  filter (fun g => negb (App.hasName n g)) l = l.
Proof.
  induction l as [|x l IH]; simpl; intros H; [reflexivity|].
  unfold App.hasName at 1.
  replace (String.eqb (App.name x) n) with false
    by (symmetry; apply String.eqb_neq; tauto).
  simpl. rewrite IH by tauto. reflexivity.
Qed.

Lemma findIndex_unique (l : list App.File) :
  forall i f,
    NoDup (map App.name l) -> nth_error l i = Some f ->
    App.findIndex (App.hasName (App.name f)) l = Some i.
Proof.
  induction l as [|x l IH]; intros [|i] f ND H; simpl in *; try discriminate.
  - injection H as ->. unfold App.hasName. rewrite String.eqb_refl. reflexivity.
  - inversion ND as [|? ? Hx ND']; subst.
    unfold App.hasName at 1.
    replace (String.eqb (App.name x) (App.name f)) with false.
    + rewrite (IH i f ND' H). reflexivity.
    + symmetry; apply String.eqb_neq. intros Hn. apply Hx. rewrite Hn.
      apply in_map. eapply nth_error_In; eauto.
Qed.

Lemma filter_removes_one (l : list App.File) :
  forall i f,
    NoDup (map App.name l) -> nth_error l i = Some f ->
    filter (fun g => negb (App.hasName (App.name f) g)) l = firstn i l ++ skipn (S i) l.
Proof.
  induction l as [|x l IH]; intros [|i] f ND H; simpl in *; try discriminate;
    inversion ND as [|? ? Hx ND']; subst.
  - injection H as ->. unfold App.hasName at 1. rewrite String.eqb_refl. simpl.
    now apply filter_keeps_other_names.
  - unfold App.hasName at 1.
    replace (String.eqb (App.name x) (App.name f)) with false.
    + simpl. rewrite (IH i f ND' H). reflexivity.
    + symmetry; apply String.eqb_neq. intros Hn. apply Hx. rewrite Hn.
      apply in_map. eapply nth_error_In; eauto.
Qed.

(** X24. Closing a tab, the names of the open files being pairwise
    distinct: the tab leaves the tab bar and the other tabs keep their order;
    when the closed file was the active one, the tab to its right becomes
    active, or the tab to its left when it was the last one, or none when it
    was the only one; when another file was active it stays active.  The
    collection is not touched. *)
Theorem closeFile_selects_neighbour (i : nat) (f : App.File) (s : App.AppState) :
  NoDup (map App.name (App.openFiles s)) ->
  nth_error (App.openFiles s) i = Some f ->
  let s' := App.closeFile f s in
  App.openFiles s' = firstn i (App.openFiles s) ++ skipn (S i) (App.openFiles s)
  /\ App.files s' = App.files s
  /\ (forall a, App.activeFile s = Some a -> App.name a = App.name f ->
        App.activeFile s'
        = if S i <? List.length (App.openFiles s) then nth_error (App.openFiles s) (S i)
          else if i =? 0 then None
          else nth_error (App.openFiles s) (i - 1))
  /\ (forall a, App.activeFile s = Some a -> App.name a <> App.name f ->
        App.activeFile s' = Some a).
Proof.
  intros ND Hi. cbv zeta.
  assert (Hlen : i < List.length (App.openFiles s))
    by (apply nth_error_Some; congruence).
  unfold App.closeFile.
  rewrite (findIndex_unique _ _ ND Hi), (filter_removes_one _ _ ND Hi).
  set (l := App.openFiles s) in *.
  assert (Hnew : List.length (firstn i l ++ skipn (S i) l) = List.length l - 1).
  { rewrite length_app, length_firstn, length_skipn. lia. }
  split; [| split; [| split]].
  - destruct (App.activeFile s) as [a|]; [|reflexivity].
    destruct (String.eqb (App.name a) (App.name f)); [|reflexivity].
    destruct (_ =? 0); reflexivity.
  - destruct (App.activeFile s) as [a|]; [|reflexivity].
    destruct (String.eqb (App.name a) (App.name f)); [|reflexivity].
    destruct (_ =? 0); reflexivity.
  - intros a Ha Hn. rewrite Ha. apply String.eqb_eq in Hn. rewrite Hn, Hnew.
    destruct (List.length l - 1 =? 0) eqn:Z; cbv iota.
    + apply Nat.eqb_eq in Z.
      replace (S i <? List.length l) with false by (symmetry; apply Nat.ltb_ge; lia).
      replace (i =? 0) with true by (symmetry; apply Nat.eqb_eq; lia). reflexivity.
    + apply Nat.eqb_neq in Z.
      destruct (S i <? List.length l) eqn:R.
      * apply Nat.ltb_lt in R. rewrite Nat.min_l by lia.
        rewrite nth_error_app2 by (rewrite length_firstn; lia).
        rewrite length_firstn, nth_error_skipn.
        rewrite (Nat.min_l i) by lia.
        replace (S i + (i - i)) with (S i) by lia. reflexivity.
      * apply Nat.ltb_ge in R.
        replace (i =? 0) with false by (symmetry; apply Nat.eqb_neq; lia).
        rewrite Nat.min_r by lia.
        rewrite nth_error_app1 by (rewrite length_firstn; lia).
        rewrite nth_error_firstn.
        replace (List.length l - 1 - 1 <? i) with true by (symmetry; apply Nat.ltb_lt; lia).
        replace (List.length l - 1 - 1) with (i - 1) by lia. reflexivity.
  - intros a Ha Hn. rewrite Ha. apply String.eqb_neq in Hn. rewrite Hn. simpl.
    exact Ha.
Qed.

Lemma closeFile_selects_neighbour_witness :
  let s := App.initialState App.defaultFiles 7 in
  App.activeFile s = Some App.defaultHtml
  /\ App.openFiles (App.closeFile App.defaultHtml s) = [App.defaultCss; App.defaultJs]
  /\ App.activeFile (App.closeFile App.defaultHtml s) = Some App.defaultCss.
Proof.
  cbv zeta.
  destruct (@closeFile_selects_neighbour 0 App.defaultHtml
              (App.initialState App.defaultFiles 7)
              defaultFiles_names_distinct eq_refl) as (H1 & _ & H3 & _).
  split; [reflexivity|]. split; [exact H1|].
  exact (H3 App.defaultHtml eq_refl eq_refl).
Defined.

(** ** Names stay distinct *)

Lemma distinct_filter (p : App.File -> bool) (l : list App.File) :
  NoDup (map App.name l) -> NoDup (map App.name (filter p l)).
Proof.
  induction l as [|x l IH]; simpl; intros ND; [constructor|].
  inversion ND as [|? ? Hx ND']; subst.
  destruct (p x); simpl; [|auto].
  constructor; [|auto]. intros Hin. apply Hx.
  apply in_map_iff in Hin. destruct Hin as (g & Hn & Hg).
  apply filter_In in Hg. apply in_map_iff. exists g. tauto.
Qed.

Lemma distinct_snoc (f : App.File) (l : list App.File) :
  NoDup (map App.name l) -> App.nameIn (App.name f) l = false ->
  NoDup (map App.name (l ++ [f])).
Proof.
  intros ND Hnew. rewrite map_app. apply NoDup_app; [exact ND | repeat constructor; auto |].
  intros n Hin [<-|[]].
  apply in_map_iff in Hin. destruct Hin as (g & Hn & Hg).
  assert (App.nameIn (App.name f) l = true) by (apply nameIn_spec; eauto).
  congruence.
Qed.

Lemma distinct_setActiveFile (f : App.File) (s : App.AppState) :
  NoDup (map App.name (App.files s)) /\ NoDup (map App.name (App.openFiles s)) ->
  NoDup (map App.name (App.files (App.setActiveFile f s)))
  /\ NoDup (map App.name (App.openFiles (App.setActiveFile f s))).
Proof.
  intros [H1 H2]. unfold App.setActiveFile.
  change (existsb (App.hasName (App.name f)) (App.openFiles s))
    with (App.nameIn (App.name f) (App.openFiles s)).
  destruct (App.nameIn (App.name f) (App.openFiles s)) eqn:Q; simpl; split; auto.
  now apply distinct_snoc.
Qed.

Lemma distinct_closeFile (f : App.File) (s : App.AppState) :
  NoDup (map App.name (App.files s)) /\ NoDup (map App.name (App.openFiles s)) ->
  NoDup (map App.name (App.files (App.closeFile f s)))
  /\ NoDup (map App.name (App.openFiles (App.closeFile f s))).
Proof.
  intros [H1 H2]. rewrite files_closeFile. split; [exact H1|].
  unfold App.closeFile.
  destruct (App.findIndex _ _); [|exact H2]. simpl. now apply distinct_filter.
Qed.

(** X25. Every file-management operation keeps the names of the collection
    pairwise distinct, and the names of the open files as well: no operation
    ever leaves two files, or two tabs, of the same name. *)
Theorem file_operations_keep_names_distinct (op : App.FileOp) (s : App.AppState) :
  NoDup (map App.name (App.files s)) ->
  NoDup (map App.name (App.openFiles s)) ->
  NoDup (map App.name (App.files (App.run op s)))
  /\ NoDup (map App.name (App.openFiles (App.run op s))).
Proof.
  intros H1 H2.
  assert (Hupd : forall n c,
             NoDup (map App.name (App.files (App.updateFileContent n c s)))
             /\ NoDup (map App.name (App.openFiles (App.updateFileContent n c s)))).
  { intros n c. destruct (names_updateFileContent n c s) as [-> _]. split; assumption. }
  destruct op; simpl; try (split; assumption).
  - destruct (nth_error (App.files s) i); [apply distinct_setActiveFile|]; split; assumption.
  - destruct (nth_error (App.openFiles s) i); [apply distinct_setActiveFile|];
      split; assumption.
  - destruct (nth_error (App.openFiles s) i); [apply distinct_closeFile|]; split; assumption.
  - unfold App.confirmCreateFile.
    destruct (negb (JsString.truthy _)); [split; assumption|].
    destruct (negb (App.matchesSupportedExtension _)); [split; assumption|].
    destruct (existsb _ (App.files s)) eqn:X; [split; assumption|].
    cbn [App.files App.openFiles App.cancelCreateFile App.set_newFileName
         App.set_isCreatingFile].
    apply distinct_setActiveFile.
    cbn [App.files App.openFiles App.set_files]. split; [|assumption].
    apply distinct_snoc; [assumption | exact X].
  - unfold App.fileLoaded.
    change (existsb (App.hasName name) (App.files s))
      with (App.nameIn name (App.files s)).
    destruct (App.nameIn name (App.files s)) eqn:T; simpl.
    + destruct overwrite; simpl; [|split; assumption].
      destruct (App.isSupported _); cbn [negb].
      * apply distinct_setActiveFile.
        cbn [App.files App.openFiles App.set_files]. split; [|assumption].
        apply distinct_snoc; [now apply distinct_filter | apply nameIn_filter_same].
      * cbn [App.files App.openFiles App.set_files].
        split; [now apply distinct_filter | assumption].
    + destruct (App.isSupported _); cbn [negb]; [|split; assumption].
      apply distinct_setActiveFile.
      cbn [App.files App.openFiles App.set_files]. split; [|assumption].
      apply distinct_snoc; [assumption | exact T].
  - unfold App.deleteFile. destruct confirmed; simpl; [|split; assumption].
    destruct (existsb _ (App.openFiles s)).
    + destruct (distinct_closeFile file s (conj H1 H2)) as [G1 G2].
      split; [now apply distinct_filter | exact G2].
    + split; [now apply distinct_filter | assumption].
  - apply Hupd.
  - unfold App.updateActiveFileContent.
    destruct (App.activeFile s); [apply Hupd | split; assumption].
Qed.

Lemma file_operations_keep_names_distinct_witness :
  let s := App.run (App.Upload "style.css" "p { margin: 0; }" true)
                   (App.initialState App.defaultFiles 7) in
  map App.name (App.files s) = ["index.html"; "script.js"; "style.css"]
  /\ NoDup (map App.name (App.files s))
  /\ NoDup (map App.name (App.openFiles s)).
Proof.
  cbv zeta. split; [reflexivity|].
  apply (@file_operations_keep_names_distinct
           (App.Upload "style.css" "p { margin: 0; }" true)
           (App.initialState App.defaultFiles 7)
           defaultFiles_names_distinct defaultFiles_names_distinct).
Defined.

(** X26. An upload whose name does not end in a supported extension never
    adds a file and never touches the tabs or the active file; but when a
    file of that name exists and the overwrite is confirmed, that file has
    been removed from the collection by then, and stays removed. *)
Theorem upload_unsupported (name content : string) (overwrite : bool) (s : App.AppState) :
  App.isSupported (JsString.afterLastDot name) = false ->
  let s' := App.fileLoaded name content overwrite s in
  App.openFiles s' = App.openFiles s
  /\ App.activeFile s' = App.activeFile s
  /\ App.files s'
     = (if App.nameIn name (App.files s) && overwrite
        then filter (fun f => negb (App.hasName name f)) (App.files s)
        else App.files s)
  /\ (overwrite = true -> App.nameIn name (App.files s') = false).
Proof.
  intros Hext. cbv zeta. unfold App.fileLoaded. rewrite Hext.
  change (existsb (App.hasName name) (App.files s))
    with (App.nameIn name (App.files s)).
  destruct (App.nameIn name (App.files s)) eqn:T; destruct overwrite; simpl;
    repeat split; auto; try discriminate.
  - intros _. apply nameIn_filter_same.
Qed.

Lemma upload_unsupported_witness :
  let s := App.initialState [App.mkFile "tool.exe" "old" "txt"; App.defaultCss] 7 in
  App.files (App.fileLoaded "tool.exe" "new" true s) = [App.defaultCss]
  /\ App.files (App.fileLoaded "tool.exe" "new" false s) = App.files s.
Proof.
  cbv zeta.
  destruct (@upload_unsupported "tool.exe" "new" true
              (App.initialState [App.mkFile "tool.exe" "old" "txt"; App.defaultCss] 7)
              eq_refl) as (_ & _ & H1 & _).
  destruct (@upload_unsupported "tool.exe" "new" false
              (App.initialState [App.mkFile "tool.exe" "old" "txt"; App.defaultCss] 7)
              eq_refl) as (_ & _ & H2 & _).
  split; [exact H1 | exact H2].
Defined.

(** ** The preview document *)

Lemma find_language_updated (lang n c : string) (l : list App.File) :
  find (App.hasLanguage lang)
       (map (fun f => if String.eqb (App.name f) n
                      then App.mkFile (App.name f) c (App.language f) else f) l)
  = option_map (fun f => if String.eqb (App.name f) n
                         then App.mkFile (App.name f) c (App.language f) else f)
               (find (App.hasLanguage lang) l).
Proof.
  induction l as [|x l IH]; simpl; [reflexivity|].
  assert (H : App.hasLanguage lang
                (if String.eqb (App.name x) n
                 then App.mkFile (App.name x) c (App.language x) else x)
              = App.hasLanguage lang x)
    by (destruct (String.eqb (App.name x) n); reflexivity).
  rewrite H. destruct (App.hasLanguage lang x); [reflexivity | exact IH].
Qed.

(** X27. The preview document only depends on the first html file, the
    first css file and the first js file: an edit of the content of any file
    that is none of these three leaves the document that the next rebuild
    produces exactly as it is. *)
Theorem preview_ignores_other_files (fileName newContent : string) (s : App.AppState) :
  (forall lang f, In lang ["html"; "css"; "js"] ->
                  find (App.hasLanguage lang) (App.files s) = Some f ->
                  App.name f <> fileName) ->
  App.buildIframeContent (App.files (App.updateFileContent fileName newContent s))
  = App.buildIframeContent (App.files s).
Proof.
  intros H. rewrite files_updateFileContent. unfold App.buildIframeContent.
  assert (Hsame : forall lang fallback,
             In lang ["html"; "css"; "js"] ->
             App.contentOr
               (find (App.hasLanguage lang)
                  (map (fun f => if String.eqb (App.name f) fileName
                                 then App.mkFile (App.name f) newContent (App.language f)
                                 else f) (App.files s))) fallback
             = App.contentOr (find (App.hasLanguage lang) (App.files s)) fallback).
  { intros lang fallback Hl. rewrite find_language_updated.
    destruct (find (App.hasLanguage lang) (App.files s)) as [f|] eqn:Q; [|reflexivity].
    simpl. replace (String.eqb (App.name f) fileName) with false; [reflexivity|].
    symmetry; apply String.eqb_neq. now apply (H lang). }
  rewrite !Hsame by (simpl; tauto). reflexivity.
Qed.

Lemma preview_ignores_other_files_witness :
  let s := App.initialState (App.defaultFiles ++ [App.mkFile "notes.md" "# to do" "md"]) 7 in
  App.buildIframeContent (App.files (App.updateFileContent "notes.md" "# done" s))
  = App.buildIframeContent (App.files s).
Proof.
  cbv zeta.
  apply (@preview_ignores_other_files "notes.md" "# done"
           (App.initialState (App.defaultFiles ++ [App.mkFile "notes.md" "# to do" "md"]) 7)).
  intros lang f [<-|[<-|[<-|[]]]] [= <-]; discriminate.
Defined.

Lemma files_editAll_ext (edits : list (string * string)) :
  forall s s',
    App.files s = App.files s' ->
    App.files (Outcome.editAll edits s) = App.files (Outcome.editAll edits s').
Proof.
  induction edits as [|[n c] edits IH]; intros s s' H; [exact H|].
  unfold Outcome.editAll in *; simpl. apply IH.
  rewrite !files_updateFileContent, H. reflexivity.
Qed.

Lemma files_debounceElapsed (s : App.AppState) :
  App.files (App.debounceElapsed s) = App.files s.
Proof. unfold App.debounceElapsed. destruct (App.rebuildPending s); reflexivity. Qed.

Lemma last_cons (t : nat) (times : list nat) (d : nat) :
  List.last (t :: times) d = List.last times t.
Proof.
  revert t d. induction times as [|u times IH]; intros t d; [reflexivity|].
  change (List.last (t :: u :: times) d) with (List.last (u :: times) d).
  rewrite (IH u d). symmetry. apply IH.
Qed.

(** After an edit the debounce holds the files as the edit left them. *)
Lemma pending_after_play (timeline : list Preview.TimedEdit) (w : Preview.Timed) :
  App.rebuildPending (Preview.app w) = Some (App.files (Preview.app w)) ->
  App.rebuildPending (Preview.app (Preview.play timeline w))
  = Some (App.files (Preview.app (Preview.play timeline w))).
Proof.
  intros H. induction timeline as [|e timeline IH] using rev_ind; [exact H|].
  unfold Preview.play. rewrite fold_left_app. reflexivity.
Qed.

(** A timeline played from a state in which an edit has just been made. *)
Lemma play_after_edit (rest : list Preview.TimedEdit) :
  forall w,
    Preview.due w = Some (Preview.clock w + Preview.DEBOUNCE_MS) ->
    Preview.inOrder (Preview.clock w) (map Preview.time rest) = true ->
    let w1 := Preview.play rest w in
    Preview.clock w1 = List.last (map Preview.time rest) (Preview.clock w)
    /\ Preview.due w1 = Some (Preview.clock w1 + Preview.DEBOUNCE_MS)
    /\ App.files (Preview.app w1)
       = App.files (Outcome.editAll (Preview.contents rest) (Preview.app w))
    /\ Preview.rebuilds w1
       = Preview.rebuilds w + Preview.pauses (Preview.clock w) (map Preview.time rest)
    /\ (Preview.pauses (Preview.clock w) (map Preview.time rest) = 0 ->
        App.iframeSrcDoc (Preview.app w1) = App.iframeSrcDoc (Preview.app w)).
Proof.
  induction rest as [|[t n c] rest IH]; intros w Hdue Hord; cbv zeta.
  - simpl. rewrite Nat.add_0_r. repeat split; auto.
  - simpl in Hord. apply andb_true_iff in Hord. destruct Hord as [Hle Hord].
    apply Nat.leb_le in Hle.
    change (Preview.play (Preview.mkTimedEdit t n c :: rest) w)
      with (Preview.play rest (Preview.editAt t n c w)).
    change (map Preview.time (Preview.mkTimedEdit t n c :: rest))
      with (t :: map Preview.time rest).
    rewrite last_cons.
    cbn [Preview.pauses].
    assert (Hstep : exists a,
      Preview.editAt t n c w
      = Preview.mkTimed (App.updateFileContent n c a) t (Some (t + Preview.DEBOUNCE_MS))
          ((if Preview.clock w + Preview.DEBOUNCE_MS <=? t then 1 else 0)
           + Preview.rebuilds w)
      /\ App.files a = App.files (Preview.app w)
      /\ ((if Preview.clock w + Preview.DEBOUNCE_MS <=? t then 1 else 0) = 0 ->
          a = Preview.app w)).
    { unfold Preview.editAt, Preview.elapse. cbv zeta. rewrite Hdue.
      rewrite (Nat.max_l t (Preview.clock w)) by exact Hle.
      destruct (Preview.clock w + Preview.DEBOUNCE_MS <=? t).
      - exists (App.debounceElapsed (Preview.app w)).
        split; [reflexivity|]. split; [apply files_debounceElapsed | discriminate].
      - exists (Preview.app w). repeat split. }
    destruct Hstep as (a & -> & Hfiles & Hquiet).
    destruct (IH (Preview.mkTimed (App.updateFileContent n c a) t
                    (Some (t + Preview.DEBOUNCE_MS))
                    ((if Preview.clock w + Preview.DEBOUNCE_MS <=? t then 1 else 0)
                     + Preview.rebuilds w)) eq_refl Hord)
      as (I1 & I2 & I3 & I4 & I5).
    cbn [Preview.clock Preview.app Preview.rebuilds] in I1, I3, I4, I5.
    split; [exact I1|]. split; [exact I2|]. split; [| split].
    + rewrite I3.
      change (Outcome.editAll (Preview.contents (Preview.mkTimedEdit t n c :: rest))
                              (Preview.app w))
        with (Outcome.editAll (Preview.contents rest)
                              (App.updateFileContent n c (Preview.app w))).
      apply files_editAll_ext. rewrite !files_updateFileContent, Hfiles. reflexivity.
    + rewrite I4. lia.
    + intros Hzero.
      assert (H0 : (if Preview.clock w + Preview.DEBOUNCE_MS <=? t then 1 else 0) = 0)
        by lia.
      rewrite I5 by lia. rewrite (Hquiet H0). reflexivity.
Qed.

(** X28. Edits are coalesced by the debounce.  A timeline of content edits
    is played from a state in which the timer is not running.  The preview
    document is rebuilt once for every edit that comes at least 300 ms after
    the edit before it, and not at all during a run of edits each less than
    300 ms after the one before.  After the last edit the document is left
    alone until 300 ms have gone by; it is then rebuilt once, from the files
    as all the edits have left them, and not again. *)
Theorem edits_coalesce_within_debounce
  (first : Preview.TimedEdit) (rest : list Preview.TimedEdit) (w : Preview.Timed) :
  Preview.due w = None ->
  Preview.inOrder (Preview.clock w) (map Preview.time (first :: rest)) = true ->
  let w1 := Preview.play (first :: rest) w in
  let last := List.last (map Preview.time rest) (Preview.time first) in
  let between := Preview.pauses (Preview.time first) (map Preview.time rest) in
  Preview.clock w1 = last
  /\ App.files (Preview.app w1)
     = App.files (Outcome.editAll (Preview.contents (first :: rest)) (Preview.app w))
  /\ Preview.rebuilds w1 = Preview.rebuilds w + between
  /\ (between = 0 -> App.iframeSrcDoc (Preview.app w1) = App.iframeSrcDoc (Preview.app w))
  /\ (forall t, t < last + Preview.DEBOUNCE_MS ->
        Preview.app (Preview.elapse t w1) = Preview.app w1
        /\ Preview.rebuilds (Preview.elapse t w1) = Preview.rebuilds w1)
  /\ (forall t, last + Preview.DEBOUNCE_MS <= t ->
        let w2 := Preview.elapse t w1 in
        Preview.rebuilds w2 = S (Preview.rebuilds w1)
        /\ App.iframeSrcDoc (Preview.app w2) = App.buildIframeContent (App.files (Preview.app w1))
        /\ App.files (Preview.app w2) = App.files (Preview.app w1)
        /\ forall t', Preview.app (Preview.elapse t' w2) = Preview.app w2
                      /\ Preview.rebuilds (Preview.elapse t' w2) = Preview.rebuilds w2).
Proof.
  destruct first as [t0 n0 c0]. intros Hdue Hord. cbv zeta.
  cbn [Preview.time].
  simpl in Hord. apply andb_true_iff in Hord. destruct Hord as [Hle Hord].
  apply Nat.leb_le in Hle.
  change (Preview.play (Preview.mkTimedEdit t0 n0 c0 :: rest) w)
    with (Preview.play rest (Preview.editAt t0 n0 c0 w)).
  assert (Hfirst : Preview.editAt t0 n0 c0 w
                   = Preview.mkTimed (App.updateFileContent n0 c0 (Preview.app w)) t0
                                     (Some (t0 + Preview.DEBOUNCE_MS)) (Preview.rebuilds w)).
  { unfold Preview.editAt, Preview.elapse. cbv zeta. rewrite Hdue.
    rewrite (Nat.max_l t0 (Preview.clock w)) by exact Hle. reflexivity. }
  rewrite Hfirst.
  set (w0 := Preview.mkTimed (App.updateFileContent n0 c0 (Preview.app w)) t0
                             (Some (t0 + Preview.DEBOUNCE_MS)) (Preview.rebuilds w)).
  destruct (play_after_edit rest w0 eq_refl Hord) as (I1 & I2 & I3 & I4 & I5).
  cbn [Preview.clock Preview.app Preview.rebuilds w0] in I1, I3, I4, I5.
  set (w1 := Preview.play rest w0) in *.
  assert (Hpending : App.rebuildPending (Preview.app w1) = Some (App.files (Preview.app w1))).
  { unfold w1. apply pending_after_play. reflexivity. }
  split; [exact I1|]. split; [exact I3|]. split; [exact I4|].
  split; [exact I5|].
  rewrite <- I1. split.
  - intros t Ht. unfold Preview.elapse. cbv zeta. rewrite I2.
    replace (Preview.clock w1 + Preview.DEBOUNCE_MS <=? Nat.max t (Preview.clock w1))
      with false by (symmetry; apply Nat.leb_gt; unfold Preview.DEBOUNCE_MS in *; lia).
    split; reflexivity.
  - intros t Ht. unfold Preview.elapse at 1 2 3 4. cbv zeta. rewrite I2.
    replace (Preview.clock w1 + Preview.DEBOUNCE_MS <=? Nat.max t (Preview.clock w1))
      with true by (symmetry; apply Nat.leb_le; lia).
    cbn [Preview.rebuilds Preview.app].
    split; [reflexivity|].
    unfold App.debounceElapsed. rewrite Hpending.
    split; [reflexivity|]. split; [reflexivity|].
    intros t'. unfold Preview.elapse. cbv zeta. rewrite I2.
    replace (Preview.clock w1 + Preview.DEBOUNCE_MS <=? Nat.max t (Preview.clock w1))
      with true by (symmetry; apply Nat.leb_le; lia).
    cbn [Preview.due Preview.app Preview.rebuilds]. split; reflexivity.
Qed.

(** Two edits of the style sheet 120 ms apart, half a second after the page
    was loaded: no rebuild at the second edit; one rebuild, from the second
    text, once 300 ms have gone by after it. *)
Lemma edits_coalesce_within_debounce_witness :
  let w := Preview.mkTimed (App.debounceElapsed (App.initialState App.defaultFiles 7))
                           500 None 1 in
  let w1 := Preview.play [Preview.mkTimedEdit 1000 "style.css" "p {";
                          Preview.mkTimedEdit 1120 "style.css" "p { margin: 0; }"] w in
  Preview.rebuilds w1 = 1
  /\ Preview.rebuilds (Preview.elapse 1419 w1) = 1
  /\ Preview.rebuilds (Preview.elapse 1420 w1) = 2
  /\ App.iframeSrcDoc (Preview.app (Preview.elapse 1420 w1))
     = App.buildIframeContent (App.files (Preview.app w1)).
Proof.
  cbv zeta.
  destruct (@edits_coalesce_within_debounce
              (Preview.mkTimedEdit 1000 "style.css" "p {")
              [Preview.mkTimedEdit 1120 "style.css" "p { margin: 0; }"]
              (Preview.mkTimed (App.debounceElapsed (App.initialState App.defaultFiles 7))
                               500 None 1)
              eq_refl eq_refl) as (_ & _ & H3 & _ & H5 & H6).
  cbv zeta in H6.
  destruct (H5 1419 ltac:(vm_compute; lia)) as (_ & Hearly).
  destruct (H6 1420 ltac:(vm_compute; lia)) as (Hlate & Hdoc & _).
  split; [exact H3|]. split; [rewrite Hearly; exact H3|].
  split; [rewrite Hlate, H3; reflexivity | exact Hdoc].
Defined.

(** The same two edits 400 ms apart: the first text is rebuilt on its own
    before the second edit is made. *)
Example slow_edits_rebuild_each :
  let w := Preview.mkTimed (App.debounceElapsed (App.initialState App.defaultFiles 7))
                           500 None 1 in
  let w1 := Preview.play [Preview.mkTimedEdit 1000 "style.css" "p {";
                          Preview.mkTimedEdit 1400 "style.css" "p { margin: 0; }"] w in
  Preview.rebuilds w1 = 2
  /\ Preview.rebuilds (Preview.elapse 1700 w1) = 3.
Proof. cbv zeta. split; vm_compute; reflexivity. Qed.

(** ** The image analyzer *)

(** X29. [analyze] makes a request only when an image, its type and a
    prompt that is not blank are all there, and otherwise leaves the state as
    it is.  When it makes one it ends with [isLoading] false and with either
    the answer as result and no error, or the message of the failure as error
    and no result; the image, its type and the prompt are never changed. *)
Theorem analyze_outcome
  (svc : Gemini.GeminiService)
  (backend : string -> string -> string -> Thrown + string)
  (st : ImageAnalyzer.State) :
  let st' := ImageAnalyzer.analyze svc backend st in
  let ready := ImageAnalyzer.present (ImageAnalyzer.uploadedImage st)
               && ImageAnalyzer.present (ImageAnalyzer.imageMimeType st)
               && JsString.truthy (JsString.trim (ImageAnalyzer.prompt st)) in
  ImageAnalyzer.uploadedImage st' = ImageAnalyzer.uploadedImage st
  /\ ImageAnalyzer.imageMimeType st' = ImageAnalyzer.imageMimeType st
  /\ ImageAnalyzer.prompt st' = ImageAnalyzer.prompt st
  /\ (ready = false -> st' = st)
  /\ (ready = true ->
      ImageAnalyzer.isLoading st' = false
      /\ ((ImageAnalyzer.error st' = ""
           /\ GeminiKeys.analyzeImage svc
                (backend (match ImageAnalyzer.uploadedImage st with Some i => i | None => "" end)
                         (match ImageAnalyzer.imageMimeType st with Some m => m | None => "" end)
                         (ImageAnalyzer.prompt st))
              = inr (ImageAnalyzer.result st'))
          \/ (ImageAnalyzer.result st' = "" /\ ImageAnalyzer.error st' <> ""))).
Proof.
  cbv zeta. unfold ImageAnalyzer.analyze, ImageAnalyzer.present.
  destruct (ImageAnalyzer.uploadedImage st) as [image|] eqn:Hi;
    [| repeat split; auto; discriminate].
  destruct (ImageAnalyzer.imageMimeType st) as [mimeType|] eqn:Hm;
    [| repeat split; auto; destruct (JsString.truthy image); discriminate].
  destruct (JsString.truthy image); simpl; [| repeat split; auto; discriminate].
  destruct (JsString.truthy mimeType); simpl; [| repeat split; auto; discriminate].
  destruct (JsString.truthy (JsString.trim (ImageAnalyzer.prompt st))); simpl;
    [| repeat split; auto; discriminate].
  destruct (GeminiKeys.analyzeImage svc (backend image mimeType (ImageAnalyzer.prompt st)))
    as [err|response] eqn:Q; simpl; rewrite ?Hi, ?Hm.
  - do 3 (split; [reflexivity|]). split; [discriminate|]. intros _.
    split; [reflexivity|]. right. split; [reflexivity|].
    unfold GeminiKeys.analyzeImage in Q.
    destruct (Gemini.ai svc).
    + destruct (backend _ _ _) as [e|t]; [|discriminate].
      destruct (handleError_message e) as (m & Hmsg & Hne).
      assert (err = ErrorObject m) as -> by congruence. exact Hne.
    + destruct (handleError_message (ErrorObject Gemini.MSG_NO_KEY)) as (m & Hmsg & Hne).
      assert (err = ErrorObject m) as -> by congruence. exact Hne.
  - do 3 (split; [reflexivity|]). split; [discriminate|]. intros _.
    split; [reflexivity|]. left. split; reflexivity.
Qed.

Lemma analyze_outcome_witness :
  let st := ImageAnalyzer.mkState "   " false "old answer" "" (Some "QUJD") (Some "image/png") in
  ImageAnalyzer.analyze (Gemini.mkService true (Some "k"))
                        (fun _ _ _ => inr "a cat") st = st.
Proof.
  cbv zeta.
  destruct (analyze_outcome (Gemini.mkService true (Some "k")) (fun _ _ _ => inr "a cat")
              (ImageAnalyzer.mkState "   " false "old answer" "" (Some "QUJD")
                                     (Some "image/png")))
    as (_ & _ & _ & H & _).
  exact (H eq_refl).
Defined.

(** X30. Which image an analysis sends.  After a new image file has been
    chosen, and until it has been read, [analyze] sends the data of the image
    loaded before together with the type of the new file; once the file has
    been read it sends the piece of its data URL that follows the first
    comma. *)
Theorem analyze_uses_loaded_image
  (svc : Gemini.GeminiService)
  (backend : string -> string -> string -> Thrown + string)
  (file : ImageAnalyzer.SelectedFile) (st : ImageAnalyzer.State)
  (old fresh : string) :
  ImageAnalyzer.uploadedImage st = Some old ->
  String.prefix "image/" (ImageAnalyzer.type file) = true ->
  nth_error (ImageAnalyzer.splitAtCommas (ImageAnalyzer.dataUrl file)) 1 = Some fresh ->
  let chosen := ImageAnalyzer.onFileSelected [file] st in
  let request := fun image =>
    fun _ _ _ : string =>
      backend image (ImageAnalyzer.type file) (ImageAnalyzer.prompt st) in
  ImageAnalyzer.analyze svc backend chosen
  = ImageAnalyzer.analyze svc (request old) chosen
  /\ ImageAnalyzer.analyze svc backend (ImageAnalyzer.imageLoaded file chosen)
     = ImageAnalyzer.analyze svc (request fresh) (ImageAnalyzer.imageLoaded file chosen).
Proof.
  intros Hold Himg Hfresh. cbv zeta.
  unfold ImageAnalyzer.onFileSelected, ImageAnalyzer.imageLoaded. rewrite Himg.
  cbn [negb]. unfold ImageAnalyzer.analyze.
  cbn [ImageAnalyzer.uploadedImage ImageAnalyzer.imageMimeType ImageAnalyzer.prompt].
  rewrite Hold, Hfresh. split; reflexivity.
Qed.

Lemma analyze_uses_loaded_image_witness :
  let st := ImageAnalyzer.mkState "what is this?" false "" "" (Some "T0xE") (Some "image/png") in
  let file := ImageAnalyzer.mkSelected "image/jpeg" "data:image/jpeg;base64,TkVX" in
  let echo := fun image mimeType _ : string =>
                inr (image ++ " as " ++ mimeType)%string : Thrown + string in
  ImageAnalyzer.result
    (ImageAnalyzer.analyze (Gemini.mkService true (Some "k")) echo
       (ImageAnalyzer.onFileSelected [file] st))
  = "T0xE as image/jpeg"
  /\ ImageAnalyzer.result
       (ImageAnalyzer.analyze (Gemini.mkService true (Some "k")) echo
          (ImageAnalyzer.imageLoaded file (ImageAnalyzer.onFileSelected [file] st)))
     = "TkVX as image/jpeg".
Proof.
  cbv zeta.
  destruct (@analyze_uses_loaded_image (Gemini.mkService true (Some "k"))
              (fun image mimeType _ : string =>
                 inr (image ++ " as " ++ mimeType)%string : Thrown + string)
              (ImageAnalyzer.mkSelected "image/jpeg" "data:image/jpeg;base64,TkVX")
              (ImageAnalyzer.mkState "what is this?" false "" "" (Some "T0xE")
                                     (Some "image/png"))
              "T0xE" "TkVX" eq_refl eq_refl eq_refl) as (H1 & H2).
  rewrite H1, H2. split; reflexivity.
Defined.
